(** * Kairon: event-sourced ledger and reconciliation engine

    A shallow embedding of the transfer pipeline of [ledger-system/app]
    and of the matching pipeline of [recon_engine], followed by the
    properties of both that the specification states.

    Conventions of the embedding.
    - Python [Decimal] and [float] values are carried by exact rationals
      ([Q]); the rounding of either representation is not modelled, the
      dynamic type of a number is (see [Py.num]).
    - A [UUID] is an opaque number; [uuid4()] and the server-side id
      defaults draw from a supply that never repeats.
    - A [datetime] is a number of microseconds; [timedelta.total_seconds()]
      divides by 10^6.
    - Every storage call may raise; which ones do is given by an oracle
      carried in the world ([faults]). *)

From Stdlib Require Import ZArith QArith Qabs Qminmax Lqa Lia.
From Stdlib Require Import String Ascii List.
From stdpp Require Import base option list gmap strings.

Import ListNotations.
Open Scope string_scope.
Open Scope Z_scope.

(* ================================================================== *)
(** ** Python values, exceptions and the arithmetic the code relies on *)
(* ================================================================== *)

Module Py.

(** Exceptions, by class and [str(e)]. *)
Inductive exn : Type :=
| TypeError (msg : string)
| ZeroDivisionError (msg : string)
| DivisionByZero (msg : string)
| AttributeError (msg : string)
| ValueError (msg : string)
| KeyError (msg : string)
| IndexError (msg : string)
| StorageError (msg : string).

Definition str_exn (e : exn) : string :=
  match e with
  | TypeError m | ZeroDivisionError m | DivisionByZero m
  | AttributeError m | ValueError m | KeyError m | IndexError m | StorageError m => m
  end.

(** A computation that returns or raises. *)
Definition result (A : Type) : Type := exn + A.

Definition ret {A} (a : A) : result A := inr a.
Definition raise {A} (e : exn) : result A := inl e.
#[global] Instance result_ret : MRet result := fun A a => inr a.
#[global] Instance result_bind : MBind result := fun A B k m =>
  match m with
  | inl e => inl e
  | inr a => k a
  end.

(** Numbers with their run-time type. *)
Inductive num : Type :=
| NInt (z : Z)
| NFloat (q : Q)
| NDec (q : Q).

Definition qval (n : num) : Q :=
  match n with
  | NInt z => inject_Z z
  | NFloat q => q
  | NDec q => q
  end.

Definition type_name (n : num) : string :=
  match n with
  | NInt _ => "int"
  | NFloat _ => "float"
  | NDec _ => "decimal.Decimal"
  end.

Definition unsupported (op : string) (a b : num) : exn :=
  TypeError ("unsupported operand type(s) for " ++ op ++ ": '"
             ++ type_name a ++ "' and '" ++ type_name b ++ "'").

(** [a + b], [a - b], [a * b]: int with int stays int, float absorbs
    int, Decimal absorbs int, and Decimal never mixes with float. *)
Definition arith (op : string) (fz : Z -> Z -> Z) (fq : Q -> Q -> Q)
           (a b : num) : result num :=
  match a, b with
  | NInt x, NInt y => ret (NInt (fz x y))
  | NDec _, NFloat _ | NFloat _, NDec _ => raise (unsupported op a b)
  | NDec _, _ | _, NDec _ => ret (NDec (fq (qval a) (qval b)))
  | _, _ => ret (NFloat (fq (qval a) (qval b)))
  end.

Definition py_add := arith "+" Z.add Qplus.
Definition py_sub := arith "-" Z.sub Qminus.
Definition py_mul := arith "*" Z.mul Qmult.

Definition is_zero (q : Q) : bool := Qeq_bool q 0.

(** [a / b] (true division). *)
Definition py_truediv (a b : num) : result num :=
  match a, b with
  | NDec _, NFloat _ | NFloat _, NDec _ => raise (unsupported "/" a b)
  | NDec _, _ | _, NDec _ =>
      if is_zero (qval b)
      then raise (DivisionByZero "[<class 'decimal.DivisionByZero'>]")
      else ret (NDec (qval a / qval b))
  | NInt _, NInt _ =>
      if is_zero (qval b)
      then raise (ZeroDivisionError "division by zero")
      else ret (NFloat (qval a / qval b))
  | _, _ =>
      if is_zero (qval b)
      then raise (ZeroDivisionError "float division by zero")
      else ret (NFloat (qval a / qval b))
  end.

(** Comparisons are defined between all three types. *)
Definition py_eq (a b : num) : bool := Qeq_bool (qval a) (qval b).
Definition py_le (a b : num) : bool := Qle_bool (qval a) (qval b).
Definition py_lt (a b : num) : bool := negb (Qle_bool (qval b) (qval a)).
Definition py_gt (a b : num) : bool := py_lt b a.
Definition py_ge (a b : num) : bool := py_le b a.

Definition py_abs (a : num) : num :=
  match a with
  | NInt z => NInt (Z.abs z)
  | NFloat q => NFloat (Qabs q)
  | NDec q => NDec (Qabs q)
  end.

(** [max(a, b)]: the first argument unless the second is greater. *)
Definition py_max (a b : num) : num := if py_gt b a then b else a.

(** Values stored in a metadata bag ([Dict[str, Any]]). [PObj] stands
    for any value that is neither [None], a [str] nor a [float], given
    by its [str()] rendering. *)
Inductive pyval : Type :=
| PNone
| PStr (s : string)
| PFloat (q : Q)
| PObj (repr : string).

(** [v == s] for a string [s]: only a string can equal a string. *)
Definition eq_str (v : pyval) (s : string) : bool :=
  match v with
  | PStr s' => String.eqb s' s
  | _ => false
  end.

(** ASCII part of [str.lower()]. *)
Definition lower_ascii (c : ascii) : ascii :=
  let n := nat_of_ascii c in
  if (Nat.leb 65 n && Nat.leb n 90)%bool then ascii_of_nat (n + 32) else c.

Fixpoint lower (s : string) : string :=
  match s with
  | EmptyString => EmptyString
  | String c s' => String (lower_ascii c) (lower s')
  end.

(** ASCII whitespace removed by [str.strip()]. *)
Definition is_space (c : ascii) : bool :=
  let n := nat_of_ascii c in
  (Nat.eqb n 32 || (Nat.leb 9 n && Nat.leb n 13))%bool.

Fixpoint lstrip (s : string) : string :=
  match s with
  | EmptyString => EmptyString
  | String c s' => if is_space c then lstrip s' else s
  end.

Fixpoint rstrip (s : string) : string :=
  match s with
  | EmptyString => EmptyString
  | String c s' =>
      match rstrip s' with
      | EmptyString => if is_space c then EmptyString else String c EmptyString
      | t => String c t
      end
  end.

Definition strip (s : string) : string := rstrip (lstrip s).

(** [sub in s]. *)
Fixpoint contains (sub s : string) : bool :=
  if String.prefix sub s then true
  else match s with
       | EmptyString => false
       | String _ s' => contains sub s'
       end.

(** Renderings that the model does not compute: [str()] of a Decimal,
    of a float and of a UUID, [format(x, '.3f')] and
    [datetime.isoformat()]. *)
Record Fmt : Type := {
  str_decimal : Q -> string;
  str_float : Q -> string;
  fmt_3f : Q -> string;
  str_uuid : N -> string;
  isoformat : Z -> string
}.

Definition py_str (fmt : Fmt) (v : pyval) : string :=
  match v with
  | PNone => "None"
  | PStr s => s
  | PFloat q => str_float fmt q
  | PObj r => r
  end.

End Py.

(* ================================================================== *)
(** ** The storage substrate                                           *)
(* ================================================================== *)

Module Storage.
Import Py.

(** The store (of any shape [S]), the id supply, the server clock and
    the oracle that says which of the coming storage calls raise
    ([true] raises; an exhausted oracle lets every call through). *)
Record World (S : Type) : Type := {
  store : S;
  next_uuid : N;
  clock : Z;
  faults : list bool
}.
Arguments store {S} _.
Arguments next_uuid {S} _.
Arguments clock {S} _.
Arguments faults {S} _.

Definition set_store {S} (s : S) (w : World S) : World S :=
  {| store := s; next_uuid := next_uuid w; clock := clock w; faults := faults w |}.

Definition init_world {S} (s : S) (t : Z) (fl : list bool) : World S :=
  {| store := s; next_uuid := 0%N; clock := t; faults := fl |}.

(** Code that reads and writes the world and may raise. *)
Definition M (S A : Type) : Type := World S -> result A * World S.

#[global] Instance M_ret {S} : MRet (M S) := fun A a w => (inr a, w).
#[global] Instance M_bind {S} : MBind (M S) := fun A B k m w =>
  match m w with
  | (inl e, w') => (inl e, w')
  | (inr a, w') => k a w'
  end.

Definition throw {S A} (e : exn) : M S A := fun w => (inl e, w).

(** A pure computation that may raise, run inside [M]. *)
Definition lift {S A} (r : result A) : M S A := fun w => (r, w).

(** [try: body except Exception as e: handler e] *)
Definition try_except {S A} (body : M S A) (handler : exn -> M S A) : M S A :=
  fun w =>
    match body w with
    | (inl e, w') => handler e w'
    | (inr a, w') => (inr a, w')
    end.

(** One round trip to the database: raises when the oracle says so. *)
Definition db_call {S} : M S unit := fun w =>
  match faults w with
  | true :: fl =>
      (inl (StorageError "storage error"),
       {| store := store w; next_uuid := next_uuid w; clock := clock w; faults := fl |})
  | false :: fl =>
      (inr tt, {| store := store w; next_uuid := next_uuid w; clock := clock w; faults := fl |})
  | [] => (inr tt, w)
  end.

Definition fresh_uuid {S} : M S N := fun w =>
  (inr (next_uuid w),
   {| store := store w; next_uuid := N.succ (next_uuid w); clock := clock w;
      faults := faults w |}).

Definition now {S} : M S Z := fun w => (inr (clock w), w).
Definition get_db {S} : M S S := fun w => (inr (store w), w).
Definition put_db {S} (s : S) : M S unit := fun w => (inr tt, set_store s w).

(** [DatabaseManager.get_transaction]: the block runs on the store; a
    normal exit of the block (a [return] inside it included) commits,
    an exception restores the store as it was on entry. Acquiring the
    connection and BEGIN are part of the block's first call. *)
Module DatabaseManager.
Definition get_transaction {S A} (body : M S A) : M S A := fun w =>
  let entry := store w in
  match body w with
  | (inr a, w1) =>
      match db_call w1 with
      | (inr _, w2) => (inr a, w2)
      | (inl e, w2) => (inl e, set_store entry w2)
      end
  | (inl e, w1) => (inl e, set_store entry w1)
  end.
End DatabaseManager.

End Storage.

(* ================================================================== *)
(** ** The ledger: data model and storage                              *)
(* ================================================================== *)

Module Ledger.
Import Py Storage.

Abbreviation UUID := N.

(** [app/models] *)
Record AccountCreate : Type := {
  ac_currency : string;
  ac_type : string;
  ac_metadata : gmap string pyval
}.

Record Account : Type := {
  acc_id : UUID;
  acc_currency : string;
  acc_type : string;
  acc_metadata : gmap string pyval;
  acc_created_at : Z;
  acc_updated_at : Z
}.

Record Balance : Type := {
  account_id : UUID;
  bal_currency : string;
  available_balance : Q;
  pending_balance : Q;
  last_updated : Z;
  version : Z
}.

Inductive EventType : Type := DEBIT | CREDIT | TRANSFER.
Inductive EventStatus : Type := PENDING | SETTLED | FAILED.

Record LedgerEvent : Type := {
  id : UUID;
  timestamp : Z;
  source_account_id : option UUID;
  destination_account_id : option UUID;
  amount : Q;
  currency : string;
  event_type : EventType;
  transaction_id : UUID;
  metadata : gmap string pyval;
  status : EventStatus;
  created_at : Z
}.

Record TransferRequest : Type := {
  tr_source_account_id : UUID;
  tr_destination_account_id : UUID;
  tr_amount : Q;
  tr_currency : string;
  tr_metadata : option (gmap string pyval)
}.

(** [app/config.py] *)
Record Settings : Type := {
  allow_overdraft : bool;
  max_transaction_amount : Q
}.

Definition settings : Settings :=
  {| allow_overdraft := false; max_transaction_amount := 1000000 |}.

(** The three tables the transfer pipeline touches. *)
Record DB : Type := {
  accounts : gmap UUID Account;
  balances : gmap UUID Balance;
  ledger_events : list LedgerEvent
}.

Definition empty_db : DB :=
  {| accounts := ∅; balances := ∅; ledger_events := [] |}.

Abbreviation World := (Storage.World DB).
Abbreviation M := (Storage.M DB).

(** Modelled from the spec: the column default of [balances.version]
    (the schema is not among the sources); a balance row is created
    with version 0. *)
Definition initial_version : Z := 0.

Module AccountRepository.
Definition create (account_data : AccountCreate) : M Account :=
  _ ← db_call;
  new_id ← fresh_uuid;
  t ← now;
  db ← get_db;
  let row := {| acc_id := new_id;
                acc_currency := ac_currency account_data;
                acc_type := ac_type account_data;
                acc_metadata := ac_metadata account_data;
                acc_created_at := t;
                acc_updated_at := t |} in
  _ ← put_db {| accounts := <[new_id := row]> (accounts db);
                balances := balances db;
                ledger_events := ledger_events db |};
  mret row.

Definition get_by_id (account_id : UUID) : M (option Account) :=
  _ ← db_call;
  db ← get_db;
  mret (accounts db !! account_id).

Definition exists_ (account_id : UUID) : M bool :=
  _ ← db_call;
  db ← get_db;
  mret (bool_decide (is_Some (accounts db !! account_id))).
End AccountRepository.

Module BalanceRepository.
Definition get_balance (account_id : UUID) : M (option Balance) :=
  _ ← db_call;
  db ← get_db;
  mret (balances db !! account_id).

(** INSERT ... ON CONFLICT (account_id) DO UPDATE ... RETURNING *)
Definition upsert_balance (account_id : UUID) (currency : string)
           (available_delta pending_delta : Q) : M Balance :=
  _ ← db_call;
  t ← now;
  db ← get_db;
  let row :=
    match balances db !! account_id with
    | Some b =>
        {| account_id := account_id;
           bal_currency := bal_currency b;
           available_balance := available_balance b + available_delta;
           pending_balance := pending_balance b + pending_delta;
           last_updated := t;
           version := version b + 1 |}
    | None =>
        {| account_id := account_id;
           bal_currency := currency;
           available_balance := available_delta;
           pending_balance := pending_delta;
           last_updated := t;
           version := initial_version |}
    end in
  _ ← put_db {| accounts := accounts db;
                balances := <[account_id := row]> (balances db);
                ledger_events := ledger_events db |};
  mret row.

Definition check_sufficient_funds (account_id : UUID) (amount : Q) : M bool :=
  _ ← db_call;
  db ← get_db;
  match balances db !! account_id with
  | None => mret false
  | Some row => mret (py_ge (NDec (available_balance row)) (NDec amount))
  end.
End BalanceRepository.

(** The dict handed to [EventRepository.create_event]. *)
Record event_data : Type := {
  ed_source_account_id : option UUID;
  ed_destination_account_id : option UUID;
  ed_amount : Q;
  ed_currency : string;
  ed_event_type : EventType;
  ed_transaction_id : UUID;
  ed_metadata : option (gmap string pyval);
  ed_status : EventStatus
}.

Module EventRepository.
(** INSERT ... RETURNING, then the [LedgerEvent] built from the row,
    whose validation rejects null metadata. *)
Definition create_event (d : event_data) : M LedgerEvent :=
  _ ← db_call;
  new_id ← fresh_uuid;
  t ← now;
  db ← get_db;
  match ed_metadata d with
  | None => throw (ValueError "metadata: none is not an allowed value")
  | Some md =>
      let row := {| id := new_id;
                    timestamp := t;
                    source_account_id := ed_source_account_id d;
                    destination_account_id := ed_destination_account_id d;
                    amount := ed_amount d;
                    currency := ed_currency d;
                    event_type := ed_event_type d;
                    transaction_id := ed_transaction_id d;
                    metadata := md;
                    status := ed_status d;
                    created_at := t |} in
      _ ← put_db {| accounts := accounts db;
                    balances := balances db;
                    ledger_events := (ledger_events db ++ [row])%list |};
      mret row
  end.
End EventRepository.

(* ---------------------------------------------------------------- *)
(** *** Services                                                      *)
(* ---------------------------------------------------------------- *)

Record ValidationResult : Type := {
  valid : bool;
  errors : list string
}.

(** [if cond: errors.append(msg)] *)
Definition append_if (cond : bool) (errors : list string) (msg : string) : list string :=
  if cond then (errors ++ [msg])%list else errors.

Module CommandProcessor.
Definition validate_transfer (fmt : Fmt) (cfg : Settings)
           (transfer : TransferRequest) : M ValidationResult :=
  let errors : list string := [] in
  let errors :=
    append_if (py_le (NDec (tr_amount transfer)) (NInt 0)) errors
      "Amount must be positive" in
  let errors :=
    append_if (py_gt (NDec (tr_amount transfer)) (NFloat (max_transaction_amount cfg)))
      errors
      ("Amount exceeds maximum limit of " ++ str_float fmt (max_transaction_amount cfg)) in
  let errors :=
    append_if (N.eqb (tr_source_account_id transfer) (tr_destination_account_id transfer))
      errors "Source and destination accounts must be different" in
  source_exists ← AccountRepository.exists_ (tr_source_account_id transfer);
  let errors := append_if (negb source_exists) errors "Source account does not exist" in
  dest_exists ← AccountRepository.exists_ (tr_destination_account_id transfer);
  let errors := append_if (negb dest_exists) errors "Destination account does not exist" in
  errors ←
    (if (source_exists && dest_exists)%bool then
       source_account ← AccountRepository.get_by_id (tr_source_account_id transfer);
       dest_account ← AccountRepository.get_by_id (tr_destination_account_id transfer);
       match source_account, dest_account with
       | Some source_account, Some dest_account =>
           let errors :=
             append_if (negb (String.eqb (acc_currency source_account)
                                         (tr_currency transfer)))
               errors "Transfer currency doesn't match source account currency" in
           let errors :=
             append_if (negb (String.eqb (acc_currency dest_account)
                                         (tr_currency transfer)))
               errors "Transfer currency doesn't match destination account currency" in
           mret errors
       | _, _ =>
           throw (AttributeError "'NoneType' object has no attribute 'currency'")
       end
     else mret errors);
  mret {| valid := Nat.eqb (length errors) 0; errors := errors |}.

Definition validate_sufficient_funds (cfg : Settings) (account_id : UUID)
           (amount : Q) : M bool :=
  if allow_overdraft cfg then mret true
  else BalanceRepository.check_sufficient_funds account_id amount.
End CommandProcessor.

Module EventStore.
Definition create_transfer_events (source_account_id destination_account_id : UUID)
           (amount : Q) (currency : string)
           (metadata : option (gmap string pyval)) : M (list LedgerEvent) :=
  transaction_id ← fresh_uuid;
  debit_event ← EventRepository.create_event
    {| ed_source_account_id := Some source_account_id;
       ed_destination_account_id := None;
       ed_amount := amount;
       ed_currency := currency;
       ed_event_type := DEBIT;
       ed_transaction_id := transaction_id;
       ed_metadata := metadata;
       ed_status := SETTLED |};
  credit_event ← EventRepository.create_event
    {| ed_source_account_id := None;
       ed_destination_account_id := Some destination_account_id;
       ed_amount := amount;
       ed_currency := currency;
       ed_event_type := CREDIT;
       ed_transaction_id := transaction_id;
       ed_metadata := metadata;
       ed_status := SETTLED |};
  mret [debit_event; credit_event].
End EventStore.

(** One entry of the [balance_updates] dict. *)
Record balance_update : Type := {
  bu_currency : string;
  available_delta : Q;
  pending_delta : Q
}.

Module ProjectionEngine.
(** [balance_updates] keeps its keys in insertion order.
    [bump k cur f] creates the entry of [k] with zero deltas when it
    is missing and then applies [f] to its available delta. *)
Fixpoint bump (k : UUID) (cur : string) (f : Q -> Q)
         (balance_updates : list (UUID * balance_update))
  : list (UUID * balance_update) :=
  match balance_updates with
  | [] => [(k, {| bu_currency := cur; available_delta := f 0%Q; pending_delta := 0%Q |})]
  | (k', u) :: rest =>
      if N.eqb k' k
      then (k', {| bu_currency := bu_currency u;
                   available_delta := f (available_delta u);
                   pending_delta := pending_delta u |}) :: rest
      else (k', u) :: bump k cur f rest
  end.

Definition accumulate (balance_updates : list (UUID * balance_update))
           (event : LedgerEvent) : list (UUID * balance_update) :=
  match event_type event, source_account_id event, destination_account_id event with
  | DEBIT, Some account_id, _ =>
      bump account_id (currency event) (fun d => d - amount event)%Q balance_updates
  | CREDIT, _, Some account_id =>
      bump account_id (currency event) (fun d => d + amount event)%Q balance_updates
  | _, _, _ => balance_updates
  end.

Fixpoint apply_updates (balance_updates : list (UUID * balance_update))
  : M (list Balance) :=
  match balance_updates with
  | [] => mret []
  | (account_id, update) :: rest =>
      balance ← BalanceRepository.upsert_balance account_id (bu_currency update)
                  (available_delta update) (pending_delta update);
      updated_balances ← apply_updates rest;
      mret (balance :: updated_balances)
  end.

Definition project_events_to_balances (events : list LedgerEvent)
  : M (list Balance) :=
  apply_updates (fold_left accumulate events []).
End ProjectionEngine.

(** The dict that [transfer_funds] returns. *)
Inductive TransferResult : Type :=
| TransferOk (transaction_id : UUID) (events : list LedgerEvent)
             (updated_balances : list Balance)
| TransferFailed (errors : list string).

Definition success (r : TransferResult) : bool :=
  match r with
  | TransferOk _ _ _ => true
  | TransferFailed _ => false
  end.

Module LedgerService.
Definition create_account (account_data : AccountCreate) : M Account :=
  account ← AccountRepository.create account_data;
  _ ← DatabaseManager.get_transaction
        (BalanceRepository.upsert_balance (acc_id account) (acc_currency account) 0%Q 0%Q);
  mret account.

Definition transfer_funds (fmt : Fmt) (cfg : Settings)
           (transfer : TransferRequest) : M TransferResult :=
  validation ← CommandProcessor.validate_transfer fmt cfg transfer;
  if negb (valid validation) then mret (TransferFailed (errors validation))
  else
    DatabaseManager.get_transaction
      (has_funds ← CommandProcessor.validate_sufficient_funds cfg
                     (tr_source_account_id transfer) (tr_amount transfer);
       if negb has_funds then mret (TransferFailed ["Insufficient funds"])
       else
         events ← EventStore.create_transfer_events
                    (tr_source_account_id transfer) (tr_destination_account_id transfer)
                    (tr_amount transfer) (tr_currency transfer) (tr_metadata transfer);
         balances ← ProjectionEngine.project_events_to_balances events;
         match events with
         | first :: _ => mret (TransferOk (transaction_id first) events balances)
         | [] => throw (IndexError "list index out of range")
         end).
End LedgerService.

(** Histories of the two public operations. *)
Inductive op : Type :=
| CreateAccount (account_data : AccountCreate)
| Transfer (transfer : TransferRequest).

Definition step (fmt : Fmt) (cfg : Settings) (w : World) (o : op) : World :=
  match o with
  | CreateAccount a => snd (LedgerService.create_account a w)
  | Transfer t => snd (LedgerService.transfer_funds fmt cfg t w)
  end.

Definition run (fmt : Fmt) (cfg : Settings) (ops : list op) (w : World) : World :=
  fold_left (step fmt cfg) ops w.

(** Sums over the event log. *)
Definition Qsum (l : list Q) : Q := fold_right Qplus 0%Q l.

Definition is_settled (e : LedgerEvent) : bool :=
  match status e with SETTLED => true | _ => false end.

Definition is_credit (e : LedgerEvent) : bool :=
  match event_type e with CREDIT => true | _ => false end.

Definition is_debit (e : LedgerEvent) : bool :=
  match event_type e with DEBIT => true | _ => false end.

Definition opt_is (o : option UUID) (a : UUID) : bool :=
  match o with Some x => N.eqb x a | None => false end.

(** Σ amount over the SETTLED CREDIT events whose destination is [a]. *)
Definition credits_to (a : UUID) (evs : list LedgerEvent) : Q :=
  Qsum (map amount
          (List.filter (fun e => is_settled e && is_credit e
                                 && opt_is (destination_account_id e) a)%bool evs)).

(** Σ amount over the SETTLED DEBIT events whose source is [a]. *)
Definition debits_from (a : UUID) (evs : list LedgerEvent) : Q :=
  Qsum (map amount
          (List.filter (fun e => is_settled e && is_debit e
                                 && opt_is (source_account_id e) a)%bool evs)).

(** Σ amount over the events of one transaction, type and currency. *)
Definition txn_total (ty : LedgerEvent -> bool) (tid : UUID) (cur : string)
           (evs : list LedgerEvent) : Q :=
  Qsum (map amount
          (List.filter (fun e => ty e && N.eqb (transaction_id e) tid
                                 && String.eqb (currency e) cur)%bool evs)).

(** The available balance stored for [a]; an account without a
    balance row holds nothing. *)
Definition stored_available (db : DB) (a : UUID) : Q :=
  match balances db !! a with
  | Some b => available_balance b
  | None => 0%Q
  end.

(** The version stored for [a], if it has a balance row. *)
Definition stored_version (db : DB) (a : UUID) : option Z :=
  version <$> balances db !! a.

(** The version an upsert leaves behind. *)
Definition bumped (v : option Z) : Z :=
  match v with
  | Some n => n + 1
  | None => initial_version
  end.

(* ---------------------------------------------------------------- *)
(** *** What the operations are expected to do                        *)
(* ---------------------------------------------------------------- *)

(** The rules of the validator, in the order they are checked. The
    currency rule is checked once per account. *)
Inductive rule : Type :=
| AmountPositive
| AmountWithinLimit
| DistinctAccounts
| SourceExists
| DestinationExists
| SourceCurrency
| DestinationCurrency.

Definition rules : list rule :=
  [AmountPositive; AmountWithinLimit; DistinctAccounts; SourceExists;
   DestinationExists; SourceCurrency; DestinationCurrency].

Definition account_exists (db : DB) (a : UUID) : bool :=
  bool_decide (is_Some (accounts db !! a)).

Definition has_currency (db : DB) (a : UUID) (cur : string) : bool :=
  match accounts db !! a with
  | Some acc => String.eqb (acc_currency acc) cur
  | None => false
  end.

Definition both_exist (db : DB) (t : TransferRequest) : bool :=
  (account_exists db (tr_source_account_id t)
   && account_exists db (tr_destination_account_id t))%bool.

Definition violated (cfg : Settings) (db : DB) (t : TransferRequest) (r : rule) : bool :=
  match r with
  | AmountPositive => Qle_bool (tr_amount t) 0
  | AmountWithinLimit => negb (Qle_bool (tr_amount t) (max_transaction_amount cfg))
  | DistinctAccounts => N.eqb (tr_source_account_id t) (tr_destination_account_id t)
  | SourceExists => negb (account_exists db (tr_source_account_id t))
  | DestinationExists => negb (account_exists db (tr_destination_account_id t))
  | SourceCurrency =>
      (both_exist db t
       && negb (has_currency db (tr_source_account_id t) (tr_currency t)))%bool
  | DestinationCurrency =>
      (both_exist db t
       && negb (has_currency db (tr_destination_account_id t) (tr_currency t)))%bool
  end.

Definition message (fmt : Fmt) (cfg : Settings) (r : rule) : string :=
  match r with
  | AmountPositive => "Amount must be positive"
  | AmountWithinLimit =>
      "Amount exceeds maximum limit of " ++ str_float fmt (max_transaction_amount cfg)
  | DistinctAccounts => "Source and destination accounts must be different"
  | SourceExists => "Source account does not exist"
  | DestinationExists => "Destination account does not exist"
  | SourceCurrency => "Transfer currency doesn't match source account currency"
  | DestinationCurrency => "Transfer currency doesn't match destination account currency"
  end.

(** One message per violated rule, in rule order. *)
Definition expected_errors (fmt : Fmt) (cfg : Settings) (db : DB)
           (t : TransferRequest) : list string :=
  map (message fmt cfg) (List.filter (violated cfg db t) rules).

(** The row an upsert leaves for [a]. *)
Definition upsert_row (bals : gmap UUID Balance) (a : UUID) (cur : string)
           (dav dpe : Q) (t : Z) : Balance :=
  match bals !! a with
  | Some b =>
      {| account_id := a;
         bal_currency := bal_currency b;
         available_balance := available_balance b + dav;
         pending_balance := pending_balance b + dpe;
         last_updated := t;
         version := version b + 1 |}
  | None =>
      {| account_id := a;
         bal_currency := cur;
         available_balance := dav;
         pending_balance := dpe;
         last_updated := t;
         version := initial_version |}
  end.

(** The two events of a transfer started in world [w]. *)
Definition debit_event (w : World) (t : TransferRequest)
           (md : gmap string pyval) : LedgerEvent :=
  {| id := N.succ (next_uuid w);
     timestamp := clock w;
     source_account_id := Some (tr_source_account_id t);
     destination_account_id := None;
     amount := tr_amount t;
     currency := tr_currency t;
     event_type := DEBIT;
     transaction_id := next_uuid w;
     metadata := md;
     status := SETTLED;
     created_at := clock w |}.

Definition credit_event (w : World) (t : TransferRequest)
           (md : gmap string pyval) : LedgerEvent :=
  {| id := N.succ (N.succ (next_uuid w));
     timestamp := clock w;
     source_account_id := None;
     destination_account_id := Some (tr_destination_account_id t);
     amount := tr_amount t;
     currency := tr_currency t;
     event_type := CREDIT;
     transaction_id := next_uuid w;
     metadata := md;
     status := SETTLED;
     created_at := clock w |}.

Definition source_row (w : World) (t : TransferRequest) : Balance :=
  upsert_row (balances (store w)) (tr_source_account_id t) (tr_currency t)
    (0 - tr_amount t) 0 (clock w).

Definition destination_row (w : World) (t : TransferRequest) : Balance :=
  upsert_row (balances (store w)) (tr_destination_account_id t) (tr_currency t)
    (0 + tr_amount t) 0 (clock w).

Definition after_transfer (w : World) (t : TransferRequest)
           (md : gmap string pyval) : DB :=
  {| accounts := accounts (store w);
     balances := <[tr_destination_account_id t := destination_row w t]>
                   (<[tr_source_account_id t := source_row w t]> (balances (store w)));
     ledger_events :=
       (ledger_events (store w) ++ [debit_event w t md; credit_event w t md])%list |}.

(** The account row that [create_account] inserts in world [w]. *)
Definition new_account (w : World) (a : AccountCreate) : Account :=
  {| acc_id := next_uuid w;
     acc_currency := ac_currency a;
     acc_type := ac_type a;
     acc_metadata := ac_metadata a;
     acc_created_at := clock w;
     acc_updated_at := clock w |}.

(** Properties of a store and of a world that every history keeps. *)
Definition balance_law (db : DB) : Prop :=
  forall a, (stored_available db a
             == credits_to a (ledger_events db) - debits_from a (ledger_events db))%Q.

Definition conserved (db : DB) : Prop :=
  forall tid cur, (txn_total is_credit tid cur (ledger_events db)
                   == txn_total is_debit tid cur (ledger_events db))%Q.

Definition supply_fresh (w : World) : Prop :=
  (forall a, is_Some (accounts (store w) !! a) -> (a < next_uuid w)%N)
  /\ (forall a, is_Some (balances (store w) !! a) -> is_Some (accounts (store w) !! a))
  /\ (forall e, In e (ledger_events (store w)) -> (transaction_id e < next_uuid w)%N).

(** The three properties together. *)
Definition consistent (w : World) : Prop :=
  balance_law (store w) /\ conserved (store w) /\ supply_fresh w.

End Ledger.

(* ================================================================== *)
(** ** The reconciliation engine                                       *)
(* ================================================================== *)

Module Recon.
Import Py Storage.

Abbreviation UUID := N.

(** [recon/recon_model.py] *)
Inductive ReconStatus : Type := PENDING | RUNNING | COMPLETED | FAILED.

Record ExternalTxn : Type := {
  txn_id : string;
  ext_amount : Q;
  ext_currency : string;
  ext_timestamp : Z;
  description : option string;
  ext_metadata : gmap string pyval
}.

Record LedgerTxn : Type := {
  id : UUID;
  transaction_id : UUID;
  amount : Q;
  currency : string;
  timestamp : Z;
  event_type : string;
  source_account_id : option UUID;
  destination_account_id : option UUID;
  metadata : gmap string pyval
}.

Record MatchResult : Type := {
  matched : bool;
  match_score : Q;
  mismatch_reason : option string;
  ledger_txn_id : option UUID;
  external_txn_id : string;
  amount_diff : Q;
  timestamp_diff_seconds : Z;
  mr_metadata : gmap string pyval
}.

(** [config.py] *)
Record ReconSettings : Type := {
  amount_tolerance_percent : Q;
  timestamp_tolerance_seconds : Z;
  fuzzy_weights : gmap string Q;
  min_match_score : Q
}.

Definition recon_settings : ReconSettings :=
  {| amount_tolerance_percent := 1 # 10;
     timestamp_tolerance_seconds := 300;
     fuzzy_weights :=
       <["amount" := 4 # 10]> (<["timestamp" := 3 # 10]> (<["metadata" := 3 # 10]> ∅));
     min_match_score := 8 # 10 |}.

(** [d.total_seconds()] for a difference [d] in microseconds. *)
Definition total_seconds (d : Z) : Q := d # 1000000.

Definition opt_str (o : option string) : pyval :=
  match o with
  | Some s => PStr s
  | None => PNone
  end.

(** Truth value of an [Optional[str]]. *)
Definition truthy (o : option string) : bool :=
  match o with
  | Some (String _ _) => true
  | _ => false
  end.

Definition nonempty (s : string) : bool :=
  match s with
  | EmptyString => false
  | String _ _ => true
  end.

Module BaseMatcher.
(** [class_name] is [self.__class__.__name__]. [int()] of the float
    number of seconds truncates towards zero. *)
Definition _create_match_result (class_name : string)
           (external_txn : ExternalTxn) (ledger_txn : option LedgerTxn)
           (matched : bool) (score : Q) (reason : option string) : MatchResult :=
  let amount_diff :=
    match ledger_txn with
    | Some l => (ext_amount external_txn - amount l)%Q
    | None => 0%Q
    end in
  let timestamp_diff :=
    match ledger_txn with
    | Some l => Z.quot (ext_timestamp external_txn - timestamp l) 1000000
    | None => 0
    end in
  {| matched := matched;
     match_score := score;
     mismatch_reason := reason;
     ledger_txn_id := option_map id ledger_txn;
     external_txn_id := txn_id external_txn;
     amount_diff := amount_diff;
     timestamp_diff_seconds := timestamp_diff;
     mr_metadata :=
       <["external_description" := opt_str (description external_txn)]>
         (<["ledger_event_type" :=
              match ledger_txn with
              | Some l => PStr (event_type l)
              | None => PNone
              end]>
            (<["match_criteria" := PStr class_name]> ∅)) |}.
End BaseMatcher.

Module ExactMatcher.
Definition class_name : string := "ExactMatcher".

(** The two cross-reference tests of [_find_exact_id_match] on one
    ledger transaction. *)
Definition id_match (fmt : Fmt) (external_txn : ExternalTxn)
           (ledger_txn : LedgerTxn) : bool :=
  (match metadata ledger_txn !! "external_txn_id" with
   | Some v => eq_str v (txn_id external_txn)
   | None => false
   end
   ||
   match ext_metadata external_txn !! "ledger_txn_id" with
   | Some v => eq_str v (str_uuid fmt (id ledger_txn))
   | None => false
   end)%bool.

Fixpoint _find_exact_id_match (fmt : Fmt) (external_txn : ExternalTxn)
         (ledger_txns : list LedgerTxn) : option LedgerTxn :=
  match ledger_txns with
  | [] => None
  | ledger_txn :: rest =>
      if id_match fmt external_txn ledger_txn then Some ledger_txn
      else _find_exact_id_match fmt external_txn rest
  end.

(** [timedelta] comparison, in microseconds. *)
Definition amount_match (cfg : ReconSettings) (external_txn : ExternalTxn)
           (ledger_txn : LedgerTxn) : bool :=
  (Qeq_bool (amount ledger_txn) (ext_amount external_txn)
   && String.eqb (currency ledger_txn) (ext_currency external_txn)
   && (Z.abs (timestamp ledger_txn - ext_timestamp external_txn)
       <=? timestamp_tolerance_seconds cfg * 1000000))%bool.

Fixpoint _find_exact_amount_matches (cfg : ReconSettings)
         (external_txn : ExternalTxn) (ledger_txns : list LedgerTxn)
  : list LedgerTxn :=
  match ledger_txns with
  | [] => []
  | ledger_txn :: rest =>
      if amount_match cfg external_txn ledger_txn
      then ledger_txn :: _find_exact_amount_matches cfg external_txn rest
      else _find_exact_amount_matches cfg external_txn rest
  end.

Definition _validate_exact_match (fmt : Fmt) (cfg : ReconSettings)
           (external_txn : ExternalTxn) (ledger_txn : LedgerTxn) : MatchResult :=
  if negb (Qeq_bool (ext_amount external_txn) (amount ledger_txn)) then
    BaseMatcher._create_match_result class_name external_txn (Some ledger_txn)
      false 0%Q
      (Some ("Amount mismatch: external=" ++ str_decimal fmt (ext_amount external_txn)
             ++ ", ledger=" ++ str_decimal fmt (amount ledger_txn)))
  else if negb (String.eqb (ext_currency external_txn) (currency ledger_txn)) then
    BaseMatcher._create_match_result class_name external_txn (Some ledger_txn)
      false 0%Q
      (Some ("Currency mismatch: external=" ++ ext_currency external_txn
             ++ ", ledger=" ++ currency ledger_txn))
  else
    let time_diff := Z.abs (timestamp ledger_txn - ext_timestamp external_txn) in
    if py_gt (NFloat (total_seconds time_diff))
             (NInt (timestamp_tolerance_seconds cfg)) then
      BaseMatcher._create_match_result class_name external_txn (Some ledger_txn)
        false 0%Q
        (Some ("Timestamp outside tolerance: diff="
               ++ str_float fmt (total_seconds time_diff) ++ "s"))
    else
      BaseMatcher._create_match_result class_name external_txn (Some ledger_txn)
        true 1%Q None.

Definition match_ (fmt : Fmt) (cfg : ReconSettings)
           (external_txn : ExternalTxn) (ledger_txns : list LedgerTxn) : MatchResult :=
  match _find_exact_id_match fmt external_txn ledger_txns with
  | Some exact_match => _validate_exact_match fmt cfg external_txn exact_match
  | None =>
      let amount_matches := _find_exact_amount_matches cfg external_txn ledger_txns in
      match amount_matches with
      | [only] => _validate_exact_match fmt cfg external_txn only
      | _ :: _ :: _ =>
          BaseMatcher._create_match_result class_name external_txn None false 0%Q
            (Some "Multiple exact amount matches found")
      | [] =>
          BaseMatcher._create_match_result class_name external_txn None false 0%Q
            (Some "No exact match found")
      end
  end.
End ExactMatcher.

Module FuzzyMatcher.
Definition class_name : string := "FuzzyMatcher".

Definition _calculate_amount_similarity (cfg : ReconSettings)
           (external_amount ledger_amount : Q) : result num :=
  let external_amount := NDec external_amount in
  let ledger_amount := NDec ledger_amount in
  if py_eq external_amount ledger_amount then ret (NFloat 1)
  else
    total ← py_add external_amount ledger_amount;
    avg_amount ← py_truediv total (NInt 2);
    if py_eq avg_amount (NInt 0) then ret (NFloat 0)
    else
      difference ← py_sub external_amount ledger_amount;
      diff_percent ← py_truediv (py_abs difference) avg_amount;
      tolerance_percent ← py_truediv (NFloat (amount_tolerance_percent cfg)) (NInt 100);
      if py_le diff_percent tolerance_percent then
        x ← py_truediv diff_percent tolerance_percent;
        y ← py_mul x (NFloat (1 # 2));
        py_sub (NFloat 1) y
      else
        x ← py_sub (NFloat 1) diff_percent;
        y ← py_mul (NFloat (1 # 2)) x;
        ret (py_max (NFloat 0) y).

Definition _calculate_timestamp_similarity (cfg : ReconSettings)
           (external_timestamp ledger_timestamp : Z) : result num :=
  let time_diff :=
    py_abs (NFloat (total_seconds (external_timestamp - ledger_timestamp))) in
  let tolerance := NInt (timestamp_tolerance_seconds cfg) in
  if py_le time_diff tolerance then
    x ← py_truediv time_diff tolerance;
    y ← py_mul x (NFloat (1 # 2));
    py_sub (NFloat 1) y
  else
    max_diff ← py_mul tolerance (NInt 10);
    if py_gt time_diff max_diff then ret (NFloat 0)
    else
      a ← py_sub time_diff tolerance;
      b ← py_sub max_diff tolerance;
      c ← py_truediv a b;
      d ← py_sub (NFloat 1) c;
      py_mul (NFloat (1 # 2)) d.

(** Is [key] one of the keys that may hold a reference? *)
Definition ref_key (key : string) : bool :=
  (contains "ref" (lower key) || contains "id" (lower key))%bool.

Definition _compare_transaction_references (fmt : Fmt)
           (external_txn : ExternalTxn) (ledger_txn : LedgerTxn) : Q :=
  if existsb (fun kv => ref_key (fst kv)
                        && String.eqb (lower (py_str fmt (snd kv)))
                                      (lower (txn_id external_txn)))%bool
             (map_to_list (metadata ledger_txn))
  then 1%Q
  else if existsb (fun kv => ref_key (fst kv)
                             && String.eqb (lower (py_str fmt (snd kv)))
                                           (lower (str_uuid fmt (id ledger_txn))))%bool
                  (map_to_list (ext_metadata external_txn))
  then 1%Q
  else
    match description external_txn with
    | Some (String c d) =>
        let desc_lower := lower (String c d) in
        if contains (lower (str_uuid fmt (id ledger_txn))) desc_lower then 8 # 10
        else if contains (lower (str_uuid fmt (transaction_id ledger_txn))) desc_lower
             then 8 # 10
             else 0%Q
    | _ => 0%Q
    end.

(** A [LedgerTxn] declares no [description]: [hasattr] is false. *)
Definition ledger_description (ledger_txn : LedgerTxn) : option string := None.

(** The score of one key present in both bags, if it is kept. *)
Definition field_similarity (ratio : string -> string -> Q) (fmt : Fmt)
           (vs : pyval * pyval) : option Q :=
  let ext_value := strip (lower (py_str fmt (fst vs))) in
  let ledger_value := strip (lower (py_str fmt (snd vs))) in
  if (negb (nonempty ext_value) || negb (nonempty ledger_value))%bool then None
  else if String.eqb ext_value ledger_value then Some 1%Q
       else Some (ratio ext_value ledger_value).

Definition Qsum (l : list Q) : Q := fold_right Qplus 0%Q l.

(** [ratio a b] is [difflib.SequenceMatcher(None, a, b).ratio()]. *)
Definition _calculate_metadata_similarity (ratio : string -> string -> Q)
           (fmt : Fmt) (external_txn : ExternalTxn) (ledger_txn : LedgerTxn) : Q :=
  let similarity_scores : list Q :=
    match description external_txn, ledger_description ledger_txn with
    | Some (String c d), Some (String c' d') =>
        [ratio (strip (lower (String c d))) (strip (lower (String c' d')))]
    | _, _ => []
    end in
  let common := map_zip (ext_metadata external_txn) (metadata ledger_txn) in
  let similarity_scores :=
    (similarity_scores
       ++ omap (fun kv => field_similarity ratio fmt (snd kv)) (map_to_list common))%list in
  let ref_similarity := _compare_transaction_references fmt external_txn ledger_txn in
  let similarity_scores :=
    if py_gt (NFloat ref_similarity) (NInt 0)
    then (similarity_scores ++ [ref_similarity])%list else similarity_scores in
  match similarity_scores with
  | _ :: _ =>
      let weighted_sum := Qsum (map (fun score => score * score)%Q similarity_scores) in
      let weight_sum := Qsum similarity_scores in
      if py_gt (NFloat weight_sum) (NInt 0) then (weighted_sum / weight_sum)%Q else 0%Q
  | [] => 1 # 2
  end.

(** [weights[key]] *)
Definition weight (cfg : ReconSettings) (key : string) : result num :=
  match fuzzy_weights cfg !! key with
  | Some w => ret (NFloat w)
  | None => raise (KeyError ("'" ++ key ++ "'"))
  end.

Definition _calculate_match_score (ratio : string -> string -> Q) (fmt : Fmt)
           (cfg : ReconSettings) (external_txn : ExternalTxn)
           (ledger_txn : LedgerTxn) : result num :=
  amount_score ← _calculate_amount_similarity cfg (ext_amount external_txn)
                   (amount ledger_txn);
  timestamp_score ← _calculate_timestamp_similarity cfg (ext_timestamp external_txn)
                      (timestamp ledger_txn);
  let metadata_score :=
    NFloat (_calculate_metadata_similarity ratio fmt external_txn ledger_txn) in
  let currency_score :=
    NFloat (if String.eqb (ext_currency external_txn) (currency ledger_txn)
            then 1 else 0) in
  w_a ← weight cfg "amount";
  t_a ← py_mul amount_score w_a;
  w_t ← weight cfg "timestamp";
  t_t ← py_mul timestamp_score w_t;
  partial ← py_add t_a t_t;
  w_m ← weight cfg "metadata";
  t_m ← py_mul metadata_score w_m;
  total ← py_add partial t_m;
  py_mul total currency_score.

(** The loop of [match]: the best candidate so far and its score. *)
Fixpoint best_of (ratio : string -> string -> Q) (fmt : Fmt) (cfg : ReconSettings)
         (external_txn : ExternalTxn) (ledger_txns : list LedgerTxn)
         (best_match : option LedgerTxn) (best_score : num)
  : result (option LedgerTxn * num) :=
  match ledger_txns with
  | [] => ret (best_match, best_score)
  | ledger_txn :: rest =>
      score ← _calculate_match_score ratio fmt cfg external_txn ledger_txn;
      if py_gt score best_score
      then best_of ratio fmt cfg external_txn rest (Some ledger_txn) score
      else best_of ratio fmt cfg external_txn rest best_match best_score
  end.

Definition match_ (ratio : string -> string -> Q) (fmt : Fmt) (cfg : ReconSettings)
           (external_txn : ExternalTxn) (ledger_txns : list LedgerTxn)
  : result MatchResult :=
  best ← best_of ratio fmt cfg external_txn ledger_txns None (NFloat 0);
  let best_match := fst best in
  let best_score := snd best in
  if py_ge best_score (NFloat (min_match_score cfg)) then
    ret (BaseMatcher._create_match_result class_name external_txn best_match
           true (qval best_score) None)
  else
    ret (BaseMatcher._create_match_result class_name external_txn best_match
           false (qval best_score)
           (Some ("Best match score " ++ fmt_3f fmt (qval best_score)
                  ++ " below threshold " ++ str_float fmt (min_match_score cfg)))).
End FuzzyMatcher.


(* ---------------------------------------------------------------- *)
(** *** The journal ([recon/recon_logger.py])                         *)
(* ---------------------------------------------------------------- *)

Record ReconJob : Type := {
  job_id : UUID;
  job_date : Z;
  job_source_name : string;
  job_status : ReconStatus;
  total_external_txns : nat;
  total_ledger_txns : nat;
  matched_count : nat;
  unmatched_count : nat;
  error_message : option string;
  started_at : option Z;
  completed_at : option Z
}.

Record ReconLog : Type := {
  recon_date : Z;
  log_source_name : string;
  log_external_txn_id : string;
  log_ledger_txn_id : option UUID;
  log_matched : bool;
  log_mismatch_reason : option string;
  log_match_score : Q;
  amount_difference : Q;
  ledger_amount : pyval;
  external_amount : pyval;
  log_currency : pyval;
  log_timestamp_diff_seconds : Z;
  log_metadata : gmap string pyval;
  log_created_at : Z
}.

(** [recon_jobs] is unique on (job_date, source_name); [recon_logs]
    is append-only. *)
Record Journal : Type := {
  recon_jobs : gmap (Z * string) ReconJob;
  recon_logs : list ReconLog
}.

Definition empty_journal : Journal := {| recon_jobs := ∅; recon_logs := [] |}.

(** [d.get(key)]: the value, or [None] when the key is missing. *)
Definition dict_get (d : gmap string pyval) (key : string) : pyval :=
  default PNone (d !! key).

Module ReconLogger.
Definition create_job (job_date : Z) (source_name : string) : M Journal UUID :=
  new_id ← fresh_uuid;
  _ ← db_call;
  t ← now;
  j ← get_db;
  let row :=
    match recon_jobs j !! (job_date, source_name) with
    | Some old =>
        {| job_id := job_id old;
           job_date := job_date;
           job_source_name := source_name;
           job_status := RUNNING;
           total_external_txns := total_external_txns old;
           total_ledger_txns := total_ledger_txns old;
           matched_count := matched_count old;
           unmatched_count := unmatched_count old;
           error_message := error_message old;
           started_at := Some t;
           completed_at := completed_at old |}
    | None =>
        {| job_id := new_id;
           job_date := job_date;
           job_source_name := source_name;
           job_status := RUNNING;
           total_external_txns := 0;
           total_ledger_txns := 0;
           matched_count := 0;
           unmatched_count := 0;
           error_message := None;
           started_at := Some t;
           completed_at := None |}
    end in
  _ ← put_db {| recon_jobs := <[(job_date, source_name) := row]> (recon_jobs j);
                recon_logs := recon_logs j |};
  mret (job_id row).

(** UPDATE recon_jobs SET ... WHERE id = $1 *)
Definition finalize_job (the_job : UUID) (matched unmatched : nat)
           (total_external total_ledger : nat) (status : ReconStatus)
           (message : option string) : M Journal unit :=
  _ ← db_call;
  t ← now;
  j ← get_db;
  let update (row : ReconJob) : ReconJob :=
    if N.eqb (job_id row) the_job then
      {| job_id := job_id row;
         job_date := job_date row;
         job_source_name := job_source_name row;
         job_status := status;
         total_external_txns := total_external;
         total_ledger_txns := total_ledger;
         matched_count := matched;
         unmatched_count := unmatched;
         error_message := message;
         started_at := started_at row;
         completed_at := Some t |}
    else row in
  put_db {| recon_jobs := update <$> recon_jobs j; recon_logs := recon_logs j |}.

(** The row that [log_result] inserts. *)
Definition log_row (job_date : Z) (source_name : string) (result : MatchResult)
           (t : Z) : ReconLog :=
  let metadata := mr_metadata result in
  let ledger_amount := dict_get metadata "ledger_amount" in
  let external_amount := dict_get metadata "external_amount" in
  let currency := dict_get metadata "currency" in
  {| recon_date := job_date;
     log_source_name := source_name;
     log_external_txn_id := external_txn_id result;
     log_ledger_txn_id := ledger_txn_id result;
     log_matched := matched result;
     log_mismatch_reason := mismatch_reason result;
     log_match_score := match_score result;
     amount_difference := amount_diff result;
     ledger_amount := ledger_amount;
     external_amount := external_amount;
     log_currency := currency;
     log_timestamp_diff_seconds := timestamp_diff_seconds result;
     log_metadata := metadata;
     log_created_at := t |}.

Definition log_result (job_date : Z) (source_name : string)
           (result : MatchResult) : M Journal unit :=
  _ ← db_call;
  t ← now;
  j ← get_db;
  put_db {| recon_jobs := recon_jobs j;
            recon_logs := (recon_logs j ++ [log_row job_date source_name result t])%list |}.
End ReconLogger.

(* ---------------------------------------------------------------- *)
(** *** The orchestrator ([recon/recon_engine.py])                    *)
(* ---------------------------------------------------------------- *)

(** The collaborators of [run]: the source readers and the ledger
    reader, each by what a call returns or raises. *)
Record Sources : Type := {
  read_from_file : string -> string -> result (list ExternalTxn);
  fetch_transactions : string -> option string -> Z -> result (list ExternalTxn);
  fetch_settlements : string -> option string -> Z -> result (list ExternalTxn);
  get_transactions_for_date : Z -> result (list LedgerTxn)
}.

(** The keyword arguments of [run]. *)
Record kwargs : Type := {
  file_path : option string;
  base_url : option string;
  auth_token : option string
}.

Module ReconEngine.
Definition _load_external_transactions (env : Sources) (source_name : string)
           (target_date : Z) (kw : kwargs) : result (list ExternalTxn) :=
  if (String.eqb source_name "csv" || String.eqb source_name "bank_csv")%bool then
    match file_path kw with
    | Some (String c p) => read_from_file env source_name (String c p)
    | _ => raise (ValueError ("file_path required for " ++ source_name ++ " source"))
    end
  else if String.eqb source_name "api" then
    match base_url kw with
    | Some (String c u) => fetch_transactions env (String c u) (auth_token kw) target_date
    | _ => raise (ValueError "base_url required for API source")
    end
  else if String.eqb source_name "payment_processor" then
    match base_url kw with
    | Some (String c u) => fetch_settlements env (String c u) (auth_token kw) target_date
    | _ => raise (ValueError "base_url required for payment processor source")
    end
  else raise (ValueError ("Unknown source: " ++ source_name)).

Definition _match_transaction (ratio : string -> string -> Q) (fmt : Fmt)
           (cfg : ReconSettings) (external_txn : ExternalTxn)
           (ledger_txns : list LedgerTxn) : result MatchResult :=
  let currency_filtered :=
    List.filter (fun txn => String.eqb (currency txn) (ext_currency external_txn))
                ledger_txns in
  match currency_filtered with
  | [] =>
      ret {| matched := false;
             match_score := 0;
             mismatch_reason :=
               Some ("No ledger transactions found for currency "
                     ++ ext_currency external_txn);
             ledger_txn_id := None;
             external_txn_id := txn_id external_txn;
             amount_diff := 0;
             timestamp_diff_seconds := 0;
             mr_metadata := ∅ |}
  | _ :: _ =>
      let exact_result := ExactMatcher.match_ fmt cfg external_txn currency_filtered in
      if matched exact_result then ret exact_result
      else
        fuzzy_result ← FuzzyMatcher.match_ ratio fmt cfg external_txn currency_filtered;
        if py_gt (NFloat (match_score fuzzy_result)) (NFloat (match_score exact_result))
        then ret fuzzy_result
        else ret exact_result
  end.

Definition _enhance_match_result (fmt : Fmt) (match_result : MatchResult)
           (external_txn : ExternalTxn) (ledger_txns : list LedgerTxn) : MatchResult :=
  let matched_ledger_txn :=
    match ledger_txn_id match_result with
    | Some wanted => List.find (fun txn => N.eqb (id txn) wanted) ledger_txns
    | None => None
    end in
  let enhanced_metadata :=
    <["external_description" := opt_str (description external_txn)]>
      (<["external_timestamp" := PStr (isoformat fmt (ext_timestamp external_txn))]>
         (<["external_currency" := PStr (ext_currency external_txn)]>
            (<["external_amount" := PFloat (ext_amount external_txn)]>
               (mr_metadata match_result)))) in
  let enhanced_metadata :=
    match matched_ledger_txn with
    | Some l =>
        <["ledger_event_type" := PStr (event_type l)]>
          (<["ledger_timestamp" := PStr (isoformat fmt (timestamp l))]>
             (<["ledger_currency" := PStr (currency l)]>
                (<["ledger_amount" := PFloat (amount l)]> enhanced_metadata)))
    | None => enhanced_metadata
    end in
  {| matched := matched match_result;
     match_score := match_score match_result;
     mismatch_reason := mismatch_reason match_result;
     ledger_txn_id := ledger_txn_id match_result;
     external_txn_id := external_txn_id match_result;
     amount_diff := amount_diff match_result;
     timestamp_diff_seconds := timestamp_diff_seconds match_result;
     mr_metadata := enhanced_metadata |}.

(** The result logged for a row whose processing raised [e]. *)
Definition failed_result (external_txn : ExternalTxn) (e : exn) : MatchResult :=
  {| matched := false;
     match_score := 0;
     mismatch_reason := Some ("Processing error: " ++ str_exn e);
     ledger_txn_id := None;
     external_txn_id := txn_id external_txn;
     amount_diff := 0;
     timestamp_diff_seconds := 0;
     mr_metadata := ∅ |}.

(** One iteration of the loop of [run], on the two counters. *)
Definition process (ratio : string -> string -> Q) (fmt : Fmt) (cfg : ReconSettings)
           (target_date : Z) (source_name : string) (ledger_txns : list LedgerTxn)
           (counts : nat * nat) (external_txn : ExternalTxn) : M Journal (nat * nat) :=
  let '(matched_count, unmatched_count) := counts in
  try_except
    (match_result ← lift (_match_transaction ratio fmt cfg external_txn ledger_txns);
     let enhanced_result :=
       _enhance_match_result fmt match_result external_txn ledger_txns in
     _ ← ReconLogger.log_result target_date source_name enhanced_result;
     if matched enhanced_result
     then mret (S matched_count, unmatched_count)
     else mret (matched_count, S unmatched_count))
    (fun e =>
       let unmatched_count := S unmatched_count in
       _ ← ReconLogger.log_result target_date source_name (failed_result external_txn e);
       mret (matched_count, unmatched_count)).

Fixpoint process_all (ratio : string -> string -> Q) (fmt : Fmt) (cfg : ReconSettings)
         (target_date : Z) (source_name : string) (ledger_txns : list LedgerTxn)
         (counts : nat * nat) (external_txns : list ExternalTxn)
  : M Journal (nat * nat) :=
  match external_txns with
  | [] => mret counts
  | external_txn :: rest =>
      counts ← process ratio fmt cfg target_date source_name ledger_txns counts
                 external_txn;
      process_all ratio fmt cfg target_date source_name ledger_txns counts rest
  end.

Definition run (ratio : string -> string -> Q) (fmt : Fmt) (cfg : ReconSettings)
           (env : Sources) (target_date : Z) (source_name : string) (kw : kwargs)
  : M Journal UUID :=
  the_job ← ReconLogger.create_job target_date source_name;
  try_except
    (external_txns ← lift (_load_external_transactions env source_name target_date kw);
     ledger_txns ← lift (get_transactions_for_date env target_date);
     counts ← process_all ratio fmt cfg target_date source_name ledger_txns (0, 0)%nat
                external_txns;
     _ ← ReconLogger.finalize_job the_job (fst counts) (snd counts)
           (length external_txns) (length ledger_txns) COMPLETED None;
     mret the_job)
    (fun e =>
       _ ← ReconLogger.finalize_job the_job 0 0 0 0 FAILED (Some (str_exn e));
       throw e).
End ReconEngine.

(* ---------------------------------------------------------------- *)
(** *** What a run is expected to log                                 *)
(* ---------------------------------------------------------------- *)

(** The result that the loop of [run] logs for one external
    transaction when the journal accepts the row. *)
Definition row_result (ratio : string -> string -> Q) (fmt : Fmt) (cfg : ReconSettings)
           (ledger_txns : list LedgerTxn) (external_txn : ExternalTxn) : MatchResult :=
  match ReconEngine._match_transaction ratio fmt cfg external_txn ledger_txns with
  | inr match_result =>
      ReconEngine._enhance_match_result fmt match_result external_txn ledger_txns
  | inl e => ReconEngine.failed_result external_txn e
  end.

(** The decision criteria of the exact matcher, as propositions. *)
Definition cross_referenced (fmt : Fmt) (external_txn : ExternalTxn)
           (ledger_txn : LedgerTxn) : Prop :=
  metadata ledger_txn !! "external_txn_id" = Some (PStr (txn_id external_txn))
  \/ ext_metadata external_txn !! "ledger_txn_id"
     = Some (PStr (str_uuid fmt (id ledger_txn))).

Definition within_tolerance (cfg : ReconSettings) (external_txn : ExternalTxn)
           (ledger_txn : LedgerTxn) : Prop :=
  Z.abs (timestamp ledger_txn - ext_timestamp external_txn)
  <= timestamp_tolerance_seconds cfg * 1000000.

Definition exact_candidate (cfg : ReconSettings) (external_txn : ExternalTxn)
           (ledger_txn : LedgerTxn) : Prop :=
  (amount ledger_txn == ext_amount external_txn)%Q
  /\ currency ledger_txn = ext_currency external_txn
  /\ within_tolerance cfg external_txn ledger_txn.

(** The timestamp similarity as the specification words it, for a
    difference of [d] seconds and a tolerance of [T] seconds. *)
Definition time_sim (T d : Q) : Q :=
  (if Qle_bool d T then 1 - (1 # 2) * (d / T)
   else
     let M := 10 * T in
     if Qle_bool d M then (1 # 2) * (1 - (d - T) / (M - T)) else 0)%Q.

Definition count_matched (rows : list ReconLog) : nat :=
  length (List.filter log_matched rows).

Definition count_unmatched (rows : list ReconLog) : nat :=
  length (List.filter (fun row => negb (log_matched row)) rows).

(** A world whose storage calls all succeed. *)
Definition quiet (j : Journal) (n : N) (t : Z) : World Journal :=
  {| store := j; next_uuid := n; clock := t; faults := [] |}.

(** The rows that a run logs for [xs] in such a world. *)
Definition rows_of (ratio : string -> string -> Q) (fmt : Fmt) (cfg : ReconSettings)
           (d : Z) (s : string) (ledger : list LedgerTxn) (t : Z)
           (xs : list ExternalTxn) : list ReconLog :=
  map (fun x => ReconLogger.log_row d s (row_result ratio fmt cfg ledger x) t) xs.

(** [w'] has the log of [w] followed by rows that all satisfy [P]. *)
Definition only_adds (P : ReconLog -> Prop) (w w' : World Journal) : Prop :=
  exists rows, recon_logs (store w') = (recon_logs (store w) ++ rows)%list
               /\ Forall P rows.

Definition null_currency (row : ReconLog) : Prop := log_currency row = PNone.

Definition unit_interval (q : Q) : Prop := (0 <= q <= 1)%Q.

End Recon.

(* ================================================================== *)
(** ** Concrete scenarios                                              *)
(* ================================================================== *)

Module Scenarios.
Import Py Storage.

(** Renderings used where a scenario needs them computed. *)
Definition plain_fmt : Fmt :=
  {| str_decimal := fun _ => "<decimal>";
     str_float := fun _ => "<float>";
     fmt_3f := fun _ => "<float>";
     str_uuid := fun _ => "<uuid>";
     isoformat := fun _ => "<datetime>" |}.

(** The ledger with the single account of Alice, id 0. *)
Definition alice : Ledger.AccountCreate :=
  {| Ledger.ac_currency := "USD";
     Ledger.ac_type := "user";
     Ledger.ac_metadata := <["name" := PStr "Alice"]> ∅ |}.

Definition alice_world (fmt : Fmt) : Ledger.World :=
  Ledger.run fmt Ledger.settings [Ledger.CreateAccount alice]
    (init_world Ledger.empty_db 0 []).

(** S3: Alice sends 10 USD to herself. *)
Definition alice_to_alice : Ledger.TransferRequest :=
  {| Ledger.tr_source_account_id := 0%N;
     Ledger.tr_destination_account_id := 0%N;
     Ledger.tr_amount := 10;
     Ledger.tr_currency := "USD";
     Ledger.tr_metadata := Some ∅ |}.

(** A world whose second storage call raises. *)
Definition second_call_fails : Ledger.World :=
  init_world Ledger.empty_db 0 [false; true].

(** Reconciliation: USD transactions without description or metadata. *)
Definition external (name : string) (amount : Q) (seconds : Z) : Recon.ExternalTxn :=
  {| Recon.txn_id := name;
     Recon.ext_amount := amount;
     Recon.ext_currency := "USD";
     Recon.ext_timestamp := seconds * 1000000;
     Recon.description := None;
     Recon.ext_metadata := ∅ |}.

Definition ledger (cur : string) (n : N) (amount : Q) (seconds : Z) : Recon.LedgerTxn :=
  {| Recon.id := n;
     Recon.transaction_id := (n + 1000)%N;
     Recon.amount := amount;
     Recon.currency := cur;
     Recon.timestamp := seconds * 1000000;
     Recon.event_type := "CREDIT";
     Recon.source_account_id := None;
     Recon.destination_account_id := Some 7%N;
     Recon.metadata := ∅ |}.

(** A string similarity that finds nothing in common. *)
Definition no_ratio (a b : string) : Q := 0.

(** S4: two ledger transactions of 100.00 USD within five minutes. *)
Definition s4_external : Recon.ExternalTxn := external "X" 100 0.
Definition s4_ledger : list Recon.LedgerTxn :=
  [ledger "USD" 1 100 60; ledger "USD" 2 100 120].

(** An external 100.05 USD against a ledger 100.00, in USD and in EUR,
    and an external 200.00 USD against a ledger 100.00 USD. *)
Definition near_external : Recon.ExternalTxn := external "N" (10005 # 100) 0.
Definition far_external : Recon.ExternalTxn := external "F" 200 0.
Definition usd_100 : Recon.LedgerTxn := ledger "USD" 1 100 0.
Definition eur_100 : Recon.LedgerTxn := ledger "EUR" 2 100 0.

(** A CSV source with three rows, the second of which the fuzzy
    matcher cannot score, and the ledger of the day. *)
Definition three_rows : Recon.Sources :=
  {| Recon.read_from_file := fun _ _ =>
       inr [external "A" 100 0; near_external; external "C" 70 0];
     Recon.fetch_transactions := fun _ _ _ => inr [];
     Recon.fetch_settlements := fun _ _ _ => inr [];
     Recon.get_transactions_for_date := fun _ => inr [usd_100] |}.

Definition csv_file : Recon.kwargs :=
  {| Recon.file_path := Some "statement.csv";
     Recon.base_url := None;
     Recon.auth_token := None |}.

End Scenarios.

(* ================================================================== *)
(** ** What a route answers                                            *)
(* ================================================================== *)

Module Http.
Import Py.

(** The detail of an [HTTPException]: a text, or a message with a list
    of errors. *)
Inductive detail : Type :=
| Text (s : string)
| MessageErrors (message : string) (errors : list string).

(** What a route answers: the body of a 200, or the status and the
    detail of an [HTTPException]. *)
Inductive response (A : Type) : Type :=
| Ok200 (body : A)
| HTTPException (status_code : Z) (d : detail).
Arguments Ok200 {A} _.
Arguments HTTPException {A} _ _.

(** What the body of a route raises: an [HTTPException] of its own or
    any other exception. Both are instances of [Exception]. *)
Inductive raised : Type :=
| Http (status_code : Z) (d : string)
| Exn (e : exn).

(** [str(e)] for either; [str_http] renders an [HTTPException]. *)
Definition str_raised (str_http : Z -> string -> string) (r : raised) : string :=
  match r with
  | Http c d => str_http c d
  | Exn e => str_exn e
  end.

End Http.

(* ================================================================== *)
(** ** The ledger: reads, HTTP routes and measures of a store          *)
(* ================================================================== *)

Module LedgerApi.
Import Py Storage Ledger Http.

(** [LedgerService.get_account_balance] *)
Definition get_account_balance (account_id : UUID) : M Balance :=
  balance ← BalanceRepository.get_balance account_id;
  match balance with
  | None => throw (ValueError "Account not found or balance not initialized")
  | Some b => mret b
  end.

(** The body of a successful [POST /ledger/transfer/]. *)
Record TransferBody : Type := {
  body_message : string;
  body_transaction_id : UUID;
  events_created : nat
}.

(** [api/routes/transfers.py], [transfer_funds]: a refused transfer is
    a 400 carrying the errors, an exception a 500 carrying [str(e)]. *)
Definition transfer_route (fmt : Fmt) (cfg : Settings) (transfer : TransferRequest)
  : World -> response TransferBody * World :=
  fun w =>
    match LedgerService.transfer_funds fmt cfg transfer w with
    | (inr (TransferFailed errs), w') =>
        (HTTPException 400 (MessageErrors "Transfer failed" errs), w')
    | (inr (TransferOk tid events _), w') =>
        (Ok200 {| body_message := "Transfer successful";
                  body_transaction_id := tid;
                  events_created := length events |}, w')
    | (inl e, w') => (HTTPException 500 (Text (str_exn e)), w')
    end.

(** [api/routes/accounts.py], [create_account]: any exception is a 400
    carrying [str(e)]. *)
Definition create_route (account_data : AccountCreate) : World -> response Account * World :=
  fun w =>
    match LedgerService.create_account account_data w with
    | (inr acc, w') => (Ok200 acc, w')
    | (inl e, w') => (HTTPException 400 (Text (str_exn e)), w')
    end.

(** [api/routes/accounts.py], [get_account_balance]: a [ValueError] is
    a 404, any other exception a 500. *)
Definition balance_route (account_id : UUID) : World -> response Balance * World :=
  fun w =>
    match get_account_balance account_id w with
    | (inr b, w') => (Ok200 b, w')
    | (inl (ValueError m), w') => (HTTPException 404 (Text m), w')
    | (inl e, w') => (HTTPException 500 (Text (str_exn e)), w')
    end.

(** A world in which no storage call raises any more. *)
Definition quieted (w : World) : World :=
  {| store := store w; next_uuid := next_uuid w; clock := clock w; faults := [] |}.

(** Is the source able to pay? The check of [validate_sufficient_funds]. *)
Definition funded (cfg : Settings) (db : DB) (t : TransferRequest) : bool :=
  (allow_overdraft cfg
   || match balances db !! tr_source_account_id t with
      | Some b => Qle_bool (tr_amount t) (available_balance b)
      | None => false
      end)%bool.

(** Σ CREDIT amounts to [a] minus Σ DEBIT amounts from [a], over any
    events, whatever their status. *)
Definition net_delta (a : UUID) (events : list LedgerEvent) : Q :=
  (Qsum (map amount
           (List.filter (fun e => is_credit e && opt_is (destination_account_id e) a)%bool
                        events))
   - Qsum (map amount
             (List.filter (fun e => is_debit e && opt_is (source_account_id e) a)%bool
                          events)))%Q.

Definition stored_pending (db : DB) (a : UUID) : Q :=
  match balances db !! a with
  | Some b => pending_balance b
  | None => 0%Q
  end.

(** The sum of all available balances of a store. *)
Definition total_available (db : DB) : Q :=
  Qsum (map (fun kv => available_balance (snd kv)) (map_to_list (balances db))).

(** The entry of [k] in a [balance_updates] dict, and its delta. *)
Definition entry_of (k : UUID) (updates : list (UUID * balance_update))
  : option (UUID * balance_update) :=
  List.find (fun kv => N.eqb (fst kv) k) updates.

Definition delta_of (k : UUID) (updates : list (UUID * balance_update)) : Q :=
  match entry_of k updates with
  | Some kv => available_delta (snd kv)
  | None => 0%Q
  end.

(** Does the event move the balance of [a]? *)
Definition moves (a : UUID) (e : LedgerEvent) : bool :=
  ((is_credit e && opt_is (destination_account_id e) a)
   || (is_debit e && opt_is (source_account_id e) a))%bool.

(** The currencies of accounts, balance rows and events agree. *)
Definition currencies_agree (db : DB) : Prop :=
  (forall a b acc, balances db !! a = Some b -> accounts db !! a = Some acc ->
                   bal_currency b = acc_currency acc)
  /\ (forall e a, In e (ledger_events db) ->
                  source_account_id e = Some a \/ destination_account_id e = Some a ->
                  exists acc, accounts db !! a = Some acc /\ acc_currency acc = currency e).

(** A balance row may only be replaced by a newer version of itself. *)
Definition rows_advance (db db' : DB) : Prop :=
  forall a b, balances db !! a = Some b ->
              exists b', balances db' !! a = Some b'
                         /\ bal_currency b' = bal_currency b
                         /\ version b <= version b'
                         /\ (version b' = version b -> b' = b).

(** Does some event of the list move the balance of [a]? *)
Definition touched (a : UUID) (events : list LedgerEvent) : bool :=
  existsb (moves a) events.

(** [scripts/seed_script.py]: the accounts of Alice, of Bob and of the
    internal float, which in a ledger that starts empty get the ids
    0, 1 and 2, and then three transfers: 500 from the float to
    Alice, 100 from Alice to Bob and 50 from Bob back to Alice. *)
Definition seed_account (type name : string) : op :=
  CreateAccount {| ac_currency := "USD";
                   ac_type := type;
                   ac_metadata := <["name" := PStr name]> ∅ |}.

Definition seed_transfer (source destination : UUID) (amount : Q) (text : string) : op :=
  Transfer {| tr_source_account_id := source;
              tr_destination_account_id := destination;
              tr_amount := amount;
              tr_currency := "USD";
              tr_metadata := Some (<["description" := PStr text]> ∅) |}.

Definition seed_data : list op :=
  [seed_account "user" "Alice";
   seed_account "user" "Bob";
   seed_account "internal" "Internal Float";
   seed_transfer 2 0 500 "Initial funding for Alice";
   seed_transfer 0 1 100 "Payment from Alice to Bob";
   seed_transfer 1 0 50 "Refund from Bob to Alice"].

(** Did the call record a transfer? *)
Definition succeeded (out : result TransferResult * World) : bool :=
  match fst out with
  | inr r => success r
  | inl _ => false
  end.

End LedgerApi.

(* ================================================================== *)
(** ** Reconciliation: the CSV sources ([sources/csv_reader.py])       *)
(* ================================================================== *)

Module ReconSources.
Import Py.

(** A row as [csv.DictReader] yields it: a value for every field name
    of the header, which is [None] where the line has fewer cells
    than the header, and the surplus cells of a longer line as a
    list under the key [None] ([overflow]). *)
Record Row : Type := {
  cells : gmap string (option string);
  overflow : bool
}.

(** A [Decimal]: a number, an infinity, or a NaN, quiet or
    signaling. *)
Inductive decimal : Type :=
| Finite (q : Q)
| Infinity (negative : bool)
| NaN (signaling : bool).

(** An [ExternalTxn] as a reader builds it. The validation of the
    model takes a [Decimal] as it is, so the amount may be any
    [Decimal]; [Recon.ExternalTxn] holds those with a finite amount. *)
Record ExternalTxn : Type := {
  txn_id : string;
  amount : decimal;
  currency : string;
  timestamp : Z;
  description : option string;
  metadata : gmap string pyval
}.

(** What the readers call outside this repository, and the renderings
    that the model does not compute. [invalid_operation] is what the
    [decimal] module raises for an operation on a signaling NaN. *)
Record Parsers : Type := {
  parse : string -> result Z;
  Decimal : string -> result decimal;
  invalid_operation : exn;
  str_int : Z -> string;
  repr_list : list string -> string;
  not_iterable : string
}.

(** ASCII part of [str.upper()]. *)
Definition upper_ascii (c : ascii) : ascii :=
  let n := nat_of_ascii c in
  if (Nat.leb 97 n && Nat.leb n 122)%bool then ascii_of_nat (n - 32) else c.

Fixpoint upper (s : string) : string :=
  match s with
  | EmptyString => EmptyString
  | String c s' => String (upper_ascii c) (upper s')
  end.

(** [s.replace(c, '')] for a character [c]. *)
Fixpoint remove (c : ascii) (s : string) : string :=
  match s with
  | EmptyString => EmptyString
  | String x s' => if Ascii.eqb x c then remove c s' else String x (remove c s')
  end.

(** [s.strip().replace('$', '').replace(',', '')] *)
Definition amount_text (s : string) : string := remove "," (remove "$" (strip s)).

(** [row[key]] *)
Definition getitem (row : Row) (key : string) : result (option string) :=
  match cells row !! key with
  | Some v => ret v
  | None => raise (KeyError ("'" ++ key ++ "'"))
  end.

(** [v.strip()] for a value that may be [None]. *)
Definition strip_ (v : option string) : result string :=
  match v with
  | Some s => ret (strip s)
  | None => raise (AttributeError "'NoneType' object has no attribute 'strip'")
  end.

(** [row.get('description', '').strip() or None] *)
Definition description_of (row : Row) : result (option string) :=
  s ← strip_ (default (Some "") (cells row !! "description"));
  ret (if Recon.nonempty s then Some s else None).

(** [abs(d)]: the sign is dropped; a signaling NaN raises. As for all
    numbers of the model, the rounding to the precision of the
    context is not modelled. *)
Definition abs_decimal (env : Parsers) (d : decimal) : result decimal :=
  match d with
  | Finite q => ret (Finite (Qabs q))
  | Infinity _ => ret (Infinity false)
  | NaN false => ret (NaN false)
  | NaN true => raise (invalid_operation env)
  end.

(** [try: ... except Exception as e: raise ValueError(prefix + str(e))] *)
Definition rewrap {A} (prefix : string) (body : result A) : result A :=
  match body with
  | inr a => inr a
  | inl e => inl (ValueError (prefix ++ str_exn e))
  end.

Definition py_in (x : string) (l : list string) : bool := existsb (String.eqb x) l.

Module CSVReader.
Definition required_columns : list string := ["txn_id"; "amount"; "currency"; "timestamp"].

(** The loop of [_validate_headers]. *)
Fixpoint missing_columns (env : Parsers) (required : list string)
         (headers : option (list string)) : result (list string) :=
  match required with
  | [] => ret []
  | r :: rest =>
      match headers with
      | None => raise (TypeError (not_iterable env))
      | Some hs =>
          more ← missing_columns env rest headers;
          ret (if negb (py_in r hs) then r :: more else more)
      end
  end.

Definition _validate_headers (env : Parsers) (required : list string)
           (headers : option (list string)) : result unit :=
  missing ← missing_columns env required headers;
  match missing with
  | [] => ret tt
  | _ :: _ => raise (ValueError ("Missing required columns: " ++ repr_list env missing))
  end.

(** The value that the metadata loop of [_parse_row] keeps for a
    cell: a string that is not empty, stripped. *)
Definition kept (v : option string) : option pyval :=
  match v with
  | Some (String c s) => Some (PStr (strip (String c s)))
  | _ => None
  end.

(** The metadata loop of [_parse_row]: the columns that are not
    required and hold a non-empty string; the list under the key
    [None] has no [strip]. *)
Definition extra_columns (required : list string) (row : Row)
  : result (gmap string pyval) :=
  if overflow row then raise (AttributeError "'list' object has no attribute 'strip'")
  else ret (omap kept (filter (fun kv => py_in (fst kv) required = false) (cells row))).

Definition _parse_row (env : Parsers) (required : list string) (row : Row)
  : result ExternalTxn :=
  rewrap "Invalid row data: "
    (v ← getitem row "timestamp";
     timestamp_str ← strip_ v;
     timestamp ← parse env timestamp_str;
     v ← getitem row "amount";
     s ← strip_ v;
     let amount_str := remove "," (remove "$" s) in
     amount ← Decimal env amount_str;
     metadata ← extra_columns required row;
     v ← getitem row "txn_id";
     txn_id ← strip_ v;
     v ← getitem row "currency";
     currency ← strip_ v;
     description ← description_of row;
     ret {| txn_id := txn_id;
            amount := amount;
            currency := upper currency;
            timestamp := timestamp;
            description := description;
            metadata := metadata |}).

(** The loop of [read_from_content], for either reader; [row_num]
    is the number given to the first row. *)
Fixpoint parse_rows (env : Parsers) (parse_row : Row -> result ExternalTxn)
         (row_num : Z) (rows : list Row) : result (list ExternalTxn) :=
  match rows with
  | [] => ret []
  | row :: rest =>
      match parse_row row with
      | inr txn =>
          transactions ← parse_rows env parse_row (row_num + 1) rest;
          ret (txn :: transactions)
      | inl e =>
          raise (ValueError ("Error parsing row " ++ str_int env row_num ++ ": "
                             ++ str_exn e))
      end
  end.

(** [read_from_content] on what [csv.DictReader] makes of the
    content: the field names ([None] for an empty content) and the
    rows. *)
Definition read_from_content (env : Parsers) (headers : option (list string))
           (rows : list Row) : result (list ExternalTxn) :=
  _ ← _validate_headers env required_columns headers;
  parse_rows env (_parse_row env required_columns) 2 rows.
End CSVReader.

Module BankCSVReader.
Definition required_columns : list string :=
  ["transaction_id"; "amount"; "currency"; "date"; "description"].

Definition _parse_row (env : Parsers) (row : Row) : result ExternalTxn :=
  rewrap "Invalid bank CSV row: "
    (v ← getitem row "date";
     date_str ← strip_ v;
     timestamp ← parse env date_str;
     v ← getitem row "amount";
     s ← strip_ v;
     let amount_str := remove "," (remove "$" s) in
     d ← Decimal env amount_str;
     amount ← abs_decimal env d;
     v ← getitem row "transaction_id";
     txn_id ← strip_ v;
     v ← getitem row "currency";
     currency ← strip_ v;
     description ← description_of row;
     ret {| txn_id := txn_id;
            amount := amount;
            currency := upper currency;
            timestamp := timestamp;
            description := description;
            metadata := <["original_amount" := PStr amount_str]>
                          (<["source_format" := PStr "bank_csv"]> ∅) |}).

Definition read_from_content (env : Parsers) (headers : option (list string))
           (rows : list Row) : result (list ExternalTxn) :=
  _ ← CSVReader._validate_headers env required_columns headers;
  CSVReader.parse_rows env (_parse_row env) 2 rows.
End BankCSVReader.

(** A header has the required columns. *)
Definition has_columns (required : list string) (headers : option (list string)) : Prop :=
  exists hs, headers = Some hs /\ Forall (fun r => py_in r hs = true) required.

(** An amount that has no sign: a number that is not negative, the
    positive infinity, or a quiet NaN. *)
Definition unsigned (d : decimal) : Prop :=
  match d with
  | Finite q => (0 <= q)%Q
  | Infinity negative => negative = false
  | NaN signaling => signaling = false
  end.

(** Parsers for the scenarios: a date is read as 0, and a decimal as
    a quiet NaN if its text is "NaN", as -25 if it starts with [-],
    and as 0 otherwise; no signaling NaN is ever read, so
    [invalid_operation] is not raised. *)
Definition toy_parsers : Parsers :=
  {| parse := fun _ => inr 0;
     Decimal := fun s =>
       inr (if String.eqb s "NaN" then NaN false
            else Finite (if String.prefix "-" s then -25 else 0));
     invalid_operation := ValueError "[<class 'decimal.InvalidOperation'>]";
     str_int := fun _ => "<int>";
     repr_list := fun _ => "<list>";
     not_iterable := "argument of type 'NoneType' is not iterable" |}.

(** A line of a bank statement: a debit of 25.00 in lower-case usd. *)
Definition bank_line : Row :=
  {| cells := <["transaction_id" := Some " B1 "]>
                (<["amount" := Some "-$25.00"]>
                   (<["currency" := Some "usd"]>
                      (<["date" := Some "2025-07-13"]>
                         (<["description" := Some "  "]> ∅))));
     overflow := false |}.

End ReconSources.

(* ================================================================== *)
(** ** Reconciliation: journal queries and HTTP routes                 *)
(* ================================================================== *)

Module ReconApi.
Import Py Storage Recon Http.

(** [ReconLogger.update_job_status]:
    UPDATE recon_jobs SET status, error_message WHERE id = $1 *)
Definition update_job_status (the_job : UUID) (status : ReconStatus)
           (message : option string) : M Journal unit :=
  _ ← db_call;
  j ← get_db;
  let update (row : ReconJob) : ReconJob :=
    if N.eqb (job_id row) the_job then
      {| job_id := job_id row;
         job_date := job_date row;
         job_source_name := job_source_name row;
         job_status := status;
         total_external_txns := total_external_txns row;
         total_ledger_txns := total_ledger_txns row;
         matched_count := matched_count row;
         unmatched_count := unmatched_count row;
         error_message := message;
         started_at := started_at row;
         completed_at := completed_at row |}
    else row in
  put_db {| recon_jobs := update <$> recon_jobs j; recon_logs := recon_logs j |}.

(** The row of aggregates that [get_recon_summary] selects. [AVG] and
    [SUM] over no rows are NULL. *)
Record Summary : Type := {
  total_logs : nat;
  sum_matched_count : nat;
  sum_unmatched_count : nat;
  avg_match_score : option Q;
  total_amount_variance : option Q;
  unique_external_txns : nat;
  unique_ledger_txns : nat
}.

(** WHERE recon_date = $1 AND source_name = $2 *)
Definition logged_for (job_date : Z) (source_name : string) (row : ReconLog) : bool :=
  (Z.eqb (recon_date row) job_date && String.eqb (log_source_name row) source_name)%bool.

Definition sql_sum (l : list Q) : option Q :=
  match l with
  | [] => None
  | _ :: _ => Some (FuzzyMatcher.Qsum l)
  end.

Definition sql_avg (l : list Q) : option Q :=
  match l with
  | [] => None
  | _ :: _ => Some (FuzzyMatcher.Qsum l / inject_Z (Z.of_nat (length l)))%Q
  end.

(** [ReconLogger.get_recon_summary]. A SELECT of aggregates without
    GROUP BY yields exactly one row, so that [fetchrow] never gives
    [None]; COUNT(DISTINCT c) counts the distinct values of [c] that
    are not NULL. *)
Definition get_recon_summary (job_date : Z) (source_name : string)
  : M Journal (option Summary) :=
  _ ← db_call;
  j ← get_db;
  let rows := List.filter (logged_for job_date source_name) (recon_logs j) in
  mret (Some {| total_logs := length rows;
                sum_matched_count := length (List.filter log_matched rows);
                sum_unmatched_count :=
                  length (List.filter (fun row => negb (log_matched row)) rows);
                avg_match_score := sql_avg (map log_match_score rows);
                total_amount_variance :=
                  sql_sum (map (fun row => Qabs (amount_difference row)) rows);
                unique_external_txns :=
                  length (remove_dups (map log_external_txn_id rows));
                unique_ledger_txns :=
                  length (remove_dups (omap log_ledger_txn_id rows)) |}).

(** [try: ... except HTTPException: raise
     except Exception as e: raise HTTPException(500, prefix + str(e))] *)
Definition reraising {S A} (prefix : string) (body : World S -> (raised + A) * World S)
  : World S -> response A * World S :=
  fun w =>
    match body w with
    | (inr a, w') => (Ok200 a, w')
    | (inl (Http c d), w') => (HTTPException c (Text d), w')
    | (inl (Exn e), w') => (HTTPException 500 (Text (prefix ++ str_exn e)), w')
    end.

(** [try: ... except Exception as e:
       raise HTTPException(500, prefix + str(e))]: an [HTTPException]
    raised by the body is caught like any other exception. *)
Definition catching {S A} (str_http : Z -> string -> string) (prefix : string)
           (body : World S -> (raised + A) * World S)
  : World S -> response A * World S :=
  fun w =>
    match body w with
    | (inr a, w') => (Ok200 a, w')
    | (inl r, w') => (HTTPException 500 (Text (prefix ++ str_raised str_http r)), w')
    end.

(** [api/routes.py], [ReconSummaryResponse]. *)
Record ReconSummaryResponse : Type := {
  resp_total_logs : nat;
  resp_matched_count : nat;
  resp_unmatched_count : nat;
  match_rate : Q;
  resp_avg_match_score : Q;
  resp_total_amount_variance : Q;
  resp_unique_external_txns : nat;
  resp_unique_ledger_txns : nat
}.

(** [x or 0] for an optional number. *)
Definition or_zero (o : option Q) : Q := default 0%Q o.

(** [api/routes.py], [get_reconciliation_summary]. A summary is a
    dict of seven keys, which is true; [str_date] renders a date. *)
Definition get_reconciliation_summary (str_date : Z -> string)
           (target_date : Z) (source : string)
  : World Journal -> response ReconSummaryResponse * World Journal :=
  reraising "Failed to get reconciliation summary: "
    (fun w =>
       match get_recon_summary target_date source w with
       | (inl e, w') => (inl (Exn e), w')
       | (inr None, w') =>
           (inl (Http 404 ("No reconciliation data found for " ++ str_date target_date
                           ++ " and source " ++ source)), w')
       | (inr (Some summary), w') =>
           let match_rate :=
             if (0 <? total_logs summary)%nat
             then (inject_Z (Z.of_nat (sum_matched_count summary))
                   / inject_Z (Z.of_nat (total_logs summary)))%Q
             else 0%Q in
           (inr {| resp_total_logs := total_logs summary;
                   resp_matched_count := sum_matched_count summary;
                   resp_unmatched_count := sum_unmatched_count summary;
                   match_rate := match_rate;
                   resp_avg_match_score := or_zero (avg_match_score summary);
                   resp_total_amount_variance := or_zero (total_amount_variance summary);
                   resp_unique_external_txns := unique_external_txns summary;
                   resp_unique_ledger_txns := unique_ledger_txns summary |}, w')
       end).

(** [api/routes.py], [RunReconRequest]. *)
Record RunReconRequest : Type := {
  req_date : Z;
  req_source : string;
  req_file_path : option string;
  req_base_url : option string;
  req_auth_token : option string
}.

Record RunReconResponse : Type := {
  resp_job_id : UUID;
  resp_status : string;
  resp_message : string
}.

(** [if request.x: kwargs['x'] = request.x]. In a [kwargs] a field
    that is [None] is a key that is absent. *)
Definition given (o : option string) : option string :=
  if truthy o then o else None.

Definition request_kwargs (request : RunReconRequest) : kwargs :=
  {| file_path := given (req_file_path request);
     base_url := given (req_base_url request);
     auth_token := given (req_auth_token request) |}.

(** The keys of [ReconEngine.source_readers], in insertion order. *)
Definition source_readers : list string := ["csv"; "bank_csv"; "api"; "payment_processor"].

Definition present (o : option string) : bool :=
  match o with Some _ => true | None => false end.

(** [ReconEngine.validate_source_config] *)
Definition validate_source_config (source_name : string) (kw : kwargs) : bool :=
  if negb (ReconSources.py_in source_name source_readers) then false
  else if ReconSources.py_in source_name ["csv"; "bank_csv"] then present (file_path kw)
  else if ReconSources.py_in source_name ["api"; "payment_processor"] then present (base_url kw)
  else true.

(** [api/routes.py], [run_reconciliation]. *)
Definition run_reconciliation (str_http : Z -> string -> string)
           (ratio : string -> string -> Q) (fmt : Fmt) (cfg : ReconSettings)
           (env : Sources) (request : RunReconRequest)
  : World Journal -> response RunReconResponse * World Journal :=
  catching str_http "Failed to start reconciliation: "
    (fun w =>
       let kw := request_kwargs request in
       let is_valid := validate_source_config (req_source request) kw in
       if negb is_valid then
         (inl (Http 400 ("Invalid configuration for source '" ++ req_source request ++ "'")),
          w)
       else
         match ReconEngine.run ratio fmt cfg env (req_date request) (req_source request)
                 kw w with
         | (inl e, w') => (inl (Exn e), w')
         | (inr the_job, w') =>
             (inr {| resp_job_id := the_job;
                     resp_status := "COMPLETED";
                     resp_message := "Reconciliation job completed successfully" |}, w')
         end).

(** [api/routes.py], [cancel_job]; the body is the message. *)
Definition cancel_job (str_http : Z -> string -> string) (fmt : Fmt) (the_job : UUID)
  : World Journal -> response string * World Journal :=
  catching str_http "Failed to cancel job: "
    (fun w =>
       match update_job_status the_job FAILED (Some "Job cancelled by user") w with
       | (inl e, w') => (inl (Exn e), w')
       | (inr _, w') =>
           (inr ("Job " ++ str_uuid fmt the_job ++ " cancelled successfully"), w')
       end).

(** The score that the fuzzy matcher gives a candidate, if it can. *)
Definition score_of (ratio : string -> string -> Q) (fmt : Fmt) (cfg : ReconSettings)
           (external_txn : ExternalTxn) (ledger_txn : LedgerTxn) : option Q :=
  match FuzzyMatcher._calculate_match_score ratio fmt cfg external_txn ledger_txn with
  | inr s => Some (qval s)
  | inl _ => None
  end.

(** Amounts that the amount similarity can compare: equal ones, and
    opposite ones (their average is zero). *)
Definition comparable (external_txn : ExternalTxn) (ledger_txn : LedgerTxn) : Prop :=
  (ext_amount external_txn == amount ledger_txn)%Q
  \/ (ext_amount external_txn + amount ledger_txn == 0)%Q.

(** The row that [create_job] leaves for (job_date, source_name): the
    row that was there keeps its id, its counters and its completion. *)
Definition started_row (j : Journal) (job_date : Z) (source_name : string)
           (new_id : UUID) (t : Z) : ReconJob :=
  match recon_jobs j !! (job_date, source_name) with
  | Some old =>
      {| job_id := job_id old;
         job_date := job_date;
         job_source_name := source_name;
         job_status := RUNNING;
         total_external_txns := total_external_txns old;
         total_ledger_txns := total_ledger_txns old;
         matched_count := matched_count old;
         unmatched_count := unmatched_count old;
         error_message := error_message old;
         started_at := Some t;
         completed_at := completed_at old |}
  | None =>
      {| job_id := new_id;
         job_date := job_date;
         job_source_name := source_name;
         job_status := RUNNING;
         total_external_txns := 0;
         total_ledger_txns := 0;
         matched_count := 0;
         unmatched_count := 0;
         error_message := None;
         started_at := Some t;
         completed_at := None |}
  end.

(** What [finalize_job] does to a row. *)
Definition finalized_row (the_job : UUID) (matched unmatched : nat)
           (total_external total_ledger : nat) (status : ReconStatus)
           (message : option string) (t : Z) (row : ReconJob) : ReconJob :=
  if N.eqb (job_id row) the_job then
    {| job_id := job_id row;
       job_date := job_date row;
       job_source_name := job_source_name row;
       job_status := status;
       total_external_txns := total_external;
       total_ledger_txns := total_ledger;
       matched_count := matched;
       unmatched_count := unmatched;
       error_message := message;
       started_at := started_at row;
       completed_at := Some t |}
  else row.

(** The ledger transactions in the currency of the external one. *)
Definition currency_filtered (external_txn : ExternalTxn) (ledger_txns : list LedgerTxn)
  : list LedgerTxn :=
  List.filter (fun txn => String.eqb (currency txn) (ext_currency external_txn)) ledger_txns.

(** The columns of the row that is logged for the result [r] of
    matching [x] against the ledger transactions [ls] of the day. *)
Definition result_columns (ls : list LedgerTxn) (x : ExternalTxn) (r : MatchResult)
           (row : ReconLog) : Prop :=
  log_matched row = matched r
  /\ log_match_score row = match_score r
  /\ log_mismatch_reason row = mismatch_reason r
  /\ log_ledger_txn_id row = ledger_txn_id r
  /\ amount_difference row = amount_diff r
  /\ external_amount row = PFloat (ext_amount x)
  /\ match ledger_txn_id r with
     | Some i => exists l, In l ls /\ id l = i /\ ledger_amount row = PFloat (amount l)
     | None => ledger_amount row = PNone
     end.

(** The columns of the row that is logged for an exception [e]. *)
Definition error_columns (e : exn) (row : ReconLog) : Prop :=
  log_matched row = false
  /\ log_match_score row = 0%Q
  /\ log_mismatch_reason row = Some ("Processing error: " ++ str_exn e)
  /\ log_ledger_txn_id row = None
  /\ external_amount row = PNone
  /\ ledger_amount row = PNone.


(** No row of the journal carries the id. *)
Definition unknown_job (j : Journal) (the_job : UUID) : Prop :=
  forall k row, recon_jobs j !! k = Some row -> job_id row <> the_job.

End ReconApi.

(* ================================================================== *)
(** ** Reconciliation: the ledger as the matchers see it               *)
(* ================================================================== *)

Module LedgerReader.
Import Py Storage Recon.

(** The value of an [EventType], a [str] enum. *)
Definition event_type_value (ty : Ledger.EventType) : string :=
  match ty with
  | Ledger.DEBIT => "DEBIT"
  | Ledger.CREDIT => "CREDIT"
  | Ledger.TRANSFER => "TRANSFER"
  end.

(** The [LedgerTxn] built from a row of [ledger_events]. *)
Definition as_ledger_txn (row : Ledger.LedgerEvent) : LedgerTxn :=
  {| id := Ledger.id row;
     transaction_id := Ledger.transaction_id row;
     amount := Ledger.amount row;
     currency := Ledger.currency row;
     timestamp := Ledger.timestamp row;
     event_type := event_type_value (Ledger.event_type row);
     source_account_id := Ledger.source_account_id row;
     destination_account_id := Ledger.destination_account_id row;
     metadata := Ledger.metadata row |}.

(** [LedgerReader.get_transactions_for_date] on a store of the ledger:
    every event of the day, whatever its type and status. [date_of]
    is DATE(timestamp). The rows come in the order of the log; ORDER
    BY timestamp leaves the order of rows with one timestamp open. *)
Definition get_transactions_for_date (date_of : Z -> Z) (db : Ledger.DB)
           (target_date : Z) : list LedgerTxn :=
  map as_ledger_txn
      (List.filter (fun row => Z.eqb (date_of (Ledger.timestamp row)) target_date)
                   (Ledger.ledger_events db)).

(** A ledger that allows overdraft, with two USD accounts, 0 and 1,
    and a transfer of 100 USD from the one to the other. *)
Definition overdraft : Ledger.Settings :=
  {| Ledger.allow_overdraft := true; Ledger.max_transaction_amount := 1000000 |}.

Definition two_accounts (fmt : Fmt) : Ledger.World :=
  Ledger.run fmt overdraft
    [Ledger.CreateAccount Scenarios.alice; Ledger.CreateAccount Scenarios.alice]
    (init_world Ledger.empty_db 0 []).

Definition zero_to_one : Ledger.TransferRequest :=
  {| Ledger.tr_source_account_id := 0%N;
     Ledger.tr_destination_account_id := 1%N;
     Ledger.tr_amount := 100;
     Ledger.tr_currency := "USD";
     Ledger.tr_metadata := Some ∅ |}.

End LedgerReader.

(* ================================================================== *)
(** ** Properties of the ledger                                        *)
(* ================================================================== *)

Module LedgerProofs.
Import Py Storage Ledger.

Ltac unfold_m :=
  unfold mbind, mret, M_bind, M_ret, throw, lift, db_call, fresh_uuid, now, get_db,
    put_db, set_store in *.

(** Case analysis on what the oracle says about the next storage call. *)
Ltac oracle :=
  match goal with
  | |- context [match ?fl with [] => _ | _ :: _ => _ end] =>
      is_var fl; destruct fl as [|[] fl]; cbn
  end.

Ltac split_reads :=
  repeat first
    [ oracle
    | match goal with
      | |- context [bool_decide ?P] => destruct (bool_decide P) eqn:?; cbn
      | |- context [match ?x with Some _ => _ | None => _ end] => destruct x eqn:?; cbn
      end ].

Lemma validate_transfer_reads fmt cfg t w :
  store (snd (CommandProcessor.validate_transfer fmt cfg t w)) = store w
  /\ next_uuid (snd (CommandProcessor.validate_transfer fmt cfg t w)) = next_uuid w
  /\ clock (snd (CommandProcessor.validate_transfer fmt cfg t w)) = clock w.
Proof.
  destruct w as [s n c fl].
  unfold CommandProcessor.validate_transfer, AccountRepository.exists_,
    AccountRepository.get_by_id.
  unfold_m. cbn.
  split_reads; auto.
Qed.

Lemma validate_transfer_returns fmt cfg t w v w' :
  CommandProcessor.validate_transfer fmt cfg t w = (inr v, w') ->
  store w' = store w /\ next_uuid w' = next_uuid w /\ clock w' = clock w
  /\ errors v = expected_errors fmt cfg (store w) t
  /\ valid v = Nat.eqb (length (errors v)) 0.
Proof.
  destruct w as [s n c fl].
  unfold CommandProcessor.validate_transfer, AccountRepository.exists_,
    AccountRepository.get_by_id.
  unfold_m. cbn.
  unfold expected_errors, rules, violated, both_exist, has_currency, account_exists. cbn.
  cbv [py_le py_gt py_lt qval inject_Z].
  split_reads; intros [= <- <-]; cbn; repeat split; auto.
  all: unfold append_if;
    repeat match goal with |- context [if ?b then _ else _] => destruct b; cbn end; auto.
Qed.

Lemma no_errors fmt cfg db t :
  expected_errors fmt cfg db t = [] ->
  forall r, violated cfg db t r = false.
Proof.
  unfold expected_errors, rules. cbn [List.filter].
  intros H r.
  destruct (violated cfg db t AmountPositive) eqn:E1; [discriminate|].
  destruct (violated cfg db t AmountWithinLimit) eqn:E2; [discriminate|].
  destruct (violated cfg db t DistinctAccounts) eqn:E3; [discriminate|].
  destruct (violated cfg db t SourceExists) eqn:E4; [discriminate|].
  destruct (violated cfg db t DestinationExists) eqn:E5; [discriminate|].
  destruct (violated cfg db t SourceCurrency) eqn:E6; [discriminate|].
  destruct (violated cfg db t DestinationCurrency) eqn:E7; [discriminate|].
  destruct r; assumption.
Qed.

Lemma no_errors_distinct fmt cfg db t :
  expected_errors fmt cfg db t = [] ->
  tr_source_account_id t <> tr_destination_account_id t.
Proof.
  intros H. apply N.eqb_neq. exact (no_errors _ _ _ _ H DistinctAccounts).
Qed.

Lemma no_errors_exist fmt cfg db t :
  expected_errors fmt cfg db t = [] ->
  is_Some (accounts db !! tr_source_account_id t)
  /\ is_Some (accounts db !! tr_destination_account_id t).
Proof.
  intros H.
  pose proof (no_errors _ _ _ _ H SourceExists) as Hs.
  pose proof (no_errors _ _ _ _ H DestinationExists) as Hd.
  cbn in Hs, Hd. unfold account_exists in *.
  apply negb_false_iff in Hs, Hd.
  apply bool_decide_eq_true in Hs, Hd. auto.
Qed.

(** What a call of [transfer_funds] can do to a world. *)
Lemma transfer_funds_cases fmt cfg t w r w' :
  LedgerService.transfer_funds fmt cfg t w = (r, w') ->
  (next_uuid w <= next_uuid w')%N /\ clock w' = clock w /\
  match r with
  | inr (TransferOk tid evs bals) =>
      exists md, tr_metadata t = Some md
        /\ expected_errors fmt cfg (store w) t = []
        /\ tid = next_uuid w
        /\ evs = [debit_event w t md; credit_event w t md]
        /\ bals = [source_row w t; destination_row w t]
        /\ store w' = after_transfer w t md
        /\ next_uuid w' = N.succ (N.succ (N.succ (next_uuid w)))
  | _ => store w' = store w
  end.
Proof.
  unfold LedgerService.transfer_funds.
  unfold mbind at 1. unfold M_bind.
  destruct (CommandProcessor.validate_transfer fmt cfg t w) as [[e|v] w1] eqn:Hv.
  - intros [= <- <-]. pose proof (validate_transfer_reads fmt cfg t w) as H.
    rewrite Hv in H. cbn in H. destruct H as (Hs & Hn & Hc). split_and!; auto. lia.
  - apply validate_transfer_returns in Hv. destruct Hv as (Hs & Hn & Hc & He & Hval).
    rewrite Hval, He.
    destruct (expected_errors fmt cfg (store w) t) as [|m ms] eqn:Hexp;
      cbn [length Nat.eqb negb].
    2:{ cbn. intros [= <- <-]. split_and!; auto. lia. }
    pose proof (no_errors_distinct _ _ _ _ Hexp) as Hne'.
    assert (Hne : N.eqb (tr_source_account_id t) (tr_destination_account_id t) = false)
      by (apply N.eqb_neq; exact Hne').
    destruct w as [s n c fl]. destruct w1 as [s1 n1 c1 fl1].
    cbn in Hs, Hn, Hc. subst s1 n1 c1.
    clear Hval He.
    unfold DatabaseManager.get_transaction, CommandProcessor.validate_sufficient_funds,
      BalanceRepository.check_sufficient_funds, EventStore.create_transfer_events,
      EventRepository.create_event, ProjectionEngine.project_events_to_balances.
    unfold_m. cbn.
    unfold after_transfer, source_row, destination_row, upsert_row,
      debit_event, credit_event. cbn.
    destruct (tr_metadata t) as [md|] eqn:Hmd.
    all: destruct (balances s !! tr_source_account_id t) as [bs|] eqn:Hbs.
    all: destruct (balances s !! tr_destination_account_id t) as [bd|] eqn:Hbd.
    all: destruct (allow_overdraft cfg); cbn.
    all: repeat first
      [ oracle
      | rewrite Hne; cbn
      | progress (unfold BalanceRepository.upsert_balance; unfold_m; cbn)
      | rewrite (lookup_insert_ne _ _ _ _ Hne'); cbn
      | rewrite Hbs; cbn
      | rewrite Hbd; cbn
      | match goal with
        | |- context [py_ge ?a ?b] => destruct (py_ge a b); cbn
        end ].
    all: intros [= <- <-]; cbn; split_and?; auto; try lia.
    all: eexists; split_and!; [reflexivity|..]; auto.
    all: rewrite <- ?app_assoc; reflexivity.
Qed.

(** What a call of [create_account] can do to a world. *)
Lemma create_account_cases a w r w' :
  LedgerService.create_account a w = (r, w') ->
  clock w' = clock w /\ ledger_events (store w') = ledger_events (store w) /\
  match r with
  | inr acc =>
      acc = new_account w a
      /\ next_uuid w' = N.succ (next_uuid w)
      /\ accounts (store w') = <[next_uuid w := new_account w a]> (accounts (store w))
      /\ balances (store w')
         = <[next_uuid w := upsert_row (balances (store w)) (next_uuid w)
                              (ac_currency a) 0 0 (clock w)]> (balances (store w))
  | inl e =>
      balances (store w') = balances (store w)
      /\ ((accounts (store w') = accounts (store w) /\ next_uuid w' = next_uuid w)
          \/ (accounts (store w') = <[next_uuid w := new_account w a]> (accounts (store w))
              /\ next_uuid w' = N.succ (next_uuid w)))
  end.
Proof.
  destruct w as [s n c fl].
  unfold LedgerService.create_account, AccountRepository.create,
    DatabaseManager.get_transaction, BalanceRepository.upsert_balance, new_account,
    upsert_row.
  unfold_m. cbn.
  repeat oracle; intros [= <- <-]; cbn; split_and?; auto.
Qed.

(* Sums over an extended log *)

Lemma Qsum_app l1 l2 : (Qsum (l1 ++ l2) == Qsum l1 + Qsum l2)%Q.
Proof.
  unfold Qsum. induction l1 as [|x l1 IH]; cbn.
  - lra.
  - rewrite IH. lra.
Qed.

Lemma credits_to_transfer a evs w t md :
  (credits_to a (evs ++ [debit_event w t md; credit_event w t md])
   == credits_to a evs
      + (if N.eqb (tr_destination_account_id t) a then tr_amount t else 0))%Q.
Proof.
  unfold credits_to. rewrite List.filter_app, List.map_app, Qsum_app. cbn.
  destruct (N.eqb (tr_destination_account_id t) a); cbn; lra.
Qed.

Lemma debits_from_transfer a evs w t md :
  (debits_from a (evs ++ [debit_event w t md; credit_event w t md])
   == debits_from a evs
      + (if N.eqb (tr_source_account_id t) a then tr_amount t else 0))%Q.
Proof.
  unfold debits_from. rewrite List.filter_app, List.map_app, Qsum_app. cbn.
  destruct (N.eqb (tr_source_account_id t) a); cbn; lra.
Qed.

Lemma txn_total_transfer tid cur evs w t md :
  (txn_total is_credit tid cur (evs ++ [debit_event w t md; credit_event w t md])
   - txn_total is_credit tid cur evs
   == txn_total is_debit tid cur (evs ++ [debit_event w t md; credit_event w t md])
      - txn_total is_debit tid cur evs)%Q.
Proof.
  unfold txn_total. rewrite !List.filter_app, !List.map_app, !Qsum_app. cbn.
  destruct (N.eqb (next_uuid w) tid), (String.eqb (tr_currency t) cur); cbn; lra.
Qed.

Lemma stored_available_upsert bals a cur d t :
  (available_balance (upsert_row bals a cur d 0 t)
   == match bals !! a with Some b => available_balance b | None => 0 end + d)%Q.
Proof. unfold upsert_row. destruct (bals !! a); cbn; lra. Qed.

Lemma stored_available_after_transfer w t md a :
  tr_source_account_id t <> tr_destination_account_id t ->
  (stored_available (after_transfer w t md) a
   == stored_available (store w) a
      + (if N.eqb (tr_destination_account_id t) a then tr_amount t else 0)
      - (if N.eqb (tr_source_account_id t) a then tr_amount t else 0))%Q.
Proof.
  intros Hne. unfold stored_available, after_transfer. cbn.
  destruct (N.eqb_spec (tr_destination_account_id t) a) as [Ed|Hd].
  - subst a. rewrite lookup_insert_eq. unfold destination_row.
    rewrite stored_available_upsert.
    destruct (N.eqb_spec (tr_source_account_id t) (tr_destination_account_id t))
      as [E|_]; [congruence|]. lra.
  - rewrite lookup_insert_ne by exact Hd.
    destruct (N.eqb_spec (tr_source_account_id t) a) as [Es|Hs].
    + subst a. rewrite lookup_insert_eq. unfold source_row.
      rewrite stored_available_upsert. lra.
    + rewrite lookup_insert_ne by exact Hs. lra.
Qed.

Lemma consistent_init t fl : consistent (init_world empty_db t fl).
Proof.
  split_and!.
  - intros a. unfold stored_available, credits_to, debits_from, Qsum. cbn.
    rewrite lookup_empty. lra.
  - intros tid cur. unfold txn_total, Qsum. cbn. lra.
  - unfold supply_fresh. cbn. split_and!.
    + intros a [x Hx]. rewrite lookup_empty in Hx. discriminate.
    + intros a [x Hx]. rewrite lookup_empty in Hx. discriminate.
    + intros e [].
Qed.

Lemma consistent_transfer fmt cfg t w :
  consistent w -> consistent (snd (LedgerService.transfer_funds fmt cfg t w)).
Proof.
  intros (Hlaw & Hcons & Hacc & Hbal & Hev).
  destruct (LedgerService.transfer_funds fmt cfg t w) as [r w'] eqn:Hrun.
  apply transfer_funds_cases in Hrun. destruct Hrun as (Hn & Hc & Hr). cbn [snd].
  assert (Hsame : store w' = store w -> consistent w').
  { intros E. unfold consistent, supply_fresh. rewrite E. split_and!; auto.
    - intros a Ha. specialize (Hacc a Ha). lia.
    - intros e He. specialize (Hev e He). lia. }
  destruct r as [e|[tid evs bals|errs]]; auto.
  destruct Hr as (md & Hmd & Hexp & -> & -> & -> & Hst & Hn').
  pose proof (no_errors_distinct _ _ _ _ Hexp) as Hne.
  pose proof (no_errors_exist _ _ _ _ Hexp) as [Hsrc Hdst].
  unfold consistent, supply_fresh. rewrite Hst. split_and!.
  - intros a. rewrite stored_available_after_transfer by exact Hne.
    cbn [after_transfer ledger_events].
    rewrite credits_to_transfer, debits_from_transfer, (Hlaw a). lra.
  - intros tid cur. cbn [after_transfer ledger_events].
    pose proof (txn_total_transfer tid cur (ledger_events (store w)) w t md) as H.
    pose proof (Hcons tid cur). lra.
  - cbn. intros a Ha. specialize (Hacc a Ha). lia.
  - cbn. intros a Ha.
    destruct (N.eq_dec (tr_destination_account_id t) a) as [<-|Hd]; [exact Hdst|].
    rewrite lookup_insert_ne in Ha by exact Hd.
    destruct (N.eq_dec (tr_source_account_id t) a) as [<-|Hs]; [exact Hsrc|].
    rewrite lookup_insert_ne in Ha by exact Hs. auto.
  - cbn. intros e He. apply in_app_or in He. destruct He as [He|He].
    + specialize (Hev e He). lia.
    + cbn in He. destruct He as [<-|[<-|[]]]; cbn; lia.
Qed.

Lemma consistent_create a w :
  consistent w -> consistent (snd (LedgerService.create_account a w)).
Proof.
  intros (Hlaw & Hcons & Hacc & Hbal & Hev).
  destruct (LedgerService.create_account a w) as [r w'] eqn:Hrun.
  apply create_account_cases in Hrun. destruct Hrun as (Hc & Hevs & Hr). cbn [snd].
  unfold consistent, balance_law, conserved, supply_fresh. rewrite Hevs.
  destruct r as [e|acc].
  - destruct Hr as (Hb & Ha). unfold stored_available. rewrite Hb.
    split_and!; auto.
    + destruct Ha as [[-> ->]|[-> ->]]; auto.
      intros k Hk. destruct (N.eq_dec (next_uuid w) k) as [<-|Hne]; [lia|].
      rewrite lookup_insert_ne in Hk by exact Hne. specialize (Hacc k Hk). lia.
    + destruct Ha as [[-> _]|[-> _]]; auto.
      intros k Hk. specialize (Hbal k Hk).
      destruct (N.eq_dec (next_uuid w) k) as [<-|Hne].
      * rewrite lookup_insert_eq. eauto.
      * rewrite lookup_insert_ne by exact Hne. exact Hk || exact Hbal.
    + intros e0 He0. specialize (Hev e0 He0).
      destruct Ha as [[_ ->]|[_ ->]]; lia.
  - destruct Hr as (-> & Hn & Ha & Hb). unfold stored_available. rewrite Ha, Hb, Hn.
    split_and!; auto.
    + intros k. destruct (N.eq_dec (next_uuid w) k) as [<-|Hne].
      * rewrite lookup_insert_eq, stored_available_upsert.
        specialize (Hlaw (next_uuid w)). unfold stored_available in Hlaw. lra.
      * rewrite lookup_insert_ne by exact Hne. apply Hlaw.
    + intros k Hk. destruct (N.eq_dec (next_uuid w) k) as [<-|Hne]; [lia|].
      rewrite lookup_insert_ne in Hk by exact Hne. specialize (Hacc k Hk). lia.
    + intros k Hk. destruct (N.eq_dec (next_uuid w) k) as [<-|Hne].
      * rewrite lookup_insert_eq. eauto.
      * rewrite lookup_insert_ne by exact Hne.
        rewrite lookup_insert_ne in Hk by exact Hne. auto.
    + intros e0 He0. specialize (Hev e0 He0). lia.
Qed.

Lemma consistent_run fmt cfg ops w :
  consistent w -> consistent (run fmt cfg ops w).
Proof.
  revert w. induction ops as [|o ops IH]; intros w Hw; [exact Hw|].
  cbn. apply IH. destruct o; cbn.
  - apply consistent_create, Hw.
  - apply consistent_transfer, Hw.
Qed.

Lemma fresh_has_no_row w :
  supply_fresh w -> balances (store w) !! next_uuid w = None.
Proof.
  intros (Hacc & Hbal & _).
  destruct (balances (store w) !! next_uuid w) as [b|] eqn:E; [|reflexivity].
  assert (H : is_Some (balances (store w) !! next_uuid w)) by eauto.
  apply Hbal, Hacc in H. lia.
Qed.

(** C1. A transfer that does not succeed, because validation rejects
    it, because the funds check inside the transaction fails, or
    because a storage call raises, leaves the store as it was: no
    event carries the transaction id drawn for it and every balance
    row, version included, is unchanged. A transfer that succeeds has
    appended its debit and its credit event, both under the returned
    transaction id, and has moved the amount from the source balance
    to the destination balance, each row one version further. *)
Theorem transfer_funds_atomic fmt cfg t0 fl ops t :
  let w := run fmt cfg ops (init_world empty_db t0 fl) in
  let out := LedgerService.transfer_funds fmt cfg t w in
  let w' := snd out in
  match fst out with
  | inr (TransferOk tid evs bals) =>
      exists d c,
        evs = [d; c]
        /\ ledger_events (store w') = (ledger_events (store w) ++ [d; c])%list
        /\ event_type d = DEBIT /\ transaction_id d = tid
        /\ event_type c = CREDIT /\ transaction_id c = tid
        /\ (stored_available (store w') (tr_source_account_id t)
            == stored_available (store w) (tr_source_account_id t) - tr_amount t)%Q
        /\ (stored_available (store w') (tr_destination_account_id t)
            == stored_available (store w) (tr_destination_account_id t) + tr_amount t)%Q
        /\ stored_version (store w') (tr_source_account_id t)
           = Some (bumped (stored_version (store w) (tr_source_account_id t)))
        /\ stored_version (store w') (tr_destination_account_id t)
           = Some (bumped (stored_version (store w) (tr_destination_account_id t)))
  | _ =>
      store w' = store w
      /\ forall e, In e (ledger_events (store w')) -> transaction_id e <> next_uuid w
  end.
Proof.
  intros w out w'. subst out w'.
  assert (Hw : consistent w) by apply consistent_run, consistent_init.
  clearbody w.
  destruct (LedgerService.transfer_funds fmt cfg t w) as [r w'] eqn:Hrun.
  apply transfer_funds_cases in Hrun. destruct Hrun as (Hn & Hc & Hr). cbn [fst snd].
  destruct Hw as (_ & _ & _ & _ & Hev).
  assert (Hsame : store w' = store w ->
                  store w' = store w
                  /\ forall e, In e (ledger_events (store w')) ->
                               transaction_id e <> next_uuid w).
  { intros E. split; [exact E|]. rewrite E. intros e He. specialize (Hev e He). lia. }
  destruct r as [e|[tid evs bals|errs]]; auto.
  destruct Hr as (md & Hmd & Hexp & -> & -> & -> & Hst & Hn').
  pose proof (no_errors_distinct _ _ _ _ Hexp) as Hne.
  exists (debit_event w t md), (credit_event w t md).
  rewrite Hst. split_and!; try reflexivity.
  - rewrite stored_available_after_transfer by exact Hne.
    rewrite N.eqb_refl. destruct (N.eqb_spec (tr_destination_account_id t)
                                    (tr_source_account_id t)); [congruence|]. lra.
  - rewrite stored_available_after_transfer by exact Hne.
    rewrite N.eqb_refl. destruct (N.eqb_spec (tr_source_account_id t)
                                    (tr_destination_account_id t)); [congruence|]. lra.
  - unfold stored_version, after_transfer. cbn.
    rewrite lookup_insert_ne by congruence. rewrite lookup_insert_eq.
    unfold source_row, upsert_row.
    destruct (balances (store w) !! tr_source_account_id t); reflexivity.
  - unfold stored_version, after_transfer. cbn.
    rewrite lookup_insert_eq.
    unfold destination_row, upsert_row.
    destruct (balances (store w) !! tr_destination_account_id t); reflexivity.
Qed.

(** C2. After any history of [create_account] and [transfer_funds]
    calls, whatever storage calls failed on the way, the available
    balance stored for an account is the sum of the SETTLED CREDIT
    events to it minus the sum of the SETTLED DEBIT events from it;
    pending plays no part, and an account created next starts with
    zero available and zero pending. *)
Theorem balance_projection_law fmt cfg t0 fl ops a acc_data :
  let w := run fmt cfg ops (init_world empty_db t0 fl) in
  (stored_available (store w) a
   == credits_to a (ledger_events (store w)) - debits_from a (ledger_events (store w)))%Q
  /\ match LedgerService.create_account acc_data w with
     | (inr acc, w') =>
         balances (store w') !! acc_id acc
         = Some {| account_id := acc_id acc;
                   bal_currency := acc_currency acc;
                   available_balance := 0;
                   pending_balance := 0;
                   last_updated := clock w;
                   version := initial_version |}
     | (inl _, _) => True
     end.
Proof.
  intros w.
  assert (Hw : consistent w) by apply consistent_run, consistent_init.
  clearbody w.
  destruct Hw as (Hlaw & _ & Hfresh).
  split; [apply Hlaw|].
  destruct (LedgerService.create_account acc_data w) as [[e|acc] w'] eqn:Hrun; [exact I|].
  apply create_account_cases in Hrun. destruct Hrun as (_ & _ & -> & _ & _ & Hb).
  rewrite Hb. unfold new_account. cbn [acc_id acc_currency].
  rewrite lookup_insert_eq. unfold upsert_row.
  rewrite (fresh_has_no_row w Hfresh). reflexivity.
Qed.

(** C3. In every reachable store the CREDIT amounts of a transaction
    id and currency add up to its DEBIT amounts; and a successful
    transfer appends exactly two events: a DEBIT with only the source
    set and a CREDIT with only the destination set, both SETTLED,
    with the amount and currency of the request and with one
    transaction id that no earlier event carries. *)
Theorem transfer_appends_paired_events fmt cfg t0 fl ops t :
  let w := run fmt cfg ops (init_world empty_db t0 fl) in
  (forall tid cur,
      (txn_total is_credit tid cur (ledger_events (store w))
       == txn_total is_debit tid cur (ledger_events (store w)))%Q)
  /\ match LedgerService.transfer_funds fmt cfg t w with
     | (inr (TransferOk tid evs bals), w') =>
         exists d c,
           evs = [d; c]
           /\ ledger_events (store w') = (ledger_events (store w) ++ [d; c])%list
           /\ event_type d = DEBIT
           /\ source_account_id d = Some (tr_source_account_id t)
           /\ destination_account_id d = None
           /\ event_type c = CREDIT
           /\ source_account_id c = None
           /\ destination_account_id c = Some (tr_destination_account_id t)
           /\ transaction_id d = tid /\ transaction_id c = tid
           /\ (forall e, In e (ledger_events (store w)) -> transaction_id e <> tid)
           /\ amount d = tr_amount t /\ amount c = tr_amount t
           /\ currency d = tr_currency t /\ currency c = tr_currency t
           /\ status d = SETTLED /\ status c = SETTLED
     | _ => True
     end.
Proof.
  intros w.
  assert (Hw : consistent w) by apply consistent_run, consistent_init.
  clearbody w.
  destruct Hw as (_ & Hcons & _ & _ & Hev).
  split; [exact Hcons|].
  destruct (LedgerService.transfer_funds fmt cfg t w) as [r w'] eqn:Hrun.
  apply transfer_funds_cases in Hrun. destruct Hrun as (_ & _ & Hr).
  destruct r as [e|[tid evs bals|errs]]; auto.
  destruct Hr as (md & Hmd & Hexp & -> & -> & -> & Hst & Hn').
  exists (debit_event w t md), (credit_event w t md).
  rewrite Hst. split_and!; try reflexivity.
  intros e He. specialize (Hev e He). lia.
Qed.

(** X10. Every rule of the validator that a request violates
    contributes its message, in rule order, to the one list that is
    returned; the currency rule is checked for each account and
    contributes one message per account whose currency differs. The
    request is valid exactly when it violates no rule. *)
Theorem validate_transfer_accumulates fmt cfg t w v w' :
  CommandProcessor.validate_transfer fmt cfg t w = (inr v, w') ->
  errors v = map (message fmt cfg) (List.filter (violated cfg (store w) t) rules)
  /\ (valid v = true <-> forall r, violated cfg (store w) t r = false).
Proof.
  intros H. apply validate_transfer_returns in H.
  destruct H as (_ & _ & _ & He & Hv). split; [exact He|].
  rewrite Hv, He. fold (expected_errors fmt cfg (store w) t). split.
  - intros Hlen. apply no_errors with (fmt := fmt).
    destruct (expected_errors fmt cfg (store w) t); [reflexivity|discriminate].
  - intros Hall. unfold expected_errors, rules. cbn [List.filter].
    rewrite !Hall. reflexivity.
Qed.

(** C5. Sending from an account to itself is refused, but the single
    error returned, "Source and destination accounts must be
    different", does not mention "same". *)
Theorem same_account_error_lacks_same fmt :
  fst (LedgerService.transfer_funds fmt settings Scenarios.alice_to_alice
         (Scenarios.alice_world fmt))
  = inr (TransferFailed ["Source and destination accounts must be different"])
  /\ existsb (fun e => contains "same" (lower e))
       ["Source and destination accounts must be different"] = false.
Proof. split; vm_compute; reflexivity. Qed.

(** C6, as the code has it. [create_account] writes the account row
    on its own and the balance row in a later transaction. A call
    that returns has written both, the balance row with zero
    available, zero pending and the initial version. A call that
    raises has written no balance row, and either no account row or
    the account row alone. In both cases every balance row still
    belongs to an account row. *)
Theorem create_account_outcomes fmt cfg t0 fl ops a :
  let w := run fmt cfg ops (init_world empty_db t0 fl) in
  let out := LedgerService.create_account a w in
  let w' := snd out in
  (forall k, is_Some (balances (store w') !! k) -> is_Some (accounts (store w') !! k))
  /\ match fst out with
     | inr acc =>
         accounts (store w') !! acc_id acc = Some acc
         /\ balances (store w') !! acc_id acc
            = Some {| account_id := acc_id acc;
                      bal_currency := acc_currency acc;
                      available_balance := 0;
                      pending_balance := 0;
                      last_updated := clock w;
                      version := initial_version |}
     | inl e =>
         balances (store w') = balances (store w)
         /\ (accounts (store w') = accounts (store w)
             \/ accounts (store w')
                = <[next_uuid w := new_account w a]> (accounts (store w)))
     end.
Proof.
  intros w out w'. subst out w'.
  assert (Hw : consistent w) by apply consistent_run, consistent_init.
  clearbody w.
  pose proof (consistent_create a w Hw) as (_ & _ & _ & Hbal' & _).
  split; [exact Hbal'|]. clear Hbal'.
  destruct Hw as (_ & _ & Hfresh).
  destruct (LedgerService.create_account a w) as [[e|acc] w'] eqn:Hrun; cbn [fst snd].
  - apply create_account_cases in Hrun. destruct Hrun as (_ & _ & Hb & Ha).
    split; [exact Hb|]. destruct Ha as [[Ha _]|[Ha _]]; auto.
  - apply create_account_cases in Hrun. destruct Hrun as (_ & _ & -> & _ & Ha & Hb).
    rewrite Ha, Hb. unfold new_account at 1 3 4 5. cbn [acc_id acc_currency].
    rewrite !lookup_insert_eq. unfold upsert_row.
    rewrite (fresh_has_no_row w Hfresh). split; reflexivity.
Qed.

(** C6 as stated fails: when the balance upsert raises, the account
    row stays without a balance row. *)
Lemma create_account_leaves_account_without_balance :
  let out := LedgerService.create_account Scenarios.alice Scenarios.second_call_fails in
  fst out = inl (StorageError "storage error")
  /\ is_Some (accounts (store (snd out)) !! 0%N)
  /\ balances (store (snd out)) !! 0%N = None.
Proof. vm_compute. split_and!; [reflexivity|eexists; reflexivity|reflexivity]. Qed.

End LedgerProofs.

(* ================================================================== *)
(** ** Properties of the reconciliation engine                         *)
(* ================================================================== *)

Module ReconProofs.
Import Py Storage Recon.

Ltac unfold_m :=
  unfold mbind, mret, M_bind, M_ret, throw, lift, try_except, db_call, fresh_uuid, now,
    get_db, put_db, set_store in *.

Ltac oracle :=
  match goal with
  | |- context [match ?fl with [] => _ | _ :: _ => _ end] =>
      is_var fl; destruct fl as [|[] fl]; cbn
  end.

(* The metadata of logged results *)

Lemma create_match_result_no_currency name ext l m s r :
  mr_metadata (BaseMatcher._create_match_result name ext l m s r) !! "currency" = None.
Proof. unfold BaseMatcher._create_match_result. cbn. reflexivity. Qed.

Lemma exact_match_no_currency fmt cfg ext ls :
  mr_metadata (ExactMatcher.match_ fmt cfg ext ls) !! "currency" = None.
Proof.
  unfold ExactMatcher.match_, ExactMatcher._validate_exact_match.
  repeat match goal with
         | |- context [match ?x with _ => _ end] => destruct x
         end; apply create_match_result_no_currency.
Qed.

Lemma fuzzy_match_no_currency ratio fmt cfg ext ls r :
  FuzzyMatcher.match_ ratio fmt cfg ext ls = inr r ->
  mr_metadata r !! "currency" = None.
Proof.
  unfold FuzzyMatcher.match_. unfold mbind, result_bind.
  destruct (FuzzyMatcher.best_of _ _ _ _ _ _ _) as [e|best]; [discriminate|].
  destruct (py_ge _ _); intros [= <-]; apply create_match_result_no_currency.
Qed.

Lemma match_transaction_no_currency ratio fmt cfg ext ls r :
  ReconEngine._match_transaction ratio fmt cfg ext ls = inr r ->
  mr_metadata r !! "currency" = None.
Proof.
  unfold ReconEngine._match_transaction.
  destruct (List.filter _ ls) as [|l0 rest].
  - intros [= <-]. reflexivity.
  - destruct (matched _).
    + intros [= <-]. apply exact_match_no_currency.
    + unfold mbind, result_bind.
      destruct (FuzzyMatcher.match_ _ _ _ _ _) as [e|fz] eqn:Hf; [discriminate|].
      destruct (py_gt _ _); intros [= <-].
      * eapply fuzzy_match_no_currency, Hf.
      * apply exact_match_no_currency.
Qed.

Lemma enhance_no_currency fmt r ext ls :
  mr_metadata r !! "currency" = None ->
  mr_metadata (ReconEngine._enhance_match_result fmt r ext ls) !! "currency" = None.
Proof.
  intros H. unfold ReconEngine._enhance_match_result. cbn [mr_metadata].
  destruct (match ledger_txn_id r with Some _ => _ | None => _ end);
    repeat (rewrite lookup_insert_ne by discriminate); exact H.
Qed.

Lemma log_row_currency d s r t :
  mr_metadata r !! "currency" = None -> log_currency (ReconLogger.log_row d s r t) = PNone.
Proof. intros H. unfold ReconLogger.log_row, dict_get. cbn. rewrite H. reflexivity. Qed.

Lemma only_adds_refl P w w' :
  recon_logs (store w') = recon_logs (store w) -> only_adds P w w'.
Proof. intros E. exists []. rewrite E, app_nil_r. split; [reflexivity|constructor]. Qed.

Lemma only_adds_trans P w1 w2 w3 :
  only_adds P w1 w2 -> only_adds P w2 w3 -> only_adds P w1 w3.
Proof.
  intros (r1 & E1 & F1) (r2 & E2 & F2). exists (r1 ++ r2)%list.
  rewrite E2, E1, app_assoc. split; [reflexivity|]. apply Forall_app; auto.
Qed.

Lemma log_result_adds d s r w :
  mr_metadata r !! "currency" = None ->
  only_adds null_currency w (snd (ReconLogger.log_result d s r w)).
Proof.
  intros H. destruct w as [j n c fl]. unfold ReconLogger.log_result. unfold_m. cbn.
  oracle.
  - eexists. split; [reflexivity|]. repeat constructor. apply log_row_currency, H.
  - apply only_adds_refl. reflexivity.
  - eexists. split; [reflexivity|]. repeat constructor. apply log_row_currency, H.
Qed.

Lemma finalize_job_keeps_log k m u te tl st msg w :
  recon_logs (store (snd (ReconLogger.finalize_job k m u te tl st msg w)))
  = recon_logs (store w).
Proof.
  destruct w as [j n c fl]. unfold ReconLogger.finalize_job. unfold_m. cbn.
  oracle; reflexivity.
Qed.

Lemma create_job_keeps_log d s w :
  recon_logs (store (snd (ReconLogger.create_job d s w))) = recon_logs (store w).
Proof.
  destruct w as [j n c fl]. unfold ReconLogger.create_job. unfold_m. cbn.
  oracle; reflexivity.
Qed.

Lemma process_adds ratio fmt cfg d s ledger counts x w :
  only_adds null_currency w
    (snd (ReconEngine.process ratio fmt cfg d s ledger counts x w)).
Proof.
  unfold ReconEngine.process. destruct counts as [m u].
  unfold try_except, mbind, M_bind, lift.
  destruct (ReconEngine._match_transaction ratio fmt cfg x ledger) as [e|r] eqn:Hm.
  - pose proof (log_result_adds d s (ReconEngine.failed_result x e) w eq_refl) as H.
    destruct (ReconLogger.log_result d s (ReconEngine.failed_result x e) w) as [[e'|[]] w1];
      exact H.
  - apply match_transaction_no_currency in Hm.
    pose proof (enhance_no_currency fmt r x ledger Hm) as He.
    pose proof (log_result_adds d s _ w He) as H.
    destruct (ReconLogger.log_result d s _ w) as [[e'|[]] w1]; cbn [snd] in H.
    + pose proof (log_result_adds d s (ReconEngine.failed_result x e') w1 eq_refl) as H'.
      destruct (ReconLogger.log_result d s (ReconEngine.failed_result x e') w1)
        as [[e''|[]] w2]; cbn [snd] in *; eapply only_adds_trans; eauto.
    + destruct (matched _); exact H.
Qed.

Lemma process_all_adds ratio fmt cfg d s ledger xs :
  forall counts w,
    only_adds null_currency w
      (snd (ReconEngine.process_all ratio fmt cfg d s ledger counts xs w)).
Proof.
  induction xs as [|x xs IH]; intros counts w; cbn.
  - apply only_adds_refl. reflexivity.
  - unfold mbind, M_bind.
    pose proof (process_adds ratio fmt cfg d s ledger counts x w) as H.
    destruct (ReconEngine.process ratio fmt cfg d s ledger counts x w) as [[e|c'] w1];
      cbn [snd] in H; [exact H|].
    eapply only_adds_trans; [exact H|apply IH].
Qed.

(** C10. Whatever a run of the orchestrator appends to [recon_logs],
    and whichever storage calls fail on the way, every appended row
    has a null currency column. *)
Theorem logged_currency_is_null ratio fmt cfg env d s kw w :
  exists rows,
    recon_logs (store (snd (ReconEngine.run ratio fmt cfg env d s kw w)))
    = (recon_logs (store w) ++ rows)%list
    /\ Forall (fun row => log_currency row = PNone) rows.
Proof.
  change (only_adds null_currency w (snd (ReconEngine.run ratio fmt cfg env d s kw w))).
  unfold ReconEngine.run. unfold mbind at 1. unfold M_bind.
  pose proof (create_job_keeps_log d s w) as Hc.
  destruct (ReconLogger.create_job d s w) as [[e|job] w1]; cbn [snd] in Hc.
  { apply only_adds_refl, Hc. }
  eapply only_adds_trans; [apply only_adds_refl, Hc|]. clear Hc w.
  unfold try_except, mbind, M_bind, lift, mret, M_ret, throw.
  assert (Hfail : forall e w2, only_adds null_currency w1 w2 ->
            only_adds null_currency w1
              (snd (let (r, w') := ReconLogger.finalize_job job 0 0 0 0 FAILED
                                     (Some (str_exn e)) w2 in
                    match r with
                    | inl e0 => (inl e0, w')
                    | inr _ => (@inl exn UUID e, w')
                    end))).
  { intros e w2 H. pose proof (finalize_job_keeps_log job 0 0 0 0 FAILED
                                 (Some (str_exn e)) w2) as Hf.
    destruct (ReconLogger.finalize_job _ _ _ _ _ _ _ w2) as [[e0|[]] w3];
      cbn [snd] in *; (eapply only_adds_trans; [exact H|apply only_adds_refl, Hf]). }
  destruct (ReconEngine._load_external_transactions env s d kw) as [e|exts].
  { apply Hfail, only_adds_refl. reflexivity. }
  destruct (get_transactions_for_date env d) as [e|ledger].
  { apply Hfail, only_adds_refl. reflexivity. }
  pose proof (process_all_adds ratio fmt cfg d s ledger exts (0%nat, 0%nat) w1) as Hp.
  destruct (ReconEngine.process_all _ _ _ _ _ _ _ _ w1) as [[e|counts] w2];
    cbn [snd] in Hp.
  { apply Hfail, Hp. }
  pose proof (finalize_job_keeps_log job (fst counts) (snd counts) (length exts)
                (length ledger) COMPLETED None w2) as Hf.
  destruct (ReconLogger.finalize_job job _ _ _ _ COMPLETED None w2) as [[e|[]] w3];
    cbn [snd] in Hf.
  - apply Hfail. eapply only_adds_trans; [exact Hp|apply only_adds_refl, Hf].
  - cbn [snd]. eapply only_adds_trans; [exact Hp|apply only_adds_refl, Hf].
Qed.

(* A run whose storage calls all succeed *)

Lemma process_quiet ratio fmt cfg d s ledger m u x jobs logs n t :
  ReconEngine.process ratio fmt cfg d s ledger (m, u) x
    (quiet {| recon_jobs := jobs; recon_logs := logs |} n t)
  = (inr (if matched (row_result ratio fmt cfg ledger x) then (S m, u) else (m, S u)),
     quiet {| recon_jobs := jobs;
              recon_logs := logs ++ rows_of ratio fmt cfg d s ledger t [x] |} n t).
Proof.
  unfold ReconEngine.process, rows_of, quiet, ReconLogger.log_result.
  unfold_m. cbn [map]. unfold row_result.
  destruct (ReconEngine._match_transaction ratio fmt cfg x ledger) as [e|r]; cbn.
  - reflexivity.
  - destruct (matched r); reflexivity.
Qed.

Lemma process_all_quiet ratio fmt cfg d s ledger xs :
  forall m u jobs logs n t,
    ReconEngine.process_all ratio fmt cfg d s ledger (m, u) xs
      (quiet {| recon_jobs := jobs; recon_logs := logs |} n t)
    = (inr ((m + count_matched (rows_of ratio fmt cfg d s ledger t xs))%nat,
            (u + count_unmatched (rows_of ratio fmt cfg d s ledger t xs))%nat),
       quiet {| recon_jobs := jobs;
                recon_logs := logs ++ rows_of ratio fmt cfg d s ledger t xs |} n t).
Proof.
  induction xs as [|x xs IH]; intros m u jobs logs n t.
  - cbn. rewrite app_nil_r, !Nat.add_0_r. reflexivity.
  - cbn [ReconEngine.process_all]. unfold mbind, M_bind.
    rewrite process_quiet.
    unfold count_matched, count_unmatched. cbn [rows_of map List.filter].
    change (map (fun x0 => ReconLogger.log_row d s (row_result ratio fmt cfg ledger x0) t) xs)
      with (rows_of ratio fmt cfg d s ledger t xs).
    cbn [ReconLogger.log_row log_matched].
    destruct (matched (row_result ratio fmt cfg ledger x)); cbn [negb length];
      rewrite IH; unfold count_matched, count_unmatched;
      rewrite <- app_assoc; cbn [app]; rewrite <- ?Nat.add_succ_comm; reflexivity.
Qed.


(* The exact matcher *)

Lemma eq_str_iff v s : eq_str v s = true <-> v = PStr s.
Proof.
  destruct v; cbn; try (split; [discriminate|intros [=]]).
  rewrite String.eqb_eq. split; [intros ->; reflexivity|intros [= ->]; reflexivity].
Qed.

Lemma id_match_iff fmt ext l :
  ExactMatcher.id_match fmt ext l = true <-> cross_referenced fmt ext l.
Proof.
  unfold ExactMatcher.id_match, cross_referenced.
  rewrite orb_true_iff.
  destruct (metadata l !! "external_txn_id") as [v|];
    destruct (ext_metadata ext !! "ledger_txn_id") as [v'|];
    rewrite ?eq_str_iff; split; intros [H|H]; try discriminate;
    try (injection H as ->); auto; try (left; f_equal; assumption);
    try (right; f_equal; assumption).
Qed.

Lemma amount_match_iff cfg ext l :
  ExactMatcher.amount_match cfg ext l = true <-> exact_candidate cfg ext l.
Proof.
  unfold ExactMatcher.amount_match, exact_candidate, within_tolerance.
  rewrite !andb_true_iff, Qeq_bool_iff, String.eqb_eq, Z.leb_le. tauto.
Qed.

Lemma find_exact_id_match_first fmt ext pre l post :
  ExactMatcher.id_match fmt ext l = true ->
  (forall x, In x pre -> ExactMatcher.id_match fmt ext x = false) ->
  ExactMatcher._find_exact_id_match fmt ext (pre ++ l :: post) = Some l.
Proof.
  intros Hl. induction pre as [|p pre IH]; intros Hpre; cbn.
  - rewrite Hl. reflexivity.
  - rewrite (Hpre p) by (left; reflexivity). apply IH.
    intros x Hx. apply Hpre. right. exact Hx.
Qed.

Lemma find_exact_id_match_none fmt ext ls :
  (forall x, In x ls -> ExactMatcher.id_match fmt ext x = false) ->
  ExactMatcher._find_exact_id_match fmt ext ls = None.
Proof.
  induction ls as [|p ls IH]; intros H; cbn; [reflexivity|].
  rewrite (H p) by (left; reflexivity). apply IH.
  intros x Hx. apply H. right. exact Hx.
Qed.

Lemma find_exact_amount_matches_filter cfg ext ls :
  ExactMatcher._find_exact_amount_matches cfg ext ls
  = List.filter (ExactMatcher.amount_match cfg ext) ls.
Proof.
  induction ls as [|p ls IH]; cbn; [reflexivity|].
  destruct (ExactMatcher.amount_match cfg ext p); rewrite IH; reflexivity.
Qed.

Lemma not_true_false (b : bool) (P : Prop) : (b = true <-> P) -> ~ P -> b = false.
Proof. destruct b; intuition. Qed.

Lemma seconds_gt_iff z T :
  py_gt (NFloat (total_seconds z)) (NInt T) = true <-> T * 1000000 < z.
Proof.
  unfold py_gt, py_lt, total_seconds. cbn [qval].
  rewrite negb_true_iff. rewrite <- not_true_iff_false, Qle_bool_iff.
  unfold Qle, inject_Z. cbn [Qnum Qden]. lia.
Qed.

(** C4. [ExactMatcher.match] decides in this order. (1) The first
    ledger transaction that is cross-referenced with the external one
    is validated. (2) Without any cross-reference, the candidates are
    the ledger transactions of equal amount and currency within the
    timestamp tolerance: a single candidate is validated, several
    give "Multiple exact amount matches found", none gives "No exact
    match found". (3) Validation re-checks amount, then currency,
    then the timestamp tolerance; the first check that fails gives
    the reason, and when all pass the result is matched with score
    1. *)
Theorem exact_match_decision fmt cfg ext ls :
  let r := ExactMatcher.match_ fmt cfg ext ls in
  let candidates := List.filter (ExactMatcher.amount_match cfg ext) ls in
  (forall pre l post,
      ls = (pre ++ l :: post)%list ->
      cross_referenced fmt ext l ->
      (forall x, In x pre -> ~ cross_referenced fmt ext x) ->
      r = ExactMatcher._validate_exact_match fmt cfg ext l)
  /\ (forall l, In l candidates <-> In l ls /\ exact_candidate cfg ext l)
  /\ ((forall x, In x ls -> ~ cross_referenced fmt ext x) ->
      (forall l, candidates = [l] ->
                 r = ExactMatcher._validate_exact_match fmt cfg ext l)
      /\ ((2 <= length candidates)%nat ->
          matched r = false /\ match_score r = 0%Q /\ ledger_txn_id r = None
          /\ mismatch_reason r = Some "Multiple exact amount matches found")
      /\ (candidates = [] ->
          matched r = false /\ match_score r = 0%Q /\ ledger_txn_id r = None
          /\ mismatch_reason r = Some "No exact match found"))
  /\ (forall l,
        let v := ExactMatcher._validate_exact_match fmt cfg ext l in
        ledger_txn_id v = Some (id l)
        /\ (~ (ext_amount ext == amount l)%Q ->
            matched v = false /\ match_score v = 0%Q
            /\ mismatch_reason v
               = Some ("Amount mismatch: external=" ++ str_decimal fmt (ext_amount ext)
                       ++ ", ledger=" ++ str_decimal fmt (amount l))%string)
        /\ ((ext_amount ext == amount l)%Q ->
            ext_currency ext <> currency l ->
            matched v = false /\ match_score v = 0%Q
            /\ mismatch_reason v
               = Some ("Currency mismatch: external=" ++ ext_currency ext
                       ++ ", ledger=" ++ currency l)%string)
        /\ ((ext_amount ext == amount l)%Q ->
            ext_currency ext = currency l ->
            ~ within_tolerance cfg ext l ->
            matched v = false /\ match_score v = 0%Q
            /\ mismatch_reason v
               = Some ("Timestamp outside tolerance: diff="
                       ++ str_float fmt
                            (total_seconds (Z.abs (timestamp l - ext_timestamp ext)))
                       ++ "s")%string)
        /\ ((ext_amount ext == amount l)%Q ->
            ext_currency ext = currency l ->
            within_tolerance cfg ext l ->
            matched v = true /\ match_score v = 1%Q /\ mismatch_reason v = None)).
Proof.
  intros r candidates. subst r candidates. split_and!.
  - intros pre l post -> Hl Hpre. unfold ExactMatcher.match_.
    rewrite find_exact_id_match_first; [reflexivity|apply id_match_iff, Hl|].
    intros x Hx. eapply not_true_false; [apply id_match_iff|apply Hpre, Hx].
  - intros l. rewrite List.filter_In, amount_match_iff. reflexivity.
  - intros Hnone. unfold ExactMatcher.match_.
    rewrite find_exact_id_match_none, find_exact_amount_matches_filter.
    2:{ intros x Hx. eapply not_true_false; [apply id_match_iff|apply Hnone, Hx]. }
    split_and!.
    + intros l ->. reflexivity.
    + destruct (List.filter _ ls) as [|a [|b rest]]; cbn [length]; [lia|lia|].
      intros _. split_and!; reflexivity.
    + intros ->. split_and!; reflexivity.
  - intros l v. subst v. unfold ExactMatcher._validate_exact_match, within_tolerance.
    destruct (Qeq_bool (ext_amount ext) (amount l)) eqn:Ea; cbn [negb].
    2:{ apply Qeq_bool_neq in Ea.
        split_and!; intros; first [contradiction|split_and?; reflexivity]. }
    apply Qeq_bool_iff in Ea.
    destruct (String.eqb_spec (ext_currency ext) (currency l)) as [Ec|Ec]; cbn [negb].
    2:{ split_and!; intros; first [contradiction|split_and?; reflexivity]. }
    destruct (py_gt _ _) eqn:Et.
    + apply seconds_gt_iff in Et.
      split_and!; intros; first [contradiction|split_and?; reflexivity|lia].
    + apply not_true_iff_false in Et. rewrite seconds_gt_iff in Et.
      split_and!; intros; first [contradiction|split_and?; reflexivity|lia].
Qed.

(* The fuzzy matcher *)

(** Unequal amounts whose average is not zero are never scored: the
    quotient or the difference of a Decimal and a float raises. *)
Lemma amount_similarity_unequal_raises cfg a b :
  ~ (a == b)%Q -> ~ (a + b == 0)%Q ->
  exists msg, FuzzyMatcher._calculate_amount_similarity cfg a b = inl (TypeError msg).
Proof.
  intros Hne Hsum. unfold FuzzyMatcher._calculate_amount_similarity.
  unfold py_eq. cbn [qval].
  destruct (Qeq_bool a b) eqn:E; [apply Qeq_bool_iff in E; contradiction|].
  cbn. change (is_zero (inject_Z 2)) with false.
  change (is_zero (inject_Z 100)) with false.
  unfold mbind, result_bind, ret, raise. cbn [qval].
  destruct (Qeq_bool ((a + b) / inject_Z 2) (inject_Z 0)) eqn:E0.
  { apply Qeq_bool_iff in E0. exfalso. apply Hsum.
    change (inject_Z 2) with 2%Q in E0. change (inject_Z 0) with 0%Q in E0.
    assert (H : (a + b == (a + b) / 2 * 2)%Q) by (field; discriminate).
    rewrite H, E0. reflexivity. }
  unfold is_zero. change 0%Q with (inject_Z 0). rewrite E0.
  destruct (py_le _ _); cbn; eexists; reflexivity.
Qed.

(** C8. The amount similarity is 1 at difference zero, but for a
    difference within the tolerance and for one outside it the code
    raises [TypeError] instead of returning a similarity. *)
Theorem amount_similarity_raises :
  FuzzyMatcher._calculate_amount_similarity recon_settings 100 100 = inr (NFloat 1)
  /\ FuzzyMatcher._calculate_amount_similarity recon_settings (10005 # 100) 100
     = inl (TypeError
              "unsupported operand type(s) for /: 'decimal.Decimal' and 'float'")
  /\ FuzzyMatcher._calculate_amount_similarity recon_settings 200 100
     = inl (TypeError
              "unsupported operand type(s) for -: 'float' and 'decimal.Decimal'").
Proof. split_and!; vm_compute; reflexivity. Qed.

(** C7. With the default weights and tolerances, an external 100.05
    USD is not scored against a ledger 100.00, whether the ledger
    currency is USD (where a score in [0, 1] is expected) or EUR
    (where the score 0 is expected): the score computation raises. *)
Theorem match_score_raises ratio fmt :
  FuzzyMatcher._calculate_match_score ratio fmt recon_settings
    Scenarios.near_external Scenarios.usd_100
  = inl (TypeError "unsupported operand type(s) for /: 'decimal.Decimal' and 'float'")
  /\ FuzzyMatcher._calculate_match_score ratio fmt recon_settings
       Scenarios.near_external Scenarios.eur_100
     = inl (TypeError "unsupported operand type(s) for /: 'decimal.Decimal' and 'float'").
Proof. split; vm_compute; reflexivity. Qed.

Lemma inject_Z_pos_nonzero T : 0 < T -> is_zero (inject_Z T) = false.
Proof.
  intros H. unfold is_zero. apply not_true_iff_false. rewrite Qeq_bool_iff.
  unfold Qeq, inject_Z. cbn. lia.
Qed.

(** The timestamp similarity computed by the code is the one of the
    specification. *)
Lemma timestamp_similarity_value cfg e l :
  0 < timestamp_tolerance_seconds cfg ->
  exists s,
    FuzzyMatcher._calculate_timestamp_similarity cfg e l = inr (NFloat s)
    /\ (s == time_sim (inject_Z (timestamp_tolerance_seconds cfg))
              (total_seconds (Z.abs (e - l))))%Q.
Proof.
  intros HT. unfold FuzzyMatcher._calculate_timestamp_similarity, time_sim.
  set (T := timestamp_tolerance_seconds cfg) in *.
  unfold py_le, py_gt, py_lt, total_seconds. cbn [py_abs qval Qabs].
  destruct (Qle_bool (Z.abs (e - l) # 1000000) (inject_Z T)) eqn:E1.
  - cbn. rewrite (inject_Z_pos_nonzero T HT). cbn. eexists. split; [reflexivity|]. 
    field. unfold Qeq, inject_Z. cbn. lia.
  - cbn.
    assert (Hm : (inject_Z (T * 10) == 10 * inject_Z T)%Q)
      by (rewrite inject_Z_mult; change (inject_Z 10) with 10%Q; ring).
    assert (Hs : (inject_Z (T * 10 - T) == 10 * inject_Z T - inject_Z T)%Q).
    { unfold Z.sub. rewrite inject_Z_plus, inject_Z_opp, Hm. ring. }
    assert (Hb : Qle_bool (Z.abs (e - l) # 1000000) (inject_Z (T * 10))
                 = Qle_bool (Z.abs (e - l) # 1000000) (10 * inject_Z T)).
    { apply eq_true_iff_eq. rewrite !Qle_bool_iff, Hm. reflexivity. }
    rewrite Hb.
    destruct (Qle_bool (Z.abs (e - l) # 1000000) (10 * inject_Z T)); cbn.
    + rewrite (inject_Z_pos_nonzero (T * 10 - T)) by lia. cbn.
      eexists. split; [reflexivity|]. rewrite Hs. reflexivity.
    + eexists. split; reflexivity.
Qed.

Lemma time_sim_bounds T d : (0 < T)%Q -> (0 <= d)%Q -> (0 <= time_sim T d <= 1)%Q.
Proof.
  intros HT Hd. unfold time_sim.
  destruct (Qle_bool d T) eqn:E1.
  - apply Qle_bool_iff in E1.
    assert (H0 : (0 <= d / T)%Q) by (apply Qle_shift_div_l; lra).
    assert (H1 : (d / T <= 1)%Q) by (apply Qle_shift_div_r; lra).
    lra.
  - apply not_true_iff_false in E1. rewrite Qle_bool_iff in E1.
    cbv zeta. destruct (Qle_bool d (10 * T)) eqn:E2; [|lra].
    apply Qle_bool_iff in E2.
    assert (H0 : (0 <= (d - T) / (10 * T - T))%Q) by (apply Qle_shift_div_l; lra).
    assert (H1 : ((d - T) / (10 * T - T) <= 1)%Q) by (apply Qle_shift_div_r; lra).
    lra.
Qed.

(** The similarity of the specification never grows with the
    difference, across both branches and their boundaries. *)
Lemma time_sim_antitone T d1 d2 :
  (0 < T)%Q -> (0 <= d1)%Q -> (d1 <= d2)%Q -> (time_sim T d2 <= time_sim T d1)%Q.
Proof.
  intros HT H1 H12.
  assert (Hdiv : forall a b c, (0 < c)%Q -> (a <= b)%Q -> (a / c <= b / c)%Q).
  { intros a b c Hc Hab. unfold Qdiv. apply Qmult_le_compat_r; [exact Hab|].
    apply Qlt_le_weak, Qinv_lt_0_compat, Hc. }
  pose proof (time_sim_bounds T d1 HT H1) as B1.
  assert (H2 : (0 <= d2)%Q) by lra.
  pose proof (time_sim_bounds T d2 HT H2) as B2.
  unfold time_sim in *. cbv zeta in *.
  destruct (Qle_bool d2 T) eqn:E2.
  - apply Qle_bool_iff in E2.
    assert (E1 : Qle_bool d1 T = true) by (apply Qle_bool_iff; lra).
    rewrite E1. pose proof (Hdiv d1 d2 T HT H12). lra.
  - apply not_true_iff_false in E2. rewrite Qle_bool_iff in E2.
    destruct (Qle_bool d2 (10 * T)) eqn:E3.
    + apply Qle_bool_iff in E3.
      destruct (Qle_bool d1 T) eqn:E1.
      * apply Qle_bool_iff in E1.
        assert (Ha : (d1 / T <= 1)%Q) by (apply Qle_shift_div_r; lra).
        assert (Hb : (0 <= (d2 - T) / (10 * T - T))%Q)
          by (apply Qle_shift_div_l; lra).
        lra.
      * apply not_true_iff_false in E1. rewrite Qle_bool_iff in E1.
        assert (E4 : Qle_bool d1 (10 * T) = true) by (apply Qle_bool_iff; lra).
        rewrite E4.
        assert (Hc : (0 < 10 * T - T)%Q) by lra.
        pose proof (Hdiv (d1 - T) (d2 - T) (10 * T - T) Hc ltac:(lra))%Q. lra.
    + destruct (Qle_bool d1 T); [lra|]. destruct (Qle_bool d1 (10 * T)); lra.
Qed.

(** X22. The timestamp similarity is returned for every pair of
    timestamps when the tolerance is positive, lies between 0 and 1,
    and for a fixed ledger timestamp an external timestamp that is no
    farther away scores no less. *)
Theorem timestamp_similarity_monotone cfg l e1 e2 :
  0 < timestamp_tolerance_seconds cfg ->
  Z.abs (e1 - l) <= Z.abs (e2 - l) ->
  exists s1 s2,
    FuzzyMatcher._calculate_timestamp_similarity cfg e1 l = inr (NFloat s1)
    /\ FuzzyMatcher._calculate_timestamp_similarity cfg e2 l = inr (NFloat s2)
    /\ (s2 <= s1)%Q /\ (0 <= s2)%Q /\ (s1 <= 1)%Q.
Proof.
  intros HT Hle.
  destruct (timestamp_similarity_value cfg e1 l HT) as (s1 & E1 & V1).
  destruct (timestamp_similarity_value cfg e2 l HT) as (s2 & E2 & V2).
  exists s1, s2. split; [exact E1|]. split; [exact E2|].
  assert (HTq : (0 < inject_Z (timestamp_tolerance_seconds cfg))%Q).
  { unfold Qlt, inject_Z. cbn. lia. }
  assert (D1 : (0 <= total_seconds (Z.abs (e1 - l)))%Q).
  { unfold Qle, total_seconds. cbn. lia. }
  assert (D12 : (total_seconds (Z.abs (e1 - l)) <= total_seconds (Z.abs (e2 - l)))%Q).
  { unfold Qle, total_seconds. cbn. lia. }
  pose proof (time_sim_antitone _ _ _ HTq D1 D12) as Hm.
  pose proof (time_sim_bounds _ _ HTq D1) as B1.
  pose proof (time_sim_bounds _ (total_seconds (Z.abs (e2 - l))) HTq ltac:(lra)) as B2.
  rewrite V1, V2. lra.
Qed.

(* What holds of a score that is returned *)

Lemma amount_similarity_returned cfg a b x :
  FuzzyMatcher._calculate_amount_similarity cfg a b = inr x ->
  x = NFloat 1 \/ x = NFloat 0.
Proof.
  unfold FuzzyMatcher._calculate_amount_similarity.
  unfold py_eq. cbn [qval].
  destruct (Qeq_bool a b); [intros [= <-]; left; reflexivity|].
  cbn. change (is_zero (inject_Z 2)) with false.
  change (is_zero (inject_Z 100)) with false.
  unfold mbind, result_bind, ret, raise. cbn [qval].
  destruct (Qeq_bool ((a + b) / inject_Z 2) (inject_Z 0)) eqn:E0;
    [intros [= <-]; right; reflexivity|].
  unfold is_zero. change 0%Q with (inject_Z 0). rewrite E0.
  destruct (py_le _ _); cbn; discriminate.
Qed.

Lemma weighted_mean_bounds l :
  Forall unit_interval l ->
  (0 <= FuzzyMatcher.Qsum (map (fun s => s * s) l) <= FuzzyMatcher.Qsum l)%Q
  /\ (0 <= FuzzyMatcher.Qsum l)%Q.
Proof.
  unfold FuzzyMatcher.Qsum.
  induction 1 as [|x l [Hx0 Hx1] _ IH]; cbn; [lra|].
  destruct IH as [[IH0 IH1] IH2].
  assert (0 <= x * x)%Q by (apply Qmult_le_0_compat; lra).
  assert (x * x <= x)%Q.
  { assert (0 <= x * (1 - x))%Q by (apply Qmult_le_0_compat; lra). lra. }
  lra.
Qed.

Lemma field_similarity_bounds ratio fmt vs q :
  (forall a b, unit_interval (ratio a b)) ->
  FuzzyMatcher.field_similarity ratio fmt vs = Some q -> unit_interval q.
Proof.
  intros Hr. unfold FuzzyMatcher.field_similarity.
  destruct (_ || _)%bool; [discriminate|].
  destruct (String.eqb _ _); intros [= <-]; [unfold unit_interval; lra|apply Hr].
Qed.

Lemma reference_similarity_bounds fmt ext led :
  unit_interval (FuzzyMatcher._compare_transaction_references fmt ext led).
Proof.
  unfold FuzzyMatcher._compare_transaction_references, unit_interval.
  repeat match goal with
         | |- context [if ?b then _ else _] => destruct b
         | |- context [match ?x with _ => _ end] => destruct x
         end; lra.
Qed.

Lemma metadata_similarity_bounds ratio fmt ext led :
  (forall a b, unit_interval (ratio a b)) ->
  unit_interval (FuzzyMatcher._calculate_metadata_similarity ratio fmt ext led).
Proof.
  intros Hr. unfold FuzzyMatcher._calculate_metadata_similarity.
  set (descs := match description ext, FuzzyMatcher.ledger_description led with
                | Some (String c d), Some (String c' d') => _
                | _, _ => []
                end).
  set (fields := omap _ _).
  set (ref := FuzzyMatcher._compare_transaction_references fmt ext led).
  assert (Hd : Forall unit_interval descs).
  { subst descs. unfold FuzzyMatcher.ledger_description.
    destruct (description ext) as [[|c d]|]; constructor. }
  assert (Hf : Forall unit_interval fields).
  { subst fields. generalize (map_to_list (map_zip (ext_metadata ext) (metadata led))).
    intros kvs. induction kvs as [|kv kvs IH]; cbn; [constructor|].
    destruct (FuzzyMatcher.field_similarity ratio fmt kv.2) eqn:E; [|exact IH].
    constructor; [|exact IH]. eapply field_similarity_bounds; eauto. }
  assert (Hall : Forall unit_interval
                   (if py_gt (NFloat ref) (NInt 0)
                    then ((descs ++ fields) ++ [ref])%list
                    else (descs ++ fields)%list)).
  { destruct (py_gt _ _).
    - apply Forall_app_2; [apply Forall_app_2; assumption|].
      constructor; [apply reference_similarity_bounds|constructor].
    - apply Forall_app_2; assumption. }
  destruct (if py_gt (NFloat ref) (NInt 0) then _ else _) as [|x l] eqn:El;
    [unfold unit_interval; lra|].
  pose proof (weighted_mean_bounds _ Hall) as [[H0 H1] H2].
  unfold py_gt, py_lt. cbn [qval].
  destruct (Qle_bool (FuzzyMatcher.Qsum (x :: l)) (inject_Z 0)) eqn:E; cbn [negb];
    [unfold unit_interval; lra|].
  apply not_true_iff_false in E. rewrite Qle_bool_iff in E.
  change (inject_Z 0) with 0%Q in E.
  split; [apply Qle_shift_div_l; lra|apply Qle_shift_div_r; lra].
Qed.

(** X23. With weights that are not negative and sum to 1, a
    positive timestamp tolerance and a string similarity in [0, 1],
    a match score that is returned lies in [0, 1] and is 0 when the
    currencies differ. *)
Theorem match_score_bounds_when_returned ratio fmt cfg ext led wa wt wm s :
  (forall a b, (0 <= ratio a b <= 1)%Q) ->
  fuzzy_weights cfg !! "amount" = Some wa ->
  fuzzy_weights cfg !! "timestamp" = Some wt ->
  fuzzy_weights cfg !! "metadata" = Some wm ->
  (0 <= wa)%Q -> (0 <= wt)%Q -> (0 <= wm)%Q -> (wa + wt + wm == 1)%Q ->
  0 < timestamp_tolerance_seconds cfg ->
  FuzzyMatcher._calculate_match_score ratio fmt cfg ext led = inr s ->
  (0 <= qval s <= 1)%Q
  /\ (ext_currency ext <> currency led -> qval s == 0)%Q.
Proof.
  intros Hr Ha Ht Hm Hwa Hwt Hwm Hsum HT.
  unfold FuzzyMatcher._calculate_match_score, FuzzyMatcher.weight.
  rewrite Ha, Ht, Hm. unfold mbind, result_bind.
  destruct (FuzzyMatcher._calculate_amount_similarity cfg (ext_amount ext) (amount led))
    as [e|x] eqn:Eamt; [discriminate|].
  apply amount_similarity_returned in Eamt.
  destruct (timestamp_similarity_value cfg (ext_timestamp ext) (timestamp led) HT)
    as (ts & Ets & Vts).
  rewrite Ets.
  assert (Hts : (0 <= ts <= 1)%Q).
  { rewrite Vts. apply time_sim_bounds.
    - unfold Qlt, inject_Z. cbn. lia.
    - unfold Qle, total_seconds. cbn. lia. }
  pose proof (metadata_similarity_bounds ratio fmt ext led Hr) as Hms.
  unfold unit_interval in Hms.
  set (ms := FuzzyMatcher._calculate_metadata_similarity ratio fmt ext led) in *.
  assert (Hp1 : (0 <= ts * wt <= wt)%Q).
  { split; [apply Qmult_le_0_compat; lra|].
    assert (0 <= (1 - ts) * wt)%Q by (apply Qmult_le_0_compat; lra). lra. }
  assert (Hp2 : (0 <= ms * wm <= wm)%Q).
  { split; [apply Qmult_le_0_compat; lra|].
    assert (0 <= (1 - ms) * wm)%Q by (apply Qmult_le_0_compat; lra). lra. }
  destruct Eamt as [-> | ->]; cbn;
    destruct (String.eqb_spec (ext_currency ext) (currency led)) as [Ec|Ec];
    intros [= <-]; cbn [qval]; (split; [|intros Hne; try contradiction]); lra.
Qed.

(* The theorems with hypotheses, at concrete inputs *)

(** S4: two ledger transactions of the same amount within five
    minutes, and no cross-reference. *)
Lemma exact_match_decision_witness :
  (forall x, In x Scenarios.s4_ledger ->
             ~ cross_referenced Scenarios.plain_fmt Scenarios.s4_external x)
  /\ (2 <= length (List.filter
                     (ExactMatcher.amount_match recon_settings Scenarios.s4_external)
                     Scenarios.s4_ledger))%nat
  /\ mismatch_reason (ExactMatcher.match_ Scenarios.plain_fmt recon_settings
                        Scenarios.s4_external Scenarios.s4_ledger)
     = Some "Multiple exact amount matches found".
Proof.
  assert (H0 : forall x, In x Scenarios.s4_ledger ->
                         ~ cross_referenced Scenarios.plain_fmt Scenarios.s4_external x).
  { intros x [ <- | [ <- | [] ] ] [H|H]; vm_compute in H; discriminate H. }
  assert (H2 : (2 <= length (List.filter
                               (ExactMatcher.amount_match recon_settings
                                  Scenarios.s4_external)
                               Scenarios.s4_ledger))%nat).
  { vm_compute. lia. }
  split; [exact H0|]. split; [exact H2|].
  pose proof (exact_match_decision Scenarios.plain_fmt recon_settings
                Scenarios.s4_external Scenarios.s4_ledger) as H.
  cbv zeta in H. destruct H as (_ & _ & F & _).
  destruct (F H0) as (_ & G & _).
  exact (proj2 (proj2 (proj2 (G H2)))).
Defined.


End ReconProofs.

(* ================================================================== *)
(** ** Further properties of the ledger                                *)
(* ================================================================== *)

Module LedgerExtra.
Import Py Storage Ledger Http LedgerApi LedgerProofs.

(* Calls in a world without storage faults *)

Lemma validate_transfer_quiet fmt cfg t db n c :
  CommandProcessor.validate_transfer fmt cfg t
    {| store := db; next_uuid := n; clock := c; faults := [] |}
  = (inr {| valid := Nat.eqb (length (expected_errors fmt cfg db t)) 0;
            errors := expected_errors fmt cfg db t |},
     {| store := db; next_uuid := n; clock := c; faults := [] |}).
Proof.
  destruct (CommandProcessor.validate_transfer fmt cfg t
              {| store := db; next_uuid := n; clock := c; faults := [] |})
    as [[e|v] w'] eqn:H.
  - exfalso. revert H.
    unfold CommandProcessor.validate_transfer, AccountRepository.exists_,
      AccountRepository.get_by_id.
    unfold_m. cbn.
    destruct (accounts db !! tr_source_account_id t) eqn:Es;
      destruct (accounts db !! tr_destination_account_id t) eqn:Ed; cbn;
      rewrite ?Es, ?Ed; cbn; discriminate.
  - pose proof (validate_transfer_reads fmt cfg t
                  {| store := db; next_uuid := n; clock := c; faults := [] |}) as R.
    rewrite H in R. cbn in R. destruct R as (Rs & Rn & Rc).
    pose proof H as H'. apply validate_transfer_returns in H'.
    destruct H' as (_ & _ & _ & He & Hv). cbn in He.
    assert (Hf : faults w' = []).
    { revert H.
      unfold CommandProcessor.validate_transfer, AccountRepository.exists_,
        AccountRepository.get_by_id.
      unfold_m. cbn.
      destruct (accounts db !! tr_source_account_id t) eqn:Es;
        destruct (accounts db !! tr_destination_account_id t) eqn:Ed; cbn;
        rewrite ?Es, ?Ed; cbn; intros [= _ <-]; reflexivity. }
    destruct w' as [s' n' c' f']. cbn in *. subst. destruct v as [vv ve]. cbn in *.
    subst. reflexivity.
Qed.

(** X1. When no storage call fails, [transfer_funds] is decided by the
    request and the store alone: the validation errors if any rule is
    violated; otherwise "Insufficient funds" unless overdraft is
    allowed or the source row holds at least the amount (a source
    without a balance row cannot pay); otherwise the two events and
    the two balance rows. A request whose metadata is null passes all
    checks and then raises, leaving the store as it was. *)
Theorem transfer_funds_quiet fmt cfg t db n c :
  let w := {| store := db; next_uuid := n; clock := c; faults := [] |} in
  LedgerService.transfer_funds fmt cfg t w
  = match expected_errors fmt cfg db t with
    | _ :: _ => (inr (TransferFailed (expected_errors fmt cfg db t)), w)
    | [] =>
        if funded cfg db t then
          match tr_metadata t with
          | Some md =>
              (inr (TransferOk n [debit_event w t md; credit_event w t md]
                      [source_row w t; destination_row w t]),
               {| store := after_transfer w t md;
                  next_uuid := N.succ (N.succ (N.succ n));
                  clock := c;
                  faults := [] |})
          | None =>
              (inl (ValueError "metadata: none is not an allowed value"),
               {| store := db; next_uuid := N.succ (N.succ n); clock := c; faults := [] |})
          end
        else (inr (TransferFailed ["Insufficient funds"]), w)
    end.
Proof.
  intros w. subst w. unfold LedgerService.transfer_funds.
  unfold mbind at 1. unfold M_bind. rewrite validate_transfer_quiet. cbn [valid errors].
  destruct (expected_errors fmt cfg db t) as [|m ms] eqn:Hexp; [|reflexivity].
  cbn [length Nat.eqb negb].
  pose proof (no_errors_distinct _ _ _ _ Hexp) as Hne'.
  assert (Hne : N.eqb (tr_source_account_id t) (tr_destination_account_id t) = false)
    by (apply N.eqb_neq; exact Hne').
  unfold DatabaseManager.get_transaction, CommandProcessor.validate_sufficient_funds,
    BalanceRepository.check_sufficient_funds, EventStore.create_transfer_events,
    EventRepository.create_event, ProjectionEngine.project_events_to_balances, funded.
  unfold_m. cbn.
  unfold after_transfer, source_row, destination_row, upsert_row, debit_event, credit_event.
  cbn.
  destruct (tr_metadata t) as [md|] eqn:Hmd;
    destruct (balances db !! tr_source_account_id t) as [bs|] eqn:Hbs;
    destruct (balances db !! tr_destination_account_id t) as [bd|] eqn:Hbd;
    destruct (allow_overdraft cfg); cbn;
    repeat first
      [ rewrite Hne; cbn
      | progress (unfold BalanceRepository.upsert_balance; unfold_m; cbn)
      | rewrite (lookup_insert_ne _ _ _ _ Hne'); cbn
      | rewrite Hbs; cbn
      | rewrite Hbd; cbn
      | match goal with
        | |- context [py_ge (NDec ?a) (NDec ?b)] =>
            change (py_ge (NDec a) (NDec b)) with (Qle_bool b a);
            destruct (Qle_bool b a); cbn
        end ];
    rewrite <- ?app_assoc; reflexivity.
Qed.

(* The projection of an arbitrary list of events *)

Lemma entry_of_bump_same k cur f acc :
  exists u, entry_of k (ProjectionEngine.bump k cur f acc) = Some (k, u)
            /\ available_delta u = f (delta_of k acc)
            /\ pending_delta u = match entry_of k acc with
                                 | Some kv => pending_delta (snd kv)
                                 | None => 0%Q
                                 end.
Proof.
  unfold delta_of, entry_of.
  induction acc as [|[k' u'] acc IH]; cbn.
  - rewrite N.eqb_refl. eexists. split; [reflexivity|]. split; reflexivity.
  - destruct (N.eqb_spec k' k) as [->|Hne]; cbn.
    + rewrite N.eqb_refl. eexists. split; [reflexivity|]. split; reflexivity.
    + destruct (N.eqb_spec k' k); [contradiction|]. exact IH.
Qed.

Lemma entry_of_bump_other k k' cur f acc :
  k <> k' -> entry_of k' (ProjectionEngine.bump k cur f acc) = entry_of k' acc.
Proof.
  intros Hne. unfold entry_of.
  induction acc as [|[k0 u0] acc IH]; cbn.
  - destruct (N.eqb_spec k k'); [contradiction|reflexivity].
  - destruct (N.eqb_spec k0 k) as [->|H0]; cbn.
    + destruct (N.eqb_spec k k'); [contradiction|reflexivity].
    + destruct (N.eqb k0 k'); [reflexivity|exact IH].
Qed.

Lemma keys_bump k cur f acc :
  map fst (ProjectionEngine.bump k cur f acc)
  = if existsb (fun k0 => N.eqb k0 k) (map fst acc) then map fst acc
    else (map fst acc ++ [k])%list.
Proof.
  induction acc as [|[k0 u0] acc IH]; cbn; [reflexivity|].
  destruct (N.eqb k0 k); cbn; [reflexivity|].
  rewrite IH. destruct (existsb _ _); reflexivity.
Qed.

Lemma NoDup_keys_bump k cur f acc :
  List.NoDup (map fst acc) -> List.NoDup (map fst (ProjectionEngine.bump k cur f acc)).
Proof.
  intros H. rewrite keys_bump.
  destruct (existsb (fun k0 => N.eqb k0 k) (map fst acc)) eqn:E; [exact H|].
  apply List.NoDup_app; [exact H|repeat constructor; intros []|].
  intros x Hx [Ex|[]]. subst x.
  assert (existsb (fun k0 => N.eqb k0 k) (map fst acc) = true).
  { apply existsb_exists. exists k. split; [exact Hx|apply N.eqb_refl]. }
  congruence.
Qed.

Lemma net_delta_cons a e evs :
  (net_delta a (e :: evs) == net_delta a [e] + net_delta a evs)%Q.
Proof.
  unfold net_delta, Qsum. cbn [List.filter].
  destruct (is_credit e && opt_is (destination_account_id e) a)%bool;
    destruct (is_debit e && opt_is (source_account_id e) a)%bool; cbn; lra.
Qed.

Lemma opt_is_true o a : opt_is o a = true <-> o = Some a.
Proof.
  destruct o as [x|]; cbn; [|split; discriminate].
  rewrite N.eqb_eq. split; [intros ->; reflexivity|intros [= ->]; reflexivity].
Qed.

Lemma accumulate_entry a acc e :
  let acc' := ProjectionEngine.accumulate acc e in
  (delta_of a acc' == delta_of a acc + net_delta a [e])%Q
  /\ (is_Some (entry_of a acc') <-> is_Some (entry_of a acc) \/ moves a e = true)
  /\ ((forall k, match entry_of k acc with
                 | Some kv => pending_delta (snd kv) = 0%Q
                 | None => True
                 end) ->
      match entry_of a acc' with
      | Some kv => pending_delta (snd kv) = 0%Q
      | None => True
      end).
Proof.
  cbv zeta. unfold ProjectionEngine.accumulate, net_delta, moves, is_credit, is_debit, Qsum.
  cbn [List.filter].
  assert (Hsame : forall k cur f,
             (delta_of a (ProjectionEngine.bump k cur f acc)
              = if N.eqb k a then f (delta_of a acc) else delta_of a acc)
             /\ (is_Some (entry_of a (ProjectionEngine.bump k cur f acc))
                 <-> is_Some (entry_of a acc) \/ N.eqb k a = true)
             /\ ((forall k0, match entry_of k0 acc with
                             | Some kv => pending_delta (snd kv) = 0%Q
                             | None => True
                             end) ->
                 match entry_of a (ProjectionEngine.bump k cur f acc) with
                 | Some kv => pending_delta (snd kv) = 0%Q
                 | None => True
                 end)).
  { intros k cur f. destruct (N.eqb_spec k a) as [->|Hne].
    - destruct (entry_of_bump_same a cur f acc) as (u & Hu & Hd & Hp).
      split_and!.
      + unfold delta_of at 1. fold (entry_of a (ProjectionEngine.bump a cur f acc)).
        rewrite Hu. exact Hd.
      + rewrite Hu. split; [intros _; right; reflexivity|intros _; eauto].
      + intros Hall. rewrite Hu. cbn. rewrite Hp. specialize (Hall a).
        destruct (entry_of a acc); [exact Hall|reflexivity].
    - rewrite (entry_of_bump_other k a cur f acc Hne).
      split_and!.
      + unfold delta_of. fold (entry_of a (ProjectionEngine.bump k cur f acc)).
        fold (entry_of a acc). rewrite (entry_of_bump_other k a cur f acc Hne). reflexivity.
      + split; [intros H; left; exact H|intros [H|H]; [exact H|discriminate]].
      + intros Hall. apply Hall. }
  destruct (event_type e) eqn:Ety.
  - (* DEBIT *)
    destruct (source_account_id e) as [src|] eqn:Esrc; cbn [opt_is andb orb].
    + destruct (Hsame src (currency e) (fun d => d - amount e)%Q) as (Hd & Hk & Hp).
      rewrite Hd. split_and!; [|exact Hk|exact Hp].
      destruct (N.eqb src a); cbn; lra.
    + split_and!; [cbn; lra|cbn; intuition congruence|intros Hall; apply Hall].
  - (* CREDIT *)
    destruct (destination_account_id e) as [dst|] eqn:Edst; cbn [opt_is andb orb].
    + assert (Hacc : ProjectionEngine.bump dst (currency e) (fun d => d + amount e)%Q acc
                     = match source_account_id e with
                       | Some _ | None =>
                           ProjectionEngine.bump dst (currency e)
                             (fun d => d + amount e)%Q acc
                       end) by (destruct (source_account_id e); reflexivity).
      destruct (Hsame dst (currency e) (fun d => d + amount e)%Q) as (Hd & Hk & Hp).
      destruct (source_account_id e);
        (rewrite Hd; split_and!;
         [destruct (N.eqb dst a); cbn; lra
         |rewrite orb_false_r; exact Hk
         |exact Hp]).
    + destruct (source_account_id e);
        (split_and!; [cbn; lra|cbn; intuition congruence|intros Hall; apply Hall]).
  - (* TRANSFER *)
    destruct (source_account_id e), (destination_account_id e);
      (split_and!; [cbn; lra|cbn; intuition congruence|intros Hall; apply Hall]).
Qed.

Lemma accumulate_keys_NoDup acc e :
  List.NoDup (map fst acc) -> List.NoDup (map fst (ProjectionEngine.accumulate acc e)).
Proof.
  intros H. unfold ProjectionEngine.accumulate.
  destruct (event_type e), (source_account_id e), (destination_account_id e);
    try exact H; apply NoDup_keys_bump, H.
Qed.

Lemma fold_accumulate evs :
  forall acc a,
    List.NoDup (map fst acc) ->
    (forall k, match entry_of k acc with
               | Some kv => pending_delta (snd kv) = 0%Q
               | None => True
               end) ->
    let acc' := fold_left ProjectionEngine.accumulate evs acc in
    List.NoDup (map fst acc')
    /\ (delta_of a acc' == delta_of a acc + net_delta a evs)%Q
    /\ (is_Some (entry_of a acc') <-> is_Some (entry_of a acc) \/ touched a evs = true)
    /\ match entry_of a acc' with
       | Some kv => pending_delta (snd kv) = 0%Q
       | None => True
       end.
Proof.
  induction evs as [|e evs IH]; intros acc a Hnd Hp; cbv zeta.
  - cbn [fold_left touched existsb]. split_and!; auto.
    + unfold net_delta, Qsum. cbn. lra.
    + intuition congruence.
    + apply Hp.
  - cbn [fold_left].
    assert (Hp' : forall k, match entry_of k (ProjectionEngine.accumulate acc e) with
                            | Some kv => pending_delta (snd kv) = 0%Q
                            | None => True
                            end).
    { intros k. destruct (accumulate_entry k acc e) as (_ & _ & H). apply H, Hp. }
    destruct (IH (ProjectionEngine.accumulate acc e) a
                (accumulate_keys_NoDup acc e Hnd) Hp') as (H1 & H2 & H3 & H4).
    destruct (accumulate_entry a acc e) as (Hd & Hk & _).
    split_and!; auto.
    + rewrite H2, Hd, (net_delta_cons a e evs). lra.
    + rewrite H3, Hk. unfold touched. cbn [existsb]. rewrite orb_true_iff. tauto.
Qed.

Lemma entry_of_key k upd kv : entry_of k upd = Some kv -> fst kv = k /\ In (fst kv) (map fst upd).
Proof.
  unfold entry_of. intros H. apply List.find_some in H. destruct H as [Hin He].
  apply N.eqb_eq in He. split; [exact He|]. apply in_map, Hin.
Qed.

(** The upserts of a dict with distinct keys, without storage faults. *)
Lemma apply_updates_quiet upd :
  List.NoDup (map fst upd) ->
  forall db n c,
    exists rows db',
      ProjectionEngine.apply_updates upd
        {| store := db; next_uuid := n; clock := c; faults := [] |}
      = (inr rows, {| store := db'; next_uuid := n; clock := c; faults := [] |})
      /\ length rows = length upd
      /\ accounts db' = accounts db
      /\ ledger_events db' = ledger_events db
      /\ forall a,
           balances db' !! a
           = match entry_of a upd with
             | Some kv =>
                 Some (upsert_row (balances db) a (bu_currency (snd kv))
                         (available_delta (snd kv)) (pending_delta (snd kv)) c)
             | None => balances db !! a
             end.
Proof.
  induction upd as [|[k u] upd IH]; intros Hnd db n c.
  - exists [], db. cbn. split_and!; reflexivity.
  - cbn [map fst] in Hnd. apply List.NoDup_cons_iff in Hnd. destruct Hnd as [Hk Hnd].
    cbn [ProjectionEngine.apply_updates].
    unfold BalanceRepository.upsert_balance. unfold_m. cbn.
    fold (upsert_row (balances db) k (bu_currency u) (available_delta u)
            (pending_delta u) c).
    set (row := upsert_row (balances db) k (bu_currency u) (available_delta u)
                  (pending_delta u) c).
    destruct (IH Hnd {| accounts := accounts db;
                        balances := <[k := row]> (balances db);
                        ledger_events := ledger_events db |} n c)
      as (rows & db' & Hrun & Hlen & Ha & He & Hb).
    unfold mbind, M_bind in Hrun. rewrite Hrun. cbn.
    exists (row :: rows), db'. split_and!; auto.
    + cbn. rewrite Hlen. reflexivity.
    + intros a. rewrite Hb. cbn [balances]. unfold entry_of. cbn [List.find fst snd].
      fold (entry_of a upd).
      destruct (N.eqb_spec k a) as [->|Hne].
      * destruct (entry_of a upd) as [kv|] eqn:E.
        { apply entry_of_key in E. destruct E as [E1 E2]. rewrite E1 in E2. contradiction. }
        rewrite lookup_insert_eq. reflexivity.
      * destruct (entry_of a upd) as [kv|] eqn:E.
        { unfold upsert_row. rewrite lookup_insert_ne by exact Hne. reflexivity. }
        rewrite lookup_insert_ne by exact Hne. reflexivity.
Qed.

(** X2. Without storage faults, projecting any list of events adds to
    the available balance of every account the CREDIT amounts sent to
    it minus the DEBIT amounts taken from it, whatever the status of
    the events; TRANSFER events and events without the relevant
    account move nothing. An account moved by several events is
    upserted once: its version advances by one, its pending balance
    stays, and accounts no event moves keep their row. *)
Theorem projection_applies_net_deltas events db n c :
  exists rows db',
    ProjectionEngine.project_events_to_balances events
      {| store := db; next_uuid := n; clock := c; faults := [] |}
    = (inr rows, {| store := db'; next_uuid := n; clock := c; faults := [] |})
    /\ accounts db' = accounts db
    /\ ledger_events db' = ledger_events db
    /\ forall a,
         (stored_available db' a == stored_available db a + net_delta a events)%Q
         /\ (stored_pending db' a == stored_pending db a)%Q
         /\ stored_version db' a
            = (if touched a events then Some (bumped (stored_version db a))
               else stored_version db a)
         /\ (touched a events = false -> balances db' !! a = balances db !! a).
Proof.
  unfold ProjectionEngine.project_events_to_balances.
  assert (Hnil : forall k, match entry_of k [] with
                           | Some kv => pending_delta (snd kv) = 0%Q
                           | None => True
                           end) by (intros k; exact I).
  pose proof (fun a => fold_accumulate events [] a (List.NoDup_nil _) Hnil) as Hfold.
  cbv zeta in Hfold.
  set (upd := fold_left ProjectionEngine.accumulate events []) in *.
  destruct (apply_updates_quiet upd (proj1 (Hfold 0%N)) db n c)
    as (rows & db' & Hrun & _ & Ha & He & Hb).
  exists rows, db'. split_and!; auto.
  intros a. destruct (Hfold a) as (_ & Hd & Hk & Hp).
  unfold stored_available, stored_pending, stored_version. rewrite Hb.
  unfold delta_of in Hd. cbn [entry_of List.find] in Hd, Hk.
  destruct (entry_of a upd) as [kv|] eqn:E.
  - assert (Ht : touched a events = true).
    { destruct Hk as [Hk _]. destruct (Hk ltac:(eauto)) as [[x Hx]|Ht];
        [discriminate Hx|exact Ht]. }
    rewrite Ht. unfold upsert_row. rewrite Hp.
    destruct (balances db !! a) as [b|]; cbn; split_and!;
      try reflexivity; try lra; discriminate.
  - assert (Ht : touched a events = false).
    { destruct (touched a events) eqn:Ht; [|reflexivity].
      destruct Hk as [_ Hk]. destruct (Hk (or_intror eq_refl)) as [x Hx]. discriminate Hx. }
    rewrite Ht. split_and!; [|reflexivity|reflexivity|intros _; reflexivity].
    destruct (balances db !! a); lra.
Qed.

(* Balance rows along a history *)

Lemma rows_advance_refl db : rows_advance db db.
Proof. intros a b H. exists b. split_and!; auto. lia. Qed.

Lemma rows_advance_trans db1 db2 db3 :
  rows_advance db1 db2 -> rows_advance db2 db3 -> rows_advance db1 db3.
Proof.
  intros H1 H2 a b Hb.
  destruct (H1 a b Hb) as (b2 & Hb2 & Hc2 & Hv2 & He2).
  destruct (H2 a b2 Hb2) as (b3 & Hb3 & Hc3 & Hv3 & He3).
  exists b3. split_and!; [exact Hb3|congruence|lia|].
  intros Hv. transitivity b2; [apply He3; lia|apply He2; lia].
Qed.

Lemma rows_advance_same db db' : balances db' = balances db -> rows_advance db db'.
Proof.
  intros E a b Hb. exists b. rewrite E. split_and!; auto. lia.
Qed.

Lemma rows_advance_upsert db db' k cur dav dpe t :
  balances db' = <[k := upsert_row (balances db) k cur dav dpe t]> (balances db) ->
  rows_advance db db'.
Proof.
  intros E a b Hb. rewrite E.
  destruct (N.eq_dec k a) as [<-|Hne].
  - rewrite lookup_insert_eq. eexists. split; [reflexivity|].
    unfold upsert_row. rewrite Hb. cbn. split_and!; [reflexivity|lia|lia].
  - rewrite lookup_insert_ne by exact Hne. exists b. split_and!; auto. lia.
Qed.

Lemma rows_advance_step fmt cfg w o : rows_advance (store w) (store (step fmt cfg w o)).
Proof.
  destruct o as [a|t]; cbn [step].
  - destruct (LedgerService.create_account a w) as [r w'] eqn:Hrun.
    apply create_account_cases in Hrun. destruct Hrun as (_ & _ & Hr). cbn [snd].
    destruct r as [e|acc].
    + apply rows_advance_same, Hr.
    + destruct Hr as (_ & _ & _ & Hb). eapply rows_advance_upsert, Hb.
  - destruct (LedgerService.transfer_funds fmt cfg t w) as [r w'] eqn:Hrun.
    apply transfer_funds_cases in Hrun. destruct Hrun as (_ & _ & Hr). cbn [snd].
    destruct r as [e|[tid evs bals|errs]];
      try (apply rows_advance_same; rewrite Hr; reflexivity).
    destruct Hr as (md & _ & Hexp & _ & _ & _ & Hst & _).
    pose proof (no_errors_distinct _ _ _ _ Hexp) as Hne.
    rewrite Hst.
    apply rows_advance_trans with
      (db2 := {| accounts := accounts (store w);
                 balances := <[tr_source_account_id t := source_row w t]>
                               (balances (store w));
                 ledger_events := ledger_events (store w) |}).
    + eapply rows_advance_upsert. reflexivity.
    + eapply rows_advance_upsert with (cur := tr_currency t) (dav := (0 + tr_amount t)%Q)
                                      (dpe := 0%Q) (t := clock w).
      cbn [after_transfer balances]. unfold destination_row, upsert_row.
      rewrite lookup_insert_ne by exact Hne. reflexivity.
Qed.

(** X3. Along any history of account creations and transfers, from
    any store and whatever storage calls fail, a balance row is never
    deleted, never changes its currency and never goes back to a lower
    version; and a row whose version is unchanged is unchanged, so that
    the version tells a reader whether a balance moved. *)
Theorem balance_rows_advance fmt cfg ops w :
  rows_advance (store w) (store (run fmt cfg ops w)).
Proof.
  revert w. induction ops as [|o ops IH]; intros w; cbn.
  - apply rows_advance_refl.
  - eapply rows_advance_trans; [apply rows_advance_step|apply IH].
Qed.

(* Sums over all balance rows *)

Lemma Qsum_Permutation l1 l2 : l1 ≡ₚ l2 -> (Qsum l1 == Qsum l2)%Q.
Proof.
  unfold Qsum. induction 1; cbn; try lra.
Qed.

Lemma total_available_insert db db' k v :
  balances db' = <[k := v]> (balances db) ->
  (total_available db' == total_available db - stored_available db k + available_balance v)%Q.
Proof.
  intros E. unfold total_available, stored_available. rewrite E.
  destruct (balances db !! k) as [old|] eqn:Hk.
  - rewrite <- (insert_delete_eq (balances db)).
    rewrite (Qsum_Permutation _ _
               (Permutation_map _ (map_to_list_insert (delete k (balances db)) k v
                                     (lookup_delete_eq _ _)))).
    rewrite <- (Qsum_Permutation _ _
                  (Permutation_map (fun kv => available_balance (snd kv))
                     (map_to_list_delete (balances db) k old Hk))).
    unfold Qsum. cbn. lra.
  - rewrite (Qsum_Permutation _ _
               (Permutation_map _ (map_to_list_insert (balances db) k v Hk))).
    unfold Qsum. cbn. lra.
Qed.

Lemma total_available_step fmt cfg w o :
  (total_available (store (step fmt cfg w o)) == total_available (store w))%Q.
Proof.
  destruct o as [a|t]; cbn [step].
  - destruct (LedgerService.create_account a w) as [r w'] eqn:Hrun.
    apply create_account_cases in Hrun. destruct Hrun as (_ & _ & Hr). cbn [snd].
    destruct r as [e|acc].
    + destruct Hr as [Hb _]. unfold total_available. rewrite Hb. reflexivity.
    + destruct Hr as (_ & _ & _ & Hb).
      rewrite (total_available_insert _ _ _ _ Hb), stored_available_upsert.
      unfold stored_available. lra.
  - destruct (LedgerService.transfer_funds fmt cfg t w) as [r w'] eqn:Hrun.
    apply transfer_funds_cases in Hrun. destruct Hrun as (_ & _ & Hr). cbn [snd].
    destruct r as [e|[tid evs bals|errs]]; try (rewrite Hr; reflexivity).
    destruct Hr as (md & _ & Hexp & _ & _ & _ & Hst & _).
    pose proof (no_errors_distinct _ _ _ _ Hexp) as Hne.
    rewrite Hst.
    set (mid := {| accounts := accounts (store w);
                   balances := <[tr_source_account_id t := source_row w t]>
                                 (balances (store w));
                   ledger_events := ledger_events (store w) |}).
    rewrite (total_available_insert mid (after_transfer w t md)
               (tr_destination_account_id t) (destination_row w t) eq_refl).
    rewrite (total_available_insert (store w) mid
               (tr_source_account_id t) (source_row w t) eq_refl).
    unfold stored_available. subst mid. cbn [balances].
    rewrite lookup_insert_ne by exact Hne.
    unfold source_row, destination_row. rewrite !stored_available_upsert. lra.
Qed.

(** X4. The sum of the available balances of all rows is the same
    after any history as before it, whatever storage calls fail: a
    transfer takes from one row what it gives to the other and an
    account starts at zero. In a ledger that started empty the
    balances therefore always sum to zero. *)
Theorem total_available_is_kept fmt cfg ops :
  (forall w, (total_available (store (run fmt cfg ops w)) == total_available (store w))%Q)
  /\ (forall t fl,
        (total_available (store (run fmt cfg ops (init_world empty_db t fl))) == 0)%Q).
Proof.
  assert (H : forall w,
             (total_available (store (run fmt cfg ops w)) == total_available (store w))%Q).
  { induction ops as [|o ops IH]; intros w; cbn; [reflexivity|].
    fold (run fmt cfg ops (step fmt cfg w o)).
    rewrite IH. apply total_available_step. }
  split; [exact H|].
  intros t fl. rewrite H. unfold total_available. cbn.
  rewrite map_to_list_empty. reflexivity.
Qed.

(* Accounts, events and currencies along a history *)

Lemma step_grows fmt cfg w o :
  consistent w ->
  ledger_events (store w) `prefix_of` ledger_events (store (step fmt cfg w o))
  /\ accounts (store w) ⊆ accounts (store (step fmt cfg w o))
  /\ (next_uuid w <= next_uuid (step fmt cfg w o))%N.
Proof.
  intros (_ & _ & Hacc & _ & _).
  assert (Hfresh : accounts (store w) !! next_uuid w = None).
  { destruct (accounts (store w) !! next_uuid w) eqn:E; [|reflexivity].
    assert (H : is_Some (accounts (store w) !! next_uuid w)) by eauto.
    apply Hacc in H. lia. }
  destruct o as [a|t]; cbn [step].
  - destruct (LedgerService.create_account a w) as [r w'] eqn:Hrun.
    apply create_account_cases in Hrun. destruct Hrun as (_ & Hev & Hr). cbn [snd].
    rewrite Hev. split; [reflexivity|].
    destruct r as [e|acc].
    + destruct Hr as [_ [[-> ->]|[-> ->]]]; split; try reflexivity; try lia.
      apply insert_subseteq, Hfresh.
    + destruct Hr as (_ & -> & -> & _). split; [apply insert_subseteq, Hfresh|lia].
  - destruct (LedgerService.transfer_funds fmt cfg t w) as [r w'] eqn:Hrun.
    apply transfer_funds_cases in Hrun. destruct Hrun as (Hn & _ & Hr). cbn [snd].
    destruct r as [e|[tid evs bals|errs]];
      try (rewrite Hr; split_and!; [reflexivity|reflexivity|exact Hn]).
    destruct Hr as (md & _ & _ & _ & _ & _ & Hst & _).
    rewrite Hst. cbn. split_and!; [apply prefix_app_r; reflexivity|reflexivity|exact Hn].
Qed.

(** X5. In a ledger that started empty, a further history only adds:
    the events recorded so far stay a prefix of the log, in their
    order and unchanged, and every account keeps its row as it was
    created, since no operation updates or deletes an account. *)
Theorem history_only_grows fmt cfg ops1 ops2 t fl :
  let w := run fmt cfg ops1 (init_world empty_db t fl) in
  let w' := run fmt cfg ops2 w in
  ledger_events (store w) `prefix_of` ledger_events (store w')
  /\ accounts (store w) ⊆ accounts (store w').
Proof.
  intros w w'. subst w'.
  assert (Hw : consistent w) by apply consistent_run, consistent_init.
  clearbody w. revert w Hw.
  induction ops2 as [|o ops IH]; intros w Hw; cbn.
  - split; reflexivity.
  - fold (run fmt cfg ops (step fmt cfg w o)).
    destruct (step_grows fmt cfg w o Hw) as (H1 & H2 & _).
    assert (Hw' : consistent (step fmt cfg w o)).
    { destruct o; cbn; [apply consistent_create|apply consistent_transfer]; exact Hw. }
    destruct (IH _ Hw') as (G1 & G2).
    split; etransitivity; eauto.
Qed.

Lemma has_currency_true db a cur :
  has_currency db a cur = true ->
  exists acc, accounts db !! a = Some acc /\ acc_currency acc = cur.
Proof.
  unfold has_currency. destruct (accounts db !! a) as [acc|]; [|discriminate].
  intros H. apply String.eqb_eq in H. eauto.
Qed.

Lemma no_errors_currency fmt cfg db t :
  expected_errors fmt cfg db t = [] ->
  has_currency db (tr_source_account_id t) (tr_currency t) = true
  /\ has_currency db (tr_destination_account_id t) (tr_currency t) = true.
Proof.
  intros H.
  pose proof (no_errors _ _ _ _ H SourceCurrency) as Hs.
  pose proof (no_errors _ _ _ _ H DestinationCurrency) as Hd.
  pose proof (no_errors _ _ _ _ H SourceExists) as Es.
  pose proof (no_errors _ _ _ _ H DestinationExists) as Ed.
  cbn in Hs, Hd, Es, Ed. unfold both_exist in *.
  apply negb_false_iff in Es, Ed. rewrite Es, Ed in Hs, Hd. cbn in Hs, Hd.
  apply negb_false_iff in Hs, Hd. auto.
Qed.

Lemma currencies_agree_step fmt cfg w o :
  consistent w -> currencies_agree (store w) ->
  currencies_agree (store (step fmt cfg w o)).
Proof.
  intros Hw (Hrows & Hevs).
  pose proof (step_grows fmt cfg w o Hw) as (_ & Hsub & _).
  destruct Hw as (_ & _ & Hsup).
  pose proof (fresh_has_no_row w Hsup) as Hnorow.
  destruct Hsup as (Hacc & Hbal & _).
  assert (Hevs' : forall e a, In e (ledger_events (store w)) ->
                    source_account_id e = Some a \/ destination_account_id e = Some a ->
                    exists acc, accounts (store (step fmt cfg w o)) !! a = Some acc
                                /\ acc_currency acc = currency e).
  { intros e a He Ha. destruct (Hevs e a He Ha) as (acc & Hacc' & Hcur).
    exists acc. split; [|exact Hcur].
    eapply lookup_weaken; eauto. }
  assert (Hrows' : forall a b acc, balances (store w) !! a = Some b ->
                     accounts (store (step fmt cfg w o)) !! a = Some acc ->
                     bal_currency b = acc_currency acc).
  { intros a b acc Hb Ha.
    destruct (Hbal a ltac:(eauto)) as [acc0 Hacc0].
    pose proof (lookup_weaken _ _ _ _ Hacc0 Hsub) as E. rewrite Ha in E.
    injection E as ->. eapply Hrows; eauto. }
  revert Hsub Hevs' Hrows'.
  destruct o as [a|t]; cbn [step].
  - destruct (LedgerService.create_account a w) as [r w'] eqn:Hrun.
    apply create_account_cases in Hrun. destruct Hrun as (_ & Hev & Hr). cbn [snd].
    intros Hsub Hevs' Hrows'. split.
    + destruct r as [e|acc].
      * destruct Hr as [Hb _]. rewrite Hb. exact Hrows'.
      * destruct Hr as (_ & _ & Ha & Hb). rewrite Hb. intros k b acc0 Hk Hk'.
        destruct (N.eq_dec (next_uuid w) k) as [<-|Hne].
        { rewrite lookup_insert_eq in Hk. rewrite Ha, lookup_insert_eq in Hk'.
          injection Hk as <-. injection Hk' as <-.
          unfold upsert_row. rewrite Hnorow. reflexivity. }
        rewrite lookup_insert_ne in Hk by exact Hne. eapply Hrows'; eauto.
    + rewrite Hev. exact Hevs'.
  - destruct (LedgerService.transfer_funds fmt cfg t w) as [r w'] eqn:Hrun.
    apply transfer_funds_cases in Hrun. destruct Hrun as (_ & _ & Hr). cbn [snd].
    intros Hsub Hevs' Hrows'.
    destruct r as [e|[tid evs bals|errs]];
      try (rewrite Hr; rewrite Hr in Hevs', Hrows'; split; [exact Hrows'|exact Hevs']).
    destruct Hr as (md & _ & Hexp & _ & _ & _ & Hst & _).
    destruct (no_errors_currency _ _ _ _ Hexp) as [Hs Hd].
    apply has_currency_true in Hs, Hd.
    destruct Hs as (accs & Has & Hcs). destruct Hd as (accd & Had & Hcd).
    rewrite Hst in Hevs', Hrows' |- *. cbn [after_transfer accounts] in Hevs', Hrows'.
    split; cbn [after_transfer accounts balances ledger_events].
    + intros k b acc0 Hk Hk'.
      destruct (N.eq_dec (tr_destination_account_id t) k) as [<-|Hnd].
      { rewrite lookup_insert_eq in Hk. injection Hk as <-.
        unfold destination_row, upsert_row.
        destruct (balances (store w) !! tr_destination_account_id t) as [b0|] eqn:E; cbn.
        - eapply Hrows'; eauto.
        - congruence. }
      rewrite lookup_insert_ne in Hk by exact Hnd.
      destruct (N.eq_dec (tr_source_account_id t) k) as [<-|Hns].
      { rewrite lookup_insert_eq in Hk. injection Hk as <-.
        unfold source_row, upsert_row.
        destruct (balances (store w) !! tr_source_account_id t) as [b0|] eqn:E; cbn.
        - eapply Hrows'; eauto.
        - congruence. }
      rewrite lookup_insert_ne in Hk by exact Hns. eapply Hrows'; eauto.
    + intros e k He Hk. apply in_app_or in He. destruct He as [He|He]; [eauto|].
      cbn in He. destruct He as [<- | [<- | [] ] ]; cbn in Hk |- *;
        destruct Hk as [Hk|Hk]; try discriminate; injection Hk as <-; eauto.
Qed.

(** X6. In a ledger that started empty, currencies agree after any
    history, whatever storage calls fail: a balance row carries the
    currency of its account, and every event names an existing
    account in the account's own currency. A transfer in another
    currency than that of either account never reaches the log. *)
Theorem currencies_agree_always fmt cfg ops t fl :
  currencies_agree (store (run fmt cfg ops (init_world empty_db t fl))).
Proof.
  assert (H : forall w, consistent w -> currencies_agree (store w) ->
                        currencies_agree (store (run fmt cfg ops w))).
  { induction ops as [|o ops IH]; intros w Hw Hc; cbn; [exact Hc|].
    fold (run fmt cfg ops (step fmt cfg w o)).
    apply IH.
    - destruct o; cbn; [apply consistent_create|apply consistent_transfer]; exact Hw.
    - apply currencies_agree_step; assumption. }
  apply H; [apply consistent_init|].
  split; cbn.
  - intros a b acc Hb. rewrite lookup_empty in Hb. discriminate.
  - intros e a [].
Qed.

(* The HTTP routes *)

Lemma balance_route_quiet a db n c :
  balance_route a {| store := db; next_uuid := n; clock := c; faults := [] |}
  = (match balances db !! a with
     | Some b => Ok200 b
     | None => HTTPException 404 (Text "Account not found or balance not initialized")
     end,
     {| store := db; next_uuid := n; clock := c; faults := [] |}).
Proof.
  unfold balance_route, get_account_balance, BalanceRepository.get_balance.
  unfold_m. cbn. destruct (balances db !! a); reflexivity.
Qed.

(** X7. In a ledger that started empty, after any history: when
    [POST /account/] answers 200, the balance of the new account can
    be read and is a row of version 0 with zero available and pending
    balance in the account's currency; when it answers with an error,
    the status is 400, also for a storage failure, and the balance of
    the id that was next in line answers 404, whether or not the
    account row was written. *)
Theorem balance_route_after_create fmt cfg ops t fl a :
  let w := run fmt cfg ops (init_world empty_db t fl) in
  match create_route a w with
  | (Ok200 acc, w') =>
      acc_id acc = next_uuid w
      /\ balance_route (acc_id acc) (quieted w')
         = (Ok200 {| account_id := acc_id acc;
                     bal_currency := ac_currency a;
                     available_balance := 0;
                     pending_balance := 0;
                     last_updated := clock w;
                     version := initial_version |}, quieted w')
  | (HTTPException code _, w') =>
      code = 400
      /\ balance_route (next_uuid w) (quieted w')
         = (HTTPException 404 (Text "Account not found or balance not initialized"),
            quieted w')
  end.
Proof.
  intros w.
  assert (Hw : consistent w) by apply consistent_run, consistent_init.
  clearbody w. destruct Hw as (_ & _ & Hsup).
  pose proof (fresh_has_no_row w Hsup) as Hnorow.
  unfold create_route.
  destruct (LedgerService.create_account a w) as [r w'] eqn:Hrun.
  apply create_account_cases in Hrun. destruct Hrun as (_ & _ & Hr).
  destruct w' as [db' n' c' fl']. unfold quieted.
  cbn [store next_uuid clock] in Hr |- *.
  destruct r as [e|acc]; cbn [store next_uuid clock].
  - destruct Hr as [Hb _]. rewrite balance_route_quiet, Hb, Hnorow. split; reflexivity.
  - destruct Hr as (-> & _ & _ & Hb). cbn [new_account acc_id].
    rewrite balance_route_quiet.
    rewrite Hb, lookup_insert_eq. unfold upsert_row. rewrite Hnorow. split; reflexivity.
Qed.

Lemma transfer_funds_failed fmt cfg t w errs w' :
  LedgerService.transfer_funds fmt cfg t w = (inr (TransferFailed errs), w') ->
  (errs = expected_errors fmt cfg (store w) t /\ errs <> [])
  \/ (expected_errors fmt cfg (store w) t = [] /\ errs = ["Insufficient funds"]
      /\ funded cfg (store w) t = false).
Proof.
  unfold LedgerService.transfer_funds.
  unfold mbind at 1. unfold M_bind.
  destruct (CommandProcessor.validate_transfer fmt cfg t w) as [[e|v] w1] eqn:Hv;
    [discriminate|].
  apply validate_transfer_returns in Hv. destruct Hv as (Hs & Hn & Hc & He & Hval).
  rewrite Hval, He.
  destruct (expected_errors fmt cfg (store w) t) as [|m ms] eqn:Hexp;
    cbn [length Nat.eqb negb].
  2:{ cbn. intros [= <- <-]. left. split; [reflexivity|discriminate]. }
  pose proof (no_errors_distinct _ _ _ _ Hexp) as Hne'.
  assert (Hne : N.eqb (tr_source_account_id t) (tr_destination_account_id t) = false)
    by (apply N.eqb_neq; exact Hne').
  destruct w as [s n c fl]. destruct w1 as [s1 n1 c1 fl1].
  cbn in Hs, Hn, Hc. subst s1 n1 c1.
  clear Hval He. intros H. right. split; [reflexivity|]. revert H.
  unfold DatabaseManager.get_transaction, CommandProcessor.validate_sufficient_funds,
    BalanceRepository.check_sufficient_funds, EventStore.create_transfer_events,
    EventRepository.create_event, ProjectionEngine.project_events_to_balances, funded.
  unfold_m. cbn.
  destruct (tr_metadata t) as [md|] eqn:Hmd.
  all: destruct (balances s !! tr_source_account_id t) as [bs|] eqn:Hbs.
  all: destruct (balances s !! tr_destination_account_id t) as [bd|] eqn:Hbd.
  all: destruct (allow_overdraft cfg); cbn.
  all: repeat first
    [ oracle
    | rewrite Hne; cbn
    | progress (unfold BalanceRepository.upsert_balance; unfold_m; cbn)
    | rewrite (lookup_insert_ne _ _ _ _ Hne'); cbn
    | rewrite Hbs; cbn
    | rewrite Hbd; cbn
    | match goal with
      | |- context [py_ge (NDec ?a) (NDec ?b)] =>
          change (py_ge (NDec a) (NDec b)) with (Qle_bool b a);
          destruct (Qle_bool b a) eqn:?; cbn
      end ].
  all: try discriminate.
  all: intros [= <- _]; split; reflexivity.
Qed.

(** X8. [POST /ledger/transfer/] answers 200 only for a transfer that
    wrote its two events and two balance rows, and then reports
    exactly 2 events and the transaction id. Every other answer
    leaves the store as it was: a 400 carries either the validation
    errors, of which there is at least one, or "Insufficient funds"
    alone, the latter only for a request that passed validation; a
    storage failure or any other exception is a 500 with a text. *)
Theorem transfer_route_statuses fmt cfg t w :
  match transfer_route fmt cfg t w with
  | (Ok200 body, w') =>
      events_created body = 2%nat
      /\ body_transaction_id body = next_uuid w
      /\ body_message body = "Transfer successful"
      /\ exists md, tr_metadata t = Some md /\ store w' = after_transfer w t md
  | (HTTPException code d, w') =>
      store w' = store w
      /\ ((code = 400
           /\ ((d = MessageErrors "Transfer failed" (expected_errors fmt cfg (store w) t)
                /\ expected_errors fmt cfg (store w) t <> [])
               \/ (d = MessageErrors "Transfer failed" ["Insufficient funds"]
                   /\ expected_errors fmt cfg (store w) t = []
                   /\ funded cfg (store w) t = false)))
          \/ (code = 500 /\ exists s, d = Text s))
  end.
Proof.
  unfold transfer_route.
  destruct (LedgerService.transfer_funds fmt cfg t w) as [r w'] eqn:Hrun.
  pose proof (transfer_funds_cases _ _ _ _ _ _ Hrun) as (_ & _ & Hr).
  destruct r as [e|[tid evs bals|errs]].
  - split; [exact Hr|]. right. split; [reflexivity|eauto].
  - destruct Hr as (md & Hmd & _ & -> & -> & _ & Hst & _). cbn.
    split_and!; try reflexivity. eauto.
  - split; [exact Hr|]. left. split; [reflexivity|].
    destruct (transfer_funds_failed _ _ _ _ _ _ Hrun) as [[-> Hne]|(Hexp & -> & Hf)].
    + left. split; [reflexivity|exact Hne].
    + right. split_and!; auto.
Qed.

(* The validator at a concrete request *)

Lemma validate_transfer_accumulates_witness :
  exists v w',
    CommandProcessor.validate_transfer Scenarios.plain_fmt settings
      Scenarios.alice_to_alice (Scenarios.alice_world Scenarios.plain_fmt) = (inr v, w')
    /\ errors v = ["Source and destination accounts must be different"].
Proof.
  destruct (CommandProcessor.validate_transfer Scenarios.plain_fmt settings
              Scenarios.alice_to_alice (Scenarios.alice_world Scenarios.plain_fmt))
    as [[e|v] w'] eqn:H.
  - exfalso. vm_compute in H. discriminate.
  - exists v, w'. split; [reflexivity|].
    rewrite (proj1 (validate_transfer_accumulates _ _ _ _ _ _ H)).
    vm_compute. reflexivity.
Defined.

(* A ledger without overdraft *)

Lemma transfer_funds_ok_funded fmt cfg t w tid evs bals w' :
  LedgerService.transfer_funds fmt cfg t w = (inr (TransferOk tid evs bals), w') ->
  funded cfg (store w) t = true /\ violated cfg (store w) t AmountPositive = false.
Proof.
  intros Hrun.
  pose proof (transfer_funds_cases _ _ _ _ _ _ Hrun) as (_ & _ & md & _ & Hexp0 & _).
  split; [|exact (no_errors _ _ _ _ Hexp0 AmountPositive)].
  revert Hrun. unfold LedgerService.transfer_funds.
  unfold mbind at 1. unfold M_bind.
  destruct (CommandProcessor.validate_transfer fmt cfg t w) as [[e|v] w1] eqn:Hv;
    [discriminate|].
  apply validate_transfer_returns in Hv. destruct Hv as (Hs & Hn & Hc & He & Hval).
  rewrite Hval, He.
  destruct (expected_errors fmt cfg (store w) t) as [|m ms] eqn:Hexp;
    cbn [length Nat.eqb negb]; [|discriminate].
  pose proof (no_errors_distinct _ _ _ _ Hexp) as Hne'.
  assert (Hne : N.eqb (tr_source_account_id t) (tr_destination_account_id t) = false)
    by (apply N.eqb_neq; exact Hne').
  destruct w as [s n c fl]. destruct w1 as [s1 n1 c1 fl1].
  cbn in Hs, Hn, Hc. subst s1 n1 c1.
  clear Hval He.
  unfold DatabaseManager.get_transaction, CommandProcessor.validate_sufficient_funds,
    BalanceRepository.check_sufficient_funds, EventStore.create_transfer_events,
    EventRepository.create_event, ProjectionEngine.project_events_to_balances, funded.
  unfold_m. cbn.
  destruct (tr_metadata t) as [md'|] eqn:Hmd.
  all: destruct (balances s !! tr_source_account_id t) as [bs|] eqn:Hbs.
  all: destruct (balances s !! tr_destination_account_id t) as [bd|] eqn:Hbd.
  all: destruct (allow_overdraft cfg); cbn.
  all: repeat first
    [ oracle
    | rewrite Hne; cbn
    | progress (unfold BalanceRepository.upsert_balance; unfold_m; cbn)
    | rewrite (lookup_insert_ne _ _ _ _ Hne'); cbn
    | rewrite Hbs; cbn
    | rewrite Hbd; cbn
    | match goal with
      | |- context [py_ge (NDec ?a) (NDec ?b)] =>
          change (py_ge (NDec a) (NDec b)) with (Qle_bool b a);
          destruct (Qle_bool b a) eqn:?; cbn
      end ].
  all: try discriminate.
  all: intros _; reflexivity.
Qed.

Lemma unfunded_step fmt cfg w o :
  allow_overdraft cfg = false ->
  ledger_events (store w) = [] ->
  (forall a, (stored_available (store w) a == 0)%Q) ->
  ledger_events (store (step fmt cfg w o)) = []
  /\ (forall a, (stored_available (store (step fmt cfg w o)) a == 0)%Q).
Proof.
  intros Hcfg Hev Hbal. destruct o as [a|t]; cbn [step].
  - destruct (LedgerService.create_account a w) as [r w'] eqn:Hrun.
    apply create_account_cases in Hrun. destruct Hrun as (_ & Hevs & Hr). cbn [snd].
    rewrite Hevs. split; [exact Hev|].
    intros k. unfold stored_available.
    destruct r as [e|acc].
    + destruct Hr as [Hb _]. rewrite Hb. apply Hbal.
    + destruct Hr as (_ & _ & _ & Hb). rewrite Hb.
      destruct (N.eq_dec (next_uuid w) k) as [<-|Hne].
      * rewrite lookup_insert_eq, stored_available_upsert.
        specialize (Hbal (next_uuid w)). unfold stored_available in Hbal. lra.
      * rewrite lookup_insert_ne by exact Hne. apply Hbal.
  - destruct (LedgerService.transfer_funds fmt cfg t w) as [r w'] eqn:Hrun.
    pose proof (transfer_funds_cases _ _ _ _ _ _ Hrun) as (_ & _ & Hr). cbn [snd].
    destruct r as [e|[tid evs bals|errs]];
      try (rewrite Hr; split; assumption).
    exfalso. apply transfer_funds_ok_funded in Hrun. destruct Hrun as [Hf Hpos].
    unfold funded in Hf. rewrite Hcfg in Hf. cbn in Hf, Hpos.
    specialize (Hbal (tr_source_account_id t)). unfold stored_available in Hbal.
    destruct (balances (store w) !! tr_source_account_id t) as [b|]; [|discriminate].
    apply Qle_bool_iff in Hf.
    apply not_true_iff_false in Hpos. rewrite Qle_bool_iff in Hpos.
    apply Hpos. lra.
Qed.

(** X9. With overdraft disallowed, which is the default, a ledger
    that started empty never records a transfer. Every account starts
    with a balance of zero and a transfer needs a source that holds
    the amount, so after any history of account creations and
    transfer requests the log is still empty, every balance is still
    zero, and the next transfer fails as well. The seed script is
    such a history: its three transfers are all refused. *)
Theorem no_overdraft_no_transfers fmt cfg ops t fl :
  allow_overdraft cfg = false ->
  let w := run fmt cfg ops (init_world empty_db t fl) in
  ledger_events (store w) = []
  /\ (forall a, (stored_available (store w) a == 0)%Q)
  /\ (forall tr, succeeded (LedgerService.transfer_funds fmt cfg tr w) = false).
Proof.
  intros Hcfg w.
  assert (H : ledger_events (store w) = []
              /\ (forall a, (stored_available (store w) a == 0)%Q)).
  { subst w.
    assert (Hgen : forall w0,
               ledger_events (store w0) = [] ->
               (forall a, (stored_available (store w0) a == 0)%Q) ->
               ledger_events (store (run fmt cfg ops w0)) = []
               /\ (forall a, (stored_available (store (run fmt cfg ops w0)) a == 0)%Q)).
    { induction ops as [|o ops IH]; intros w0 H1 H2; cbn; [split; assumption|].
      fold (run fmt cfg ops (step fmt cfg w0 o)).
      destruct (unfunded_step fmt cfg w0 o Hcfg H1 H2) as [G1 G2].
      apply IH; assumption. }
    apply Hgen; [reflexivity|].
    intros a. unfold stored_available. cbn. rewrite lookup_empty. reflexivity. }
  destruct H as [H1 H2]. split; [exact H1|]. split; [exact H2|].
  intros tr. unfold succeeded.
  destruct (LedgerService.transfer_funds fmt cfg tr w) as [r w'] eqn:Hrun. cbn [fst].
  destruct r as [e|[tid evs bals|errs]]; try reflexivity.
  exfalso.
  pose proof (unfunded_step fmt cfg w (Transfer tr) Hcfg H1 H2) as [G _].
  cbn [step] in G. rewrite Hrun in G. cbn [snd] in G.
  apply transfer_funds_cases in Hrun. destruct Hrun as (_ & _ & md & _ & _ & _ & _ & _ & Hst & _).
  rewrite Hst in G. cbn in G. destruct (ledger_events (store w)); discriminate.
Qed.

Lemma no_overdraft_no_transfers_witness :
  allow_overdraft settings = false
  /\ ledger_events
       (store (run Scenarios.plain_fmt settings seed_data (init_world empty_db 0 [])))
     = []
  /\ (stored_available
        (store (run Scenarios.plain_fmt settings seed_data (init_world empty_db 0 [])))
        0%N == 0)%Q.
Proof.
  split; [reflexivity|].
  destruct (no_overdraft_no_transfers Scenarios.plain_fmt settings seed_data 0 []
              eq_refl) as (H1 & H2 & _).
  split; [exact H1|apply H2].
Defined.

End LedgerExtra.

(* ================================================================== *)
(** ** Further properties of the reconciliation engine                 *)
(* ================================================================== *)

Module ReconExtra.
Import Py Storage Recon Http ReconApi ReconProofs.

(* What a match of the exact matcher means *)

Lemma find_exact_id_match_In fmt ext ls l :
  ExactMatcher._find_exact_id_match fmt ext ls = Some l -> In l ls.
Proof.
  induction ls as [|p ls IH]; cbn; [discriminate|].
  destruct (ExactMatcher.id_match fmt ext p).
  - intros [= ->]. left. reflexivity.
  - intros H. right. apply IH, H.
Qed.

Lemma validate_exact_match_id fmt cfg ext l :
  ledger_txn_id (ExactMatcher._validate_exact_match fmt cfg ext l) = Some (id l).
Proof.
  unfold ExactMatcher._validate_exact_match.
  destruct (negb _); [reflexivity|]. destruct (negb _); [reflexivity|].
  cbv zeta. destruct (py_gt _ _); reflexivity.
Qed.

Lemma validate_exact_match_matched fmt cfg ext l :
  let v := ExactMatcher._validate_exact_match fmt cfg ext l in
  matched v = true ->
  exact_candidate cfg ext l
  /\ match_score v = 1%Q
  /\ mismatch_reason v = None
  /\ (amount_diff v == 0)%Q
  /\ Z.abs (timestamp_diff_seconds v) <= timestamp_tolerance_seconds cfg.
Proof.
  cbv zeta. unfold ExactMatcher._validate_exact_match, exact_candidate, within_tolerance.
  destruct (Qeq_bool (ext_amount ext) (amount l)) eqn:Ea; cbn [negb]; [|discriminate].
  apply Qeq_bool_iff in Ea.
  destruct (String.eqb_spec (ext_currency ext) (currency l)) as [Ec|Ec]; cbn [negb];
    [|discriminate].
  destruct (py_gt _ _) eqn:Et; [discriminate|].
  apply not_true_iff_false in Et. rewrite seconds_gt_iff in Et.
  intros _. cbn. split_and!; auto.
  - symmetry. exact Ea.
  - lia.
  - rewrite Ea. ring.
  - rewrite <- (Z.quot_abs _ 1000000) by discriminate.
    apply Z.quot_le_upper_bound; [reflexivity|]. cbn [Z.abs]. lia.
Qed.

Lemma exact_match_names_candidate fmt cfg ext ls i :
  ledger_txn_id (ExactMatcher.match_ fmt cfg ext ls) = Some i ->
  exists l, In l ls /\ id l = i
            /\ ExactMatcher.match_ fmt cfg ext ls
               = ExactMatcher._validate_exact_match fmt cfg ext l.
Proof.
  unfold ExactMatcher.match_.
  destruct (ExactMatcher._find_exact_id_match fmt ext ls) as [l|] eqn:Hid.
  - rewrite validate_exact_match_id. intros [= <-].
    exists l. split_and!; [eapply find_exact_id_match_In; eauto|reflexivity|reflexivity].
  - cbv zeta. rewrite find_exact_amount_matches_filter.
    destruct (List.filter _ ls) as [|l [|l' rest]] eqn:Hf; cbn; try discriminate.
    rewrite validate_exact_match_id. intros [= <-].
    exists l. split_and!; [|reflexivity|reflexivity].
    assert (H : In l (List.filter (ExactMatcher.amount_match cfg ext) ls))
      by (rewrite Hf; left; reflexivity).
    apply List.filter_In in H. apply H.
Qed.

Lemma exact_match_matched_names fmt cfg ext ls :
  matched (ExactMatcher.match_ fmt cfg ext ls) = true ->
  exists i, ledger_txn_id (ExactMatcher.match_ fmt cfg ext ls) = Some i.
Proof.
  unfold ExactMatcher.match_.
  destruct (ExactMatcher._find_exact_id_match fmt ext ls) as [l|].
  - rewrite validate_exact_match_id. eauto.
  - cbv zeta. destruct (ExactMatcher._find_exact_amount_matches cfg ext ls)
      as [|l [|l' rest]]; cbn; try discriminate.
    rewrite validate_exact_match_id. eauto.
Qed.

(** X11. Whenever the exact matcher reports a match, the result names a
    ledger transaction of the list that has the amount and the
    currency of the external one and lies within the timestamp
    tolerance, also when the two are cross-referenced; the score is 1,
    there is no mismatch reason, the amount difference is zero and the
    timestamp difference is within the tolerance. *)
Theorem exact_match_sound fmt cfg ext ls :
  let r := ExactMatcher.match_ fmt cfg ext ls in
  matched r = true ->
  exists l, In l ls
            /\ ledger_txn_id r = Some (id l)
            /\ exact_candidate cfg ext l
            /\ match_score r = 1%Q
            /\ mismatch_reason r = None
            /\ (amount_diff r == 0)%Q
            /\ Z.abs (timestamp_diff_seconds r) <= timestamp_tolerance_seconds cfg.
Proof.
  cbv zeta. intros Hm.
  destruct (exact_match_matched_names _ _ _ _ Hm) as [i Hi].
  destruct (exact_match_names_candidate _ _ _ _ _ Hi) as (l & Hin & <- & Hv).
  rewrite Hv in Hm |- *.
  destruct (validate_exact_match_matched fmt cfg ext l Hm) as (H1 & H2 & H3 & H4 & H5).
  exists l. split_and!; auto. apply validate_exact_match_id.
Qed.

Lemma exact_match_sound_witness :
  matched (ExactMatcher.match_ Scenarios.plain_fmt recon_settings
             (Scenarios.external "X" 100 0) [Scenarios.ledger "USD" 1 100 60]) = true
  /\ exists l, In l [Scenarios.ledger "USD" 1 100 60]
               /\ exact_candidate recon_settings (Scenarios.external "X" 100 0) l.
Proof.
  assert (H : matched (ExactMatcher.match_ Scenarios.plain_fmt recon_settings
                         (Scenarios.external "X" 100 0)
                         [Scenarios.ledger "USD" 1 100 60]) = true)
    by (vm_compute; reflexivity).
  split; [exact H|].
  destruct (exact_match_sound Scenarios.plain_fmt recon_settings
              (Scenarios.external "X" 100 0) [Scenarios.ledger "USD" 1 100 60] H)
    as (l & Hin & _ & Hc & _).
  exists l. split; [exact Hin|exact Hc].
Defined.

(* The candidate that the fuzzy matcher selects *)

Lemma scored_is_comparable ratio fmt cfg ext l s :
  score_of ratio fmt cfg ext l = Some s -> comparable ext l.
Proof.
  unfold score_of, FuzzyMatcher._calculate_match_score, comparable.
  destruct (Qeq_dec (ext_amount ext) (amount l)) as [E|Hne]; [left; exact E|].
  destruct (Qeq_dec (ext_amount ext + amount l) 0) as [E|Hs]; [right; exact E|].
  destruct (amount_similarity_unequal_raises cfg _ _ Hne Hs) as [msg ->].
  cbn. discriminate.
Qed.

Lemma py_gt_iff a b : py_gt a b = true <-> (qval b < qval a)%Q.
Proof.
  unfold py_gt, py_lt. rewrite negb_true_iff, <- not_true_iff_false, Qle_bool_iff.
  split; [apply Qnot_le_lt|apply Qlt_not_le].
Qed.

Lemma py_gt_false a b : py_gt a b = false <-> (qval a <= qval b)%Q.
Proof.
  unfold py_gt, py_lt. rewrite negb_false_iff, Qle_bool_iff. reflexivity.
Qed.

Lemma best_of_spec ratio fmt cfg ext ls :
  forall bm bs out,
    FuzzyMatcher.best_of ratio fmt cfg ext ls bm bs = inr out ->
    Forall (fun l => exists s, score_of ratio fmt cfg ext l = Some s
                               /\ (s <= qval (snd out))%Q) ls
    /\ (qval bs <= qval (snd out))%Q
    /\ ((out = (bm, bs))
        \/ (exists pre l post,
               ls = (pre ++ l :: post)%list
               /\ fst out = Some l
               /\ score_of ratio fmt cfg ext l = Some (qval (snd out))
               /\ (qval bs < qval (snd out))%Q
               /\ Forall (fun x => exists s, score_of ratio fmt cfg ext x = Some s
                                             /\ (s < qval (snd out))%Q) pre)).
Proof.
  induction ls as [|l ls IH]; intros bm bs out.
  - cbn. intros [= <-]. cbn. split_and!; [constructor|apply Qle_refl|left; reflexivity].
  - cbn [FuzzyMatcher.best_of]. unfold mbind, result_bind.
    destruct (FuzzyMatcher._calculate_match_score ratio fmt cfg ext l) as [e|s] eqn:Hs;
      [discriminate|].
    assert (Hsc : score_of ratio fmt cfg ext l = Some (qval s))
      by (unfold score_of; rewrite Hs; reflexivity).
    destruct (py_gt s bs) eqn:Hgt; intros Hrun;
      destruct (IH _ _ _ Hrun) as (Hall & Hle & Hcase).
    + apply py_gt_iff in Hgt. split_and!.
      * constructor; [eauto|exact Hall].
      * apply Qlt_le_weak. eapply Qlt_le_trans; eauto.
      * right. destruct Hcase as [->|(pre & l' & post & -> & H1 & H2 & H3 & H4)].
        { exists [], l, ls. cbn. split_and!; auto. }
        exists (l :: pre), l', post. cbn. split_and!; auto.
        { eapply Qlt_trans; eauto. }
        constructor; [eauto|exact H4].
    + apply py_gt_false in Hgt. split_and!.
      * constructor; [|exact Hall]. exists (qval s). split; [exact Hsc|].
        eapply Qle_trans; eauto.
      * exact Hle.
      * destruct Hcase as [->|(pre & l' & post & -> & H1 & H2 & H3 & H4)];
          [left; reflexivity|].
        right. exists (l :: pre), l', post. cbn. split_and!; auto.
        constructor; [|exact H4]. exists (qval s). split; [exact Hsc|].
        eapply Qle_lt_trans; eauto.
Qed.

(** X12. When the fuzzy matcher returns, every candidate could be
    scored, which requires its amount to equal the external amount or
    to be its opposite, and the reported score is the highest of the
    candidates' scores, or 0 if none is positive. The result is a
    match exactly when that score reaches the minimum match score.
    The candidate named is the first one that attains the highest
    score; when no score is positive no candidate is named. *)
Theorem fuzzy_match_selects_best ratio fmt cfg ext ls r :
  FuzzyMatcher.match_ ratio fmt cfg ext ls = inr r ->
  Forall (fun l => comparable ext l
                   /\ exists s, score_of ratio fmt cfg ext l = Some s
                                /\ (s <= match_score r)%Q) ls
  /\ (0 <= match_score r)%Q
  /\ (matched r = true <-> (min_match_score cfg <= match_score r)%Q)
  /\ match ledger_txn_id r with
     | Some i =>
         exists pre l post,
           ls = (pre ++ l :: post)%list
           /\ id l = i
           /\ score_of ratio fmt cfg ext l = Some (match_score r)
           /\ (0 < match_score r)%Q
           /\ Forall (fun x => exists s, score_of ratio fmt cfg ext x = Some s
                                         /\ (s < match_score r)%Q) pre
     | None => match_score r = 0%Q
     end.
Proof.
  unfold FuzzyMatcher.match_. unfold mbind at 1. unfold result_bind.
  destruct (FuzzyMatcher.best_of ratio fmt cfg ext ls None (NFloat 0)) as [e|out] eqn:Hb;
    [discriminate|].
  destruct (best_of_spec _ _ _ _ _ _ _ _ Hb) as (Hall & Hle & Hcase).
  cbn [qval] in Hle.
  assert (Hm : forall m reason,
             let r := BaseMatcher._create_match_result FuzzyMatcher.class_name ext
                        (fst out) m (qval (snd out)) reason in
             match_score r = qval (snd out)
             /\ ledger_txn_id r = option_map id (fst out) /\ matched r = m)
    by (intros; split_and!; reflexivity).
  assert (Hgoal : forall m reason,
             (m = true <-> (min_match_score cfg <= qval (snd out))%Q) ->
             let r := BaseMatcher._create_match_result FuzzyMatcher.class_name ext
                        (fst out) m (qval (snd out)) reason in
             Forall (fun l => comparable ext l
                              /\ exists s, score_of ratio fmt cfg ext l = Some s
                                           /\ (s <= match_score r)%Q) ls
             /\ (0 <= match_score r)%Q
             /\ (matched r = true <-> (min_match_score cfg <= match_score r)%Q)
             /\ match ledger_txn_id r with
                | Some i =>
                    exists pre l post,
                      ls = (pre ++ l :: post)%list
                      /\ id l = i
                      /\ score_of ratio fmt cfg ext l = Some (match_score r)
                      /\ (0 < match_score r)%Q
                      /\ Forall (fun x => exists s, score_of ratio fmt cfg ext x = Some s
                                                    /\ (s < match_score r)%Q) pre
                | None => match_score r = 0%Q
                end).
  { intros m reason Hiff r0.
    destruct (Hm m reason) as (E1 & E2 & E3). fold r0 in E1, E2, E3.
    rewrite E1, E2, E3. split_and!; auto.
    - eapply Forall_impl; [exact Hall|]. cbn beta.
      intros l (s & Hs & Hle'). split; [eapply scored_is_comparable; eauto|eauto].
    - destruct Hcase as [->|(pre & l & post & -> & H1 & H2 & H3 & H4)].
      + reflexivity.
      + rewrite H1. cbn [option_map]. exists pre, l, post. split_and!; auto. }
  destruct (py_ge (snd out) (NFloat (min_match_score cfg))) eqn:Hge;
    intros [= <-]; apply Hgoal.
  - unfold py_ge, py_le in Hge. apply Qle_bool_iff in Hge. cbn [qval] in Hge. tauto.
  - unfold py_ge, py_le in Hge. cbn [qval] in Hge.
    split; [discriminate|]. intros H. apply Qle_bool_iff in H. congruence.
Qed.

Lemma fuzzy_match_selects_best_witness :
  exists r,
    FuzzyMatcher.match_ Scenarios.no_ratio Scenarios.plain_fmt recon_settings
      (Scenarios.external "X" 100 0)
      [Scenarios.ledger "USD" 1 100 240; Scenarios.ledger "USD" 2 100 60] = inr r
    /\ ledger_txn_id r = Some 2%N
    /\ matched r = true
    /\ (0 <= match_score r)%Q.
Proof.
  eexists. split; [vm_compute; reflexivity|]. split; [reflexivity|].
  split; [reflexivity|].
  eapply (fuzzy_match_selects_best Scenarios.no_ratio Scenarios.plain_fmt recon_settings
            (Scenarios.external "X" 100 0)
            [Scenarios.ledger "USD" 1 100 240; Scenarios.ledger "USD" 2 100 60]).
  vm_compute. reflexivity.
Defined.

(* The orchestrator's choice between the matchers *)

Lemma fuzzy_match_comparable ratio fmt cfg ext ls r :
  FuzzyMatcher.match_ ratio fmt cfg ext ls = inr r -> Forall (comparable ext) ls.
Proof.
  unfold FuzzyMatcher.match_. unfold mbind at 1. unfold result_bind.
  destruct (FuzzyMatcher.best_of ratio fmt cfg ext ls None (NFloat 0)) as [e|out] eqn:Hb;
    [discriminate|].
  intros _. destruct (best_of_spec _ _ _ _ _ _ _ _ Hb) as (Hall & _).
  eapply Forall_impl; [exact Hall|]. cbn beta.
  intros l (s & Hs & _). eapply scored_is_comparable; eauto.
Qed.

Lemma fuzzy_match_names_candidate ratio fmt cfg ext ls r i :
  FuzzyMatcher.match_ ratio fmt cfg ext ls = inr r ->
  ledger_txn_id r = Some i -> exists l, In l ls /\ id l = i.
Proof.
  unfold FuzzyMatcher.match_. unfold mbind at 1. unfold result_bind.
  destruct (FuzzyMatcher.best_of ratio fmt cfg ext ls None (NFloat 0)) as [e|out] eqn:Hb;
    [discriminate|].
  destruct (best_of_spec _ _ _ _ _ _ _ _ Hb) as (_ & _ & Hcase).
  assert (H : option_map id (fst out) = Some i -> exists l, In l ls /\ id l = i).
  { destruct Hcase as [->|(pre & l & post & -> & H1 & _)]; [discriminate|].
    rewrite H1. cbn. intros [= <-]. exists l. split; [|reflexivity].
    apply in_or_app. right. left. reflexivity. }
  destruct (py_ge _ _); intros [= <-]; exact H.
Qed.

Lemma currency_filtered_In ext ls l :
  In l (currency_filtered ext ls) <-> In l ls /\ currency l = ext_currency ext.
Proof.
  unfold currency_filtered. rewrite List.filter_In, String.eqb_eq. reflexivity.
Qed.

Lemma match_transaction_names ratio fmt cfg ext ls r i :
  ReconEngine._match_transaction ratio fmt cfg ext ls = inr r ->
  ledger_txn_id r = Some i ->
  exists l, In l ls /\ id l = i /\ currency l = ext_currency ext.
Proof.
  unfold ReconEngine._match_transaction. fold (currency_filtered ext ls).
  destruct (currency_filtered ext ls) as [|c rest] eqn:Hf; [intros [= <-]; discriminate|].
  rewrite <- Hf. clear Hf c rest.
  assert (Hex : ledger_txn_id (ExactMatcher.match_ fmt cfg ext (currency_filtered ext ls))
                = Some i ->
                exists l, In l ls /\ id l = i /\ currency l = ext_currency ext).
  { intros H. destruct (exact_match_names_candidate _ _ _ _ _ H) as (l & Hin & Hid & _).
    apply currency_filtered_In in Hin. exists l. tauto. }
  destruct (matched (ExactMatcher.match_ fmt cfg ext (currency_filtered ext ls))).
  { intros [= <-]. exact Hex. }
  unfold mbind, result_bind.
  destruct (FuzzyMatcher.match_ ratio fmt cfg ext (currency_filtered ext ls))
    as [e|fr] eqn:Hfz; [discriminate|].
  destruct (py_gt _ _); intros [= <-]; [|exact Hex].
  intros H. destruct (fuzzy_match_names_candidate _ _ _ _ _ _ _ Hfz H) as (l & Hin & Hid).
  apply currency_filtered_In in Hin. exists l. tauto.
Qed.

(** X13. [_match_transaction] never pairs across currencies. When no
    ledger transaction has the currency of the external one, the
    result is unmatched with score 0, names no ledger transaction and
    says so; and any result that names a ledger transaction names one
    of the list in the currency of the external transaction. *)
Theorem match_transaction_within_currency ratio fmt cfg ext ls :
  (Forall (fun l => currency l <> ext_currency ext) ls ->
   ReconEngine._match_transaction ratio fmt cfg ext ls
   = inr {| matched := false;
            match_score := 0;
            mismatch_reason :=
              Some ("No ledger transactions found for currency " ++ ext_currency ext);
            ledger_txn_id := None;
            external_txn_id := txn_id ext;
            amount_diff := 0;
            timestamp_diff_seconds := 0;
            mr_metadata := ∅ |})
  /\ (forall r i,
         ReconEngine._match_transaction ratio fmt cfg ext ls = inr r ->
         ledger_txn_id r = Some i ->
         exists l, In l ls /\ id l = i /\ currency l = ext_currency ext).
Proof.
  split; [|intros r i; apply match_transaction_names].
  unfold ReconEngine._match_transaction. fold (currency_filtered ext ls).
  intros Hall.
  destruct (currency_filtered ext ls) as [|l rest] eqn:Hf; [reflexivity|].
  assert (H : In l (currency_filtered ext ls)) by (rewrite Hf; left; reflexivity).
  apply currency_filtered_In in H. destruct H as [Hin Hc].
  rewrite Forall_forall in Hall. exfalso. apply (Hall l); [|exact Hc].
  apply list_elem_of_In, Hin.
Qed.

(** X14. As long as some ledger transaction in the currency of the
    external one has an amount that is neither equal nor opposite to
    the external amount, [_match_transaction] returns only the exact
    matcher's match, with score 1: it never returns an unmatched
    result and never a fuzzy one, because the fuzzy matcher, which is
    run whenever the exact matcher finds no match, raises on such a
    candidate. *)
Theorem match_transaction_with_other_amount ratio fmt cfg ext ls l r :
  In l ls -> currency l = ext_currency ext -> ~ comparable ext l ->
  ReconEngine._match_transaction ratio fmt cfg ext ls = inr r ->
  r = ExactMatcher.match_ fmt cfg ext (currency_filtered ext ls)
  /\ matched r = true /\ match_score r = 1%Q.
Proof.
  intros Hin Hc Hnc.
  assert (Hl : In l (currency_filtered ext ls)) by (apply currency_filtered_In; auto).
  unfold ReconEngine._match_transaction. fold (currency_filtered ext ls).
  destruct (currency_filtered ext ls) as [|c rest] eqn:Hf; [destruct Hl|].
  rewrite <- Hf in *. clear Hf c rest.
  destruct (matched (ExactMatcher.match_ fmt cfg ext (currency_filtered ext ls))) eqn:Hm.
  - intros [= <-]. split; [reflexivity|]. split; [exact Hm|].
    destruct (exact_match_matched_names _ _ _ _ Hm) as [i Hi].
    destruct (exact_match_names_candidate _ _ _ _ _ Hi) as (l' & _ & _ & Hv).
    rewrite Hv in Hm |- *.
    apply (validate_exact_match_matched fmt cfg ext l' Hm).
  - unfold mbind, result_bind.
    destruct (FuzzyMatcher.match_ ratio fmt cfg ext (currency_filtered ext ls))
      as [e|fr] eqn:Hfz; [discriminate|].
    exfalso. apply fuzzy_match_comparable in Hfz.
    rewrite Forall_forall in Hfz. apply Hnc, Hfz, list_elem_of_In, Hl.
Qed.

Lemma match_transaction_with_other_amount_witness :
  exists r,
    ReconEngine._match_transaction Scenarios.no_ratio Scenarios.plain_fmt recon_settings
      (Scenarios.external "X" 100 0)
      [Scenarios.ledger "USD" 1 100 60; Scenarios.ledger "USD" 2 50 0] = inr r
    /\ ~ comparable (Scenarios.external "X" 100 0) (Scenarios.ledger "USD" 2 50 0)
    /\ matched r = true.
Proof.
  assert (Hn : ~ comparable (Scenarios.external "X" 100 0) (Scenarios.ledger "USD" 2 50 0)).
  { intros [H|H]; vm_compute in H; discriminate. }
  eexists. split; [vm_compute; reflexivity|]. split; [exact Hn|].
  eapply (match_transaction_with_other_amount Scenarios.no_ratio Scenarios.plain_fmt
            recon_settings (Scenarios.external "X" 100 0)
            [Scenarios.ledger "USD" 1 100 60; Scenarios.ledger "USD" 2 50 0]
            (Scenarios.ledger "USD" 2 50 0)).
  - right. left. reflexivity.
  - reflexivity.
  - exact Hn.
  - vm_compute. reflexivity.
Defined.

(* Runs in a world whose storage calls all succeed *)

Lemma run_quiet ratio fmt cfg env d s kw j n t xs ls :
  ReconEngine._load_external_transactions env s d kw = inr xs ->
  get_transactions_for_date env d = inr ls ->
  ReconEngine.run ratio fmt cfg env d s kw (quiet j n t)
  = (inr (job_id (started_row j d s n t)),
     quiet {| recon_jobs :=
                finalized_row (job_id (started_row j d s n t))
                  (count_matched (rows_of ratio fmt cfg d s ls t xs))
                  (count_unmatched (rows_of ratio fmt cfg d s ls t xs))
                  (length xs) (length ls) COMPLETED None t
                <$> <[(d, s) := started_row j d s n t]> (recon_jobs j);
              recon_logs := recon_logs j ++ rows_of ratio fmt cfg d s ls t xs |}
       (N.succ n) t).
Proof.
  intros Hload Hled. destruct j as [jobs logs].
  unfold ReconEngine.run, ReconLogger.create_job, ReconLogger.finalize_job, quiet.
  unfold_m. cbn. rewrite Hload, Hled.
  fold (started_row {| recon_jobs := jobs; recon_logs := logs |} d s n t).
  set (row0 := started_row {| recon_jobs := jobs; recon_logs := logs |} d s n t).
  match goal with
  | |- context [ReconEngine.process_all _ _ _ _ _ _ _ _ ?w] =>
      change w with (quiet {| recon_jobs := <[(d, s) := row0]> jobs;
                              recon_logs := logs |} (N.succ n) t)
  end.
  rewrite process_all_quiet. cbn. reflexivity.
Qed.

Lemma run_quiet_fails ratio fmt cfg env d s kw j n t e :
  (xs ← ReconEngine._load_external_transactions env s d kw;
   get_transactions_for_date env d) = inl e ->
  ReconEngine.run ratio fmt cfg env d s kw (quiet j n t)
  = (inl e,
     quiet {| recon_jobs :=
                finalized_row (job_id (started_row j d s n t)) 0 0 0 0 FAILED
                  (Some (str_exn e)) t
                <$> <[(d, s) := started_row j d s n t]> (recon_jobs j);
              recon_logs := recon_logs j |}
       (N.succ n) t).
Proof.
  intros Hin. destruct j as [jobs logs].
  unfold ReconEngine.run, ReconLogger.create_job, ReconLogger.finalize_job, quiet.
  unfold_m. cbn.
  fold (started_row {| recon_jobs := jobs; recon_logs := logs |} d s n t).
  unfold mbind, result_bind in Hin.
  destruct (ReconEngine._load_external_transactions env s d kw) as [e1|xs].
  - injection Hin as ->. cbn. reflexivity.
  - rewrite Hin. cbn. reflexivity.
Qed.

Lemma started_row_id j d s n t :
  job_id (started_row j d s n t)
  = match recon_jobs j !! (d, s) with
    | Some old => job_id old
    | None => n
    end.
Proof. unfold started_row. destruct (recon_jobs j !! (d, s)); reflexivity. Qed.

(** X15. When the external source or the ledger cannot be read and
    the journal accepts what it is given, [run] raises the same
    exception after it has recorded the failure: the job row for the
    date and source exists, is FAILED with the message of the
    exception, counts nothing, keeps the id of an earlier job for
    the same date and source, and no log row is written. This holds
    for an unknown source name too, for which a job row is created
    all the same. *)
Theorem failed_run_is_recorded ratio fmt cfg env d s kw j n t e :
  (xs ← ReconEngine._load_external_transactions env s d kw;
   get_transactions_for_date env d) = inl e ->
  let out := ReconEngine.run ratio fmt cfg env d s kw (quiet j n t) in
  fst out = inl e
  /\ recon_logs (store (snd out)) = recon_logs j
  /\ exists job,
       recon_jobs (store (snd out)) !! (d, s) = Some job
       /\ job_status job = FAILED
       /\ error_message job = Some (str_exn e)
       /\ matched_count job = 0%nat /\ unmatched_count job = 0%nat
       /\ total_external_txns job = 0%nat /\ total_ledger_txns job = 0%nat
       /\ completed_at job = Some t
       /\ job_id job = match recon_jobs j !! (d, s) with
                       | Some old => job_id old
                       | None => n
                       end.
Proof.
  intros Hin out. subst out. rewrite (run_quiet_fails _ _ _ _ _ _ _ _ _ _ _ Hin).
  cbn [fst snd store quiet recon_logs recon_jobs].
  split; [reflexivity|]. split; [reflexivity|].
  rewrite lookup_fmap, lookup_insert_eq. cbn [fmap option_fmap option_map].
  unfold finalized_row. rewrite N.eqb_refl.
  eexists. split; [reflexivity|]. cbn. split_and!; try reflexivity.
  apply started_row_id.
Qed.

Lemma failed_run_is_recorded_witness :
  exists job,
    recon_jobs (store (snd (ReconEngine.run Scenarios.no_ratio Scenarios.plain_fmt
                              recon_settings Scenarios.three_rows 20250713 "ftp"
                              Scenarios.csv_file (quiet empty_journal 0 0))))
      !! (20250713, "ftp") = Some job
    /\ job_status job = FAILED
    /\ error_message job = Some "Unknown source: ftp".
Proof.
  destruct (failed_run_is_recorded Scenarios.no_ratio Scenarios.plain_fmt recon_settings
              Scenarios.three_rows 20250713 "ftp" Scenarios.csv_file empty_journal 0 0
              (ValueError "Unknown source: ftp") eq_refl)
    as (_ & _ & job & H1 & H2 & H3 & _).
  exists job. split_and!; assumption.
Defined.

(* The summary of the journal *)

Lemma rows_of_logged_for ratio fmt cfg d s ls t xs :
  List.filter (logged_for d s) (rows_of ratio fmt cfg d s ls t xs)
  = rows_of ratio fmt cfg d s ls t xs.
Proof.
  unfold rows_of. induction xs as [|x xs IH]; cbn [map List.filter]; [reflexivity|].
  unfold logged_for at 1. cbn [ReconLogger.log_row recon_date log_source_name].
  rewrite Z.eqb_refl, String.eqb_refl. cbn [andb]. rewrite IH. reflexivity.
Qed.

Lemma get_recon_summary_quiet d s j n t :
  exists summary,
    get_recon_summary d s (quiet j n t) = (inr (Some summary), quiet j n t)
    /\ total_logs summary = length (List.filter (logged_for d s) (recon_logs j))
    /\ sum_matched_count summary
       = count_matched (List.filter (logged_for d s) (recon_logs j))
    /\ sum_unmatched_count summary
       = count_unmatched (List.filter (logged_for d s) (recon_logs j)).
Proof.
  unfold get_recon_summary, quiet. unfold_m. cbn.
  eexists. split; [reflexivity|]. cbn. split_and!; reflexivity.
Qed.

Lemma count_split l : (count_matched l + count_unmatched l)%nat = length l.
Proof.
  unfold count_matched, count_unmatched. induction l as [|r l IH]; [reflexivity|].
  cbn [List.filter]. destruct (log_matched r); cbn [negb length]; lia.
Qed.

(** X16. A run that reads its inputs and whose storage calls succeed
    is COMPLETED under the id of any earlier job for the same date
    and source, and its job row counts the rows of this run alone,
    each once as matched or unmatched. The summary for the date and
    source counts the rows of all runs: after the run it has grown
    by exactly this run's counts, so a second run on the same day
    doubles what the summary reports while the job row is simply
    overwritten. *)
Theorem summary_accumulates_over_runs ratio fmt cfg env d s kw j n t xs ls :
  ReconEngine._load_external_transactions env s d kw = inr xs ->
  get_transactions_for_date env d = inr ls ->
  let w := quiet j n t in
  let out := ReconEngine.run ratio fmt cfg env d s kw w in
  exists job before after,
    fst (get_recon_summary d s w) = inr (Some before)
    /\ fst (get_recon_summary d s (snd out)) = inr (Some after)
    /\ recon_jobs (store (snd out)) !! (d, s) = Some job
    /\ fst out = inr (job_id job)
    /\ job_id job = match recon_jobs j !! (d, s) with
                    | Some old => job_id old
                    | None => n
                    end
    /\ job_status job = COMPLETED
    /\ error_message job = None
    /\ total_external_txns job = length xs
    /\ total_ledger_txns job = length ls
    /\ (matched_count job + unmatched_count job)%nat = length xs
    /\ total_logs after = (total_logs before + length xs)%nat
    /\ sum_matched_count after = (sum_matched_count before + matched_count job)%nat
    /\ sum_unmatched_count after = (sum_unmatched_count before + unmatched_count job)%nat.
Proof.
  intros Hload Hled w out. subst w out.
  rewrite (run_quiet ratio fmt cfg env d s kw j n t xs ls Hload Hled).
  cbn [fst snd].
  destruct (get_recon_summary_quiet d s j n t) as (before & Hb & Hb1 & Hb2 & Hb3).
  match goal with
  | |- context [get_recon_summary d s
                  (quiet {| recon_jobs := ?jobs'; recon_logs := ?logs' |} ?n' t)] =>
      destruct (get_recon_summary_quiet d s
                  {| recon_jobs := jobs'; recon_logs := logs' |} n' t)
        as (after & Ha & Ha1 & Ha2 & Ha3)
  end.
  cbn [recon_logs] in Ha1, Ha2, Ha3.
  rewrite List.filter_app, rows_of_logged_for in Ha1, Ha2, Ha3.
  eexists _, before, after. rewrite Hb, Ha. cbn [fst store quiet recon_jobs].
  rewrite lookup_fmap, lookup_insert_eq. cbn [fmap option_fmap option_map].
  unfold finalized_row at 1. rewrite N.eqb_refl.
  split; [reflexivity|]. split; [reflexivity|]. split; [reflexivity|].
  cbn [job_id job_status error_message total_external_txns total_ledger_txns
       matched_count unmatched_count].
  split_and!; try reflexivity.
  - apply started_row_id.
  - rewrite count_split. unfold rows_of. apply length_map.
  - rewrite Ha1, Hb1, length_app. f_equal. unfold rows_of. apply length_map.
  - rewrite Ha2, Hb2. unfold count_matched. rewrite List.filter_app, length_app.
    reflexivity.
  - rewrite Ha3, Hb3. unfold count_unmatched. rewrite List.filter_app, length_app.
    reflexivity.
Qed.

Lemma summary_accumulates_over_runs_witness :
  exists job after,
    fst (get_recon_summary 20250713 "csv"
           (snd (ReconEngine.run Scenarios.no_ratio Scenarios.plain_fmt recon_settings
                   Scenarios.three_rows 20250713 "csv" Scenarios.csv_file
                   (quiet empty_journal 0 0)))) = inr (Some after)
    /\ recon_jobs (store (snd (ReconEngine.run Scenarios.no_ratio Scenarios.plain_fmt
                                 recon_settings Scenarios.three_rows 20250713 "csv"
                                 Scenarios.csv_file (quiet empty_journal 0 0))))
         !! (20250713, "csv") = Some job
    /\ total_external_txns job = 3%nat
    /\ sum_matched_count after = (0 + matched_count job)%nat.
Proof.
  destruct (summary_accumulates_over_runs Scenarios.no_ratio Scenarios.plain_fmt
              recon_settings Scenarios.three_rows 20250713 "csv" Scenarios.csv_file
              empty_journal 0 0 _ _ eq_refl eq_refl)
    as (job & before & after & Hb & Ha & Hj & _ & _ & _ & _ & Hx & _ & _ & _ & Hm & _).
  exists job, after. split_and!; try assumption.
  cbn in Hb. injection Hb as <-. exact Hm.
Defined.

Lemma rate_bounds (m n : nat) :
  (m <= n)%nat -> (0 < n)%nat ->
  (0 <= inject_Z (Z.of_nat m) / inject_Z (Z.of_nat n) <= 1)%Q.
Proof.
  intros Hmn Hn.
  assert (Hn' : (0 < inject_Z (Z.of_nat n))%Q).
  { change 0%Q with (inject_Z 0). rewrite <- Zlt_Qlt. lia. }
  split.
  - apply Qle_shift_div_l; [exact Hn'|]. rewrite Qmult_0_l.
    change 0%Q with (inject_Z 0). rewrite <- Zle_Qle. lia.
  - apply Qle_shift_div_r; [exact Hn'|]. rewrite Qmult_1_l.
    rewrite <- Zle_Qle. lia.
Qed.

(** X17. [GET /recon/summary/...] never answers 404: the summary is a
    row of aggregates, which exists also when nothing was logged, and
    then the answer is a 200 whose counts, rate, average score and
    variance are all zero. A 200 always has total = matched +
    unmatched and a match rate between 0 and 1; the only error is a
    500 for a storage failure; the journal is never changed. *)
Theorem summary_route_never_404 str_date d s w :
  match get_reconciliation_summary str_date d s w with
  | (Ok200 body, w') =>
      store w' = store w
      /\ resp_total_logs body
         = length (List.filter (logged_for d s) (recon_logs (store w)))
      /\ resp_total_logs body = (resp_matched_count body + resp_unmatched_count body)%nat
      /\ (0 <= match_rate body <= 1)%Q
      /\ (resp_total_logs body = 0%nat ->
          match_rate body = 0%Q
          /\ resp_avg_match_score body = 0%Q
          /\ resp_total_amount_variance body = 0%Q
          /\ resp_unique_external_txns body = 0%nat
          /\ resp_unique_ledger_txns body = 0%nat)
  | (HTTPException code _, w') =>
      code = 500 /\ store w' = store w /\ exists fl, faults w = true :: fl
  end.
Proof.
  destruct w as [j n t fl].
  unfold get_reconciliation_summary, reraising, get_recon_summary.
  unfold_m. cbn.
  assert (Hok : forall rows : list ReconLog,
             length rows
             = (length (List.filter log_matched rows)
                + length (List.filter (fun row => negb (log_matched row)) rows))%nat).
  { intros rows. symmetry. apply count_split. }
  set (rows := List.filter (logged_for d s) (recon_logs j)).
  assert (Hbody :
            length rows
            = (length (List.filter log_matched rows)
               + length (List.filter (fun row => negb (log_matched row)) rows))%nat
            /\ (0 <= (if (0 <? length rows)%nat
                      then inject_Z (Z.of_nat (length (List.filter log_matched rows)))
                           / inject_Z (Z.of_nat (length rows))
                      else 0) <= 1)%Q
            /\ (length rows = 0%nat ->
                (if (0 <? length rows)%nat
                 then (inject_Z (Z.of_nat (length (List.filter log_matched rows)))
                       / inject_Z (Z.of_nat (length rows)))%Q
                 else 0%Q) = 0%Q
                /\ or_zero (sql_avg (map log_match_score rows)) = 0%Q
                /\ or_zero (sql_sum (map (fun row => Qabs (amount_difference row)) rows))
                   = 0%Q
                /\ length (remove_dups (map log_external_txn_id rows)) = 0%nat
                /\ length (remove_dups (omap log_ledger_txn_id rows)) = 0%nat)).
  { split; [apply Hok|]. split.
    - destruct (Nat.ltb_spec 0 (length rows)) as [Hpos|Hz].
      + apply rate_bounds; [|exact Hpos]. rewrite (Hok rows). lia.
      + split; [apply Qle_refl|discriminate].
    - intros Hz. destruct rows; [|discriminate]. cbn. split_and!; reflexivity. }
  destruct fl as [|[] fl]; cbn.
  - split; [reflexivity|]. split; [reflexivity|]. exact Hbody.
  - split_and!; eauto.
  - split; [reflexivity|]. split; [reflexivity|]. exact Hbody.
Qed.

(* Source configurations *)

Lemma given_spec o : given o = None \/ exists c p, given o = Some (String c p).
Proof.
  unfold given, truthy. destruct o as [[|c p]|]; eauto.
Qed.

(** X18. For the keyword arguments that the routes build from a
    request, which hold only the fields that are not empty,
    [validate_source_config] agrees with [_load_external_transactions]:
    a configuration that it accepts reaches the reader of the source,
    the CSV readers with the file path and the API adapters with the
    base URL, and one that it rejects makes the loader raise a
    [ValueError], whatever the readers would return. *)
Theorem source_config_agrees_with_loader env d request :
  let s := req_source request in
  let kw := request_kwargs request in
  if validate_source_config s kw then
    (exists c p, file_path kw = Some (String c p)
                 /\ (s = "csv" \/ s = "bank_csv")
                 /\ ReconEngine._load_external_transactions env s d kw
                    = read_from_file env s (String c p))
    \/ (exists c u, base_url kw = Some (String c u)
                    /\ ((s = "api"
                         /\ ReconEngine._load_external_transactions env s d kw
                            = fetch_transactions env (String c u) (auth_token kw) d)
                        \/ (s = "payment_processor"
                            /\ ReconEngine._load_external_transactions env s d kw
                               = fetch_settlements env (String c u) (auth_token kw) d)))
  else exists msg, ReconEngine._load_external_transactions env s d kw
                   = inl (ValueError msg).
Proof.
  cbv zeta. unfold validate_source_config, ReconEngine._load_external_transactions,
    source_readers, ReconSources.py_in, request_kwargs.
  cbn [existsb file_path base_url auth_token].
  destruct (String.eqb_spec (req_source request) "csv") as [->|H1].
  { cbn. destruct (given_spec (req_file_path request)) as [->|(c & p & ->)]; cbn.
    - eexists. reflexivity.
    - left. exists c, p. auto. }
  destruct (String.eqb_spec (req_source request) "bank_csv") as [->|H2].
  { cbn. destruct (given_spec (req_file_path request)) as [->|(c & p & ->)]; cbn.
    - eexists. reflexivity.
    - left. exists c, p. auto. }
  destruct (String.eqb_spec (req_source request) "api") as [->|H3].
  { cbn. destruct (given_spec (req_base_url request)) as [->|(c & p & ->)]; cbn.
    - eexists. reflexivity.
    - right. exists c, p. auto. }
  destruct (String.eqb_spec (req_source request) "payment_processor") as [->|H4].
  { cbn. destruct (given_spec (req_base_url request)) as [->|(c & p & ->)]; cbn.
    - eexists. reflexivity.
    - right. exists c, p. auto. }
  cbn. eexists. reflexivity.
Qed.

(** X19. [POST /recon/run] never answers 400. A configuration that
    [validate_source_config] rejects raises the 400 inside the
    [try] whose handler catches every exception, so that the answer
    is a 500 whose detail wraps the text of the 400; no job is
    created and the journal is not touched. Every other error is a
    500 as well, and a 200 reports COMPLETED for the job that [run]
    returned. *)
Theorem run_route_never_400 str_http ratio fmt cfg env request w :
  let valid := validate_source_config (req_source request) (request_kwargs request) in
  match run_reconciliation str_http ratio fmt cfg env request w with
  | (Ok200 body, w') =>
      valid = true
      /\ resp_status body = "COMPLETED"
      /\ ReconEngine.run ratio fmt cfg env (req_date request) (req_source request)
           (request_kwargs request) w = (inr (resp_job_id body), w')
  | (HTTPException code d, w') =>
      code = 500
      /\ (valid = false ->
          w' = w
          /\ d = Text ("Failed to start reconciliation: "
                       ++ str_http 400 ("Invalid configuration for source '"
                                        ++ req_source request ++ "'")))
      /\ (valid = true ->
          exists e, ReconEngine.run ratio fmt cfg env (req_date request)
                      (req_source request) (request_kwargs request) w = (inl e, w')
                    /\ d = Text ("Failed to start reconciliation: " ++ str_exn e))
  end.
Proof.
  cbv zeta. unfold run_reconciliation, catching.
  destruct (validate_source_config (req_source request) (request_kwargs request));
    cbn [negb].
  - destruct (ReconEngine.run ratio fmt cfg env (req_date request) (req_source request)
                (request_kwargs request) w) as [[e|job] w'].
    + split; [reflexivity|]. split; [discriminate|]. intros _. eauto.
    + split_and!; reflexivity.
  - split; [reflexivity|]. split; [|discriminate]. intros _. split; reflexivity.
Qed.

(* Updates of a job that does not exist *)

Lemma fmap_unknown_job (f : ReconJob -> ReconJob) (j : Journal) (the_job : UUID) :
  unknown_job j the_job ->
  (forall row, job_id row <> the_job -> f row = row) ->
  f <$> recon_jobs j = recon_jobs j.
Proof.
  intros Hu Hf. apply map_eq. intros k. rewrite lookup_fmap.
  destruct (recon_jobs j !! k) as [row|] eqn:E; [|reflexivity].
  cbn. f_equal. apply Hf. eapply Hu, E.
Qed.

(** X20. Neither [finalize_job] nor [update_job_status] nor
    [DELETE /recon/jobs/{id}] checks that the job exists: for an id
    that no job row carries, and with the storage working, each of
    them succeeds and leaves the journal exactly as it was, and the
    route answers 200 with "Job <id> cancelled successfully". *)
Theorem cancel_unknown_job_succeeds str_http fmt j n t the_job :
  unknown_job j the_job ->
  cancel_job str_http fmt the_job (quiet j n t)
  = (Ok200 ("Job " ++ str_uuid fmt the_job ++ " cancelled successfully"), quiet j n t)
  /\ (forall status message,
         update_job_status the_job status message (quiet j n t) = (inr tt, quiet j n t))
  /\ (forall m u te tl status message,
         ReconLogger.finalize_job the_job m u te tl status message (quiet j n t)
         = (inr tt, quiet j n t)).
Proof.
  intros Hu.
  assert (Hup : forall status message,
             update_job_status the_job status message (quiet j n t)
             = (inr tt, quiet j n t)).
  { intros status message. unfold update_job_status, quiet. unfold_m. cbn.
    rewrite (fmap_unknown_job _ j the_job Hu).
    - destruct j; reflexivity.
    - intros row Hne. apply N.eqb_neq in Hne. rewrite Hne. reflexivity. }
  split_and!.
  - unfold cancel_job, catching. rewrite Hup. reflexivity.
  - exact Hup.
  - intros m u te tl status message.
    unfold ReconLogger.finalize_job, quiet. unfold_m. cbn.
    rewrite (fmap_unknown_job _ j the_job Hu).
    + destruct j; reflexivity.
    + intros row Hne. apply N.eqb_neq in Hne. rewrite Hne. reflexivity.
Qed.

Lemma cancel_unknown_job_succeeds_witness :
  unknown_job empty_journal 7%N
  /\ cancel_job (fun _ d => d) Scenarios.plain_fmt 7%N (quiet empty_journal 0 0)
     = (Ok200 "Job <uuid> cancelled successfully", quiet empty_journal 0 0).
Proof.
  assert (Hu : unknown_job empty_journal 7%N).
  { intros k row H. cbn in H. rewrite lookup_empty in H. discriminate. }
  split; [exact Hu|].
  apply (cancel_unknown_job_succeeds (fun _ d => d) Scenarios.plain_fmt
           empty_journal 0%N 0 7%N Hu).
Defined.

(* The columns of a logged row *)

Lemma create_match_result_plain name ext l m sc reason :
  let r := BaseMatcher._create_match_result name ext l m sc reason in
  external_txn_id r = txn_id ext
  /\ mr_metadata r !! "ledger_amount" = None
  /\ mr_metadata r !! "external_amount" = None.
Proof. cbv zeta. unfold BaseMatcher._create_match_result. cbn. split_and!; reflexivity. Qed.

Lemma match_transaction_plain ratio fmt cfg ext ls r :
  ReconEngine._match_transaction ratio fmt cfg ext ls = inr r ->
  external_txn_id r = txn_id ext
  /\ mr_metadata r !! "ledger_amount" = None
  /\ mr_metadata r !! "external_amount" = None.
Proof.
  assert (Hex : forall l,
             let r := ExactMatcher.match_ fmt cfg ext l in
             external_txn_id r = txn_id ext
             /\ mr_metadata r !! "ledger_amount" = None
             /\ mr_metadata r !! "external_amount" = None).
  { intros l. cbv zeta. unfold ExactMatcher.match_, ExactMatcher._validate_exact_match.
    repeat match goal with
           | |- context [match ?x with _ => _ end] => destruct x
           end; apply create_match_result_plain. }
  unfold ReconEngine._match_transaction.
  destruct (List.filter _ ls) as [|l0 rest].
  - intros [= <-]. cbn. split_and!; reflexivity.
  - destruct (matched _).
    + intros [= <-]. apply Hex.
    + unfold mbind, result_bind.
      destruct (FuzzyMatcher.match_ _ _ _ _ _) as [e|fz] eqn:Hf; [discriminate|].
      destruct (py_gt _ _); intros [= <-]; [|apply Hex].
      revert Hf. unfold FuzzyMatcher.match_. unfold mbind, result_bind.
      destruct (FuzzyMatcher.best_of _ _ _ _ _ _ _) as [e|best]; [discriminate|].
      destruct (py_ge _ _); intros [= <-]; apply create_match_result_plain.
Qed.

Lemma find_id_In (ls : list LedgerTxn) i l :
  In l ls -> id l = i ->
  exists l', List.find (fun txn => N.eqb (id txn) i) ls = Some l'
             /\ In l' ls /\ id l' = i.
Proof.
  intros Hin Hid.
  destruct (List.find (fun txn => N.eqb (id txn) i) ls) as [l'|] eqn:Hf.
  - apply List.find_some in Hf. destruct Hf as [H1 H2]. apply N.eqb_eq in H2. eauto.
  - exfalso. pose proof (List.find_none _ _ Hf l Hin) as H. cbn in H.
    apply N.eqb_neq in H. contradiction.
Qed.

Lemma result_row_columns ratio fmt cfg d s ls t x r :
  ReconEngine._match_transaction ratio fmt cfg x ls = inr r ->
  let row := ReconLogger.log_row d s
               (ReconEngine._enhance_match_result fmt r x ls) t in
  log_external_txn_id row = txn_id x /\ result_columns ls x r row.
Proof.
  intros Hm. cbv zeta.
  destruct (match_transaction_plain _ _ _ _ _ _ Hm) as (Hid & Hla & Hea).
  unfold result_columns, ReconLogger.log_row, ReconEngine._enhance_match_result, dict_get.
  cbn [recon_date log_source_name log_external_txn_id log_matched log_match_score
       log_mismatch_reason log_ledger_txn_id amount_difference external_amount
       ledger_amount mr_metadata external_txn_id matched match_score mismatch_reason
       ledger_txn_id amount_diff].
  split; [exact Hid|].
  do 5 (split; [reflexivity|]).
  destruct (ledger_txn_id r) as [i|] eqn:Hi.
  - destruct (match_transaction_names _ _ _ _ _ _ _ Hm Hi) as (l & Hin & Hl & _).
    destruct (find_id_In ls i l Hin Hl) as (l' & Hf & Hin' & Hl').
    rewrite Hf. split.
    + repeat (rewrite lookup_insert_ne by discriminate).
      rewrite lookup_insert_eq. reflexivity.
    + exists l'. split; [exact Hin'|]. split; [exact Hl'|].
      repeat (rewrite lookup_insert_ne by discriminate).
      rewrite lookup_insert_eq. reflexivity.
  - split.
    + repeat (rewrite lookup_insert_ne by discriminate).
      rewrite lookup_insert_eq. reflexivity.
    + repeat (rewrite lookup_insert_ne by discriminate). rewrite Hla. reflexivity.
Qed.

Lemma failed_row_columns d s t x e :
  let row := ReconLogger.log_row d s (ReconEngine.failed_result x e) t in
  log_external_txn_id row = txn_id x /\ error_columns e row.
Proof. cbv zeta. unfold error_columns. cbn. split_and!; reflexivity. Qed.

(** X21. What one turn of the loop of [run] logs for an external
    transaction, whichever storage calls fail. It never touches the
    job rows and appends at most one log row. If it appends none, it
    has raised: no row could be written, and the run is aborted. A
    row that it appends carries the date, the source and the id of
    the external transaction. When matching raised, the row is
    unmatched with score 0 and the reason "Processing error: "
    followed by the message, both amount columns are null, and the
    transaction is counted as unmatched. When matching returned,
    either the row has the result's verdict, score, reason, ledger
    id and amount difference, its external amount column is the
    external amount, its ledger amount column is the amount of a
    ledger transaction of the day with the id that the row names, or
    null when it names none, and the transaction is counted by the
    verdict; or, when the first write was refused, the row is a
    "Processing error" row for the storage exception and the
    transaction is counted as unmatched although it may have
    matched. When the first storage call succeeds, the row is
    always the former. *)
Theorem logged_row_columns ratio fmt cfg d s ls m u x w :
  let out := ReconEngine.process ratio fmt cfg d s ls (m, u) x w in
  let refused := match faults w with true :: _ => true | _ => false end in
  recon_jobs (store (snd out)) = recon_jobs (store w)
  /\ ((recon_logs (store (snd out)) = recon_logs (store w)
       /\ refused = true
       /\ exists e, fst out = inl e)
      \/ exists row,
           recon_logs (store (snd out)) = (recon_logs (store w) ++ [row])%list
           /\ recon_date row = d
           /\ log_source_name row = s
           /\ log_external_txn_id row = txn_id x
           /\ match ReconEngine._match_transaction ratio fmt cfg x ls with
              | inr r =>
                  (refused = false
                   /\ result_columns ls x r row
                   /\ fst out = inr (if matched r then (S m, u) else (m, S u)))
                  \/ (refused = true
                      /\ (exists e, error_columns e row)
                      /\ fst out = inr (m, S u))
              | inl e =>
                  refused = false /\ error_columns e row /\ fst out = inr (m, S u)
              end).
Proof.
  cbv zeta. destruct w as [[jobs logs] n t fl].
  unfold ReconEngine.process, ReconLogger.log_result.
  unfold_m. cbn [store next_uuid clock faults recon_jobs recon_logs].
  destruct (ReconEngine._match_transaction ratio fmt cfg x ls) as [e|r] eqn:Hm.
  - destruct (failed_row_columns d s t x e) as [Hid Hcols]. cbv zeta in Hid, Hcols.
    destruct fl as [|[] fl]; cbn.
    + split; [reflexivity|]. right. eexists. split; [reflexivity|].
      split_and!; try reflexivity; auto.
    + split; [reflexivity|]. left. split_and!; eauto.
    + split; [reflexivity|]. right. eexists. split; [reflexivity|].
      split_and!; try reflexivity; auto.
  - destruct (result_row_columns ratio fmt cfg d s ls t x r Hm) as [Hid Hcols].
    cbv zeta in Hid, Hcols.
    destruct (failed_row_columns d s t x (StorageError "storage error")) as [Fid Fcols].
    cbv zeta in Fid, Fcols.
    destruct fl as [|[] fl]; cbn.
    + destruct (matched r) eqn:Hmat; cbn; (split; [reflexivity|]); right;
        (eexists; split; [reflexivity|]);
        (split; [reflexivity|]); (split; [reflexivity|]); (split; [exact Hid|]);
        left; (split; [reflexivity|]); (split; [exact Hcols|]); reflexivity.
    + destruct fl as [|[] fl]; cbn.
      * split; [reflexivity|]. right. eexists. split; [reflexivity|].
        split; [reflexivity|]. split; [reflexivity|]. split; [exact Fid|].
        right. split_and!; eauto.
      * split; [reflexivity|]. left. split_and!; eauto.
      * split; [reflexivity|]. right. eexists. split; [reflexivity|].
        split; [reflexivity|]. split; [reflexivity|]. split; [exact Fid|].
        right. split_and!; eauto.
    + destruct (matched r) eqn:Hmat; cbn; (split; [reflexivity|]); right;
        (eexists; split; [reflexivity|]);
        (split; [reflexivity|]); (split; [reflexivity|]); (split; [exact Hid|]);
        left; (split; [reflexivity|]); (split; [exact Hcols|]); reflexivity.
Qed.

(* A row whose error cannot be logged *)


(* The scores at concrete inputs *)

Lemma timestamp_similarity_monotone_witness :
  exists s1 s2,
    FuzzyMatcher._calculate_timestamp_similarity recon_settings 60000000 0
    = inr (NFloat s1)
    /\ FuzzyMatcher._calculate_timestamp_similarity recon_settings 120000000 0
       = inr (NFloat s2)
    /\ (s2 <= s1)%Q /\ (0 <= s2)%Q /\ (s1 <= 1)%Q.
Proof.
  apply (timestamp_similarity_monotone recon_settings 0 60000000 120000000).
  - reflexivity.
  - cbn. lia.
Defined.

Lemma match_score_bounds_when_returned_witness :
  exists s,
    FuzzyMatcher._calculate_match_score Scenarios.no_ratio Scenarios.plain_fmt
      recon_settings (Scenarios.external "X" 100 0) (Scenarios.ledger "USD" 1 100 60)
    = inr s
    /\ (0 <= qval s <= 1)%Q.
Proof.
  eexists. split; [vm_compute; reflexivity|].
  refine (proj1 (match_score_bounds_when_returned Scenarios.no_ratio Scenarios.plain_fmt
                   recon_settings (Scenarios.external "X" 100 0)
                   (Scenarios.ledger "USD" 1 100 60) (4 # 10) (3 # 10) (3 # 10) _
                   _ _ _ _ _ _ _ _ _ _)).
  - intros a b. unfold Scenarios.no_ratio. lra.
  - vm_compute. reflexivity.
  - vm_compute. reflexivity.
  - vm_compute. reflexivity.
  - lra.
  - lra.
  - lra.
  - lra.
  - reflexivity.
  - vm_compute. reflexivity.
Defined.

End ReconExtra.

(* ================================================================== *)
(** ** Properties of the CSV sources                                   *)
(* ================================================================== *)

Module SourcesExtra.
Import Py ReconSources.

Lemma missing_columns_some env required hs :
  CSVReader.missing_columns env required (Some hs)
  = inr (List.filter (fun r => negb (py_in r hs)) required).
Proof.
  induction required as [|r rest IH]; cbn; [reflexivity|].
  rewrite IH. cbn. destruct (py_in r hs); reflexivity.
Qed.

Lemma validate_headers_spec env required headers :
  required <> [] ->
  match CSVReader._validate_headers env required headers with
  | inr _ => has_columns required headers
  | inl e =>
      ~ has_columns required headers
      /\ (headers = None -> e = TypeError (not_iterable env))
      /\ (forall hs, headers = Some hs ->
                     e = ValueError ("Missing required columns: "
                                     ++ repr_list env
                                          (List.filter (fun r => negb (py_in r hs)) required)))
  end.
Proof.
  intros Hne. unfold CSVReader._validate_headers, has_columns.
  destruct headers as [hs|].
  - rewrite missing_columns_some. cbn.
    destruct (List.filter (fun r => negb (py_in r hs)) required) as [|m ms] eqn:Hf.
    + exists hs. split; [reflexivity|]. apply Forall_forall. intros r Hr.
      apply list_elem_of_In in Hr.
      destruct (py_in r hs) eqn:E; [reflexivity|].
      assert (H : In r (List.filter (fun r => negb (py_in r hs)) required)).
      { apply List.filter_In. split; [exact Hr|]. rewrite E. reflexivity. }
      rewrite Hf in H. destruct H.
    + split_and!.
      * intros (hs' & [= <-] & Hall).
        assert (H : In m (List.filter (fun r => negb (py_in r hs)) required))
          by (rewrite Hf; left; reflexivity).
        apply List.filter_In in H. destruct H as [Hin Hm].
        rewrite Forall_forall in Hall. rewrite (Hall m) in Hm; [discriminate|].
        apply list_elem_of_In, Hin.
      * discriminate.
      * intros hs' [= <-]. rewrite Hf. reflexivity.
  - destruct required as [|r rest]; [contradiction|]. cbn. split_and!.
    + intros (hs & H & _). discriminate.
    + reflexivity.
    + discriminate.
Qed.

Lemma parse_rows_spec env f rows :
  forall n,
    match CSVReader.parse_rows env f n rows with
    | inr txns => Forall2 (fun row txn => f row = inr txn) rows txns
    | inl e =>
        exists pre row post e0,
          rows = (pre ++ row :: post)%list
          /\ Forall (fun r => exists txn, f r = inr txn) pre
          /\ f row = inl e0
          /\ e = ValueError ("Error parsing row " ++ str_int env (n + Z.of_nat (length pre))
                             ++ ": " ++ str_exn e0)
    end.
Proof.
  induction rows as [|row rest IH]; intros n; cbn.
  - constructor.
  - destruct (f row) as [e0|txn] eqn:Hrow.
    + exists [], row, rest, e0. cbn. rewrite Z.add_0_r. split_and!; auto.
    + specialize (IH (n + 1)). unfold mbind, result_bind.
      destruct (CSVReader.parse_rows env f (n + 1) rest) as [e|txns].
      * destruct IH as (pre & r & post & e0 & -> & Hpre & Hr & ->).
        exists (row :: pre), r, post, e0. cbn [app length]. split_and!; auto.
        { constructor; eauto. }
        replace (n + Z.of_nat (S (length pre))) with (n + 1 + Z.of_nat (length pre))
          by lia.
        reflexivity.
      * cbn. constructor; assumption.
Qed.

Lemma rewrap_raises {A} prefix (body : result A) e :
  rewrap prefix body = inl e -> exists msg, e = ValueError (prefix ++ msg).
Proof.
  unfold rewrap. destruct body as [e0|a]; [|discriminate].
  intros [= <-]. eauto.
Qed.

(** X24. [CSVReader.read_from_content] returns all rows or none. It
    returns only if the header has the four required columns, and
    then one transaction per row, in order. Otherwise it raises
    before any transaction is returned: a [TypeError] for an empty
    content, which has no header at all; a [ValueError] "Missing
    required columns: ..." that lists the required columns that the
    header lacks, in the order of the required columns; else, for the
    first row that cannot be parsed, a [ValueError] "Error parsing
    row N: Invalid row data: ..." where N is 2 plus the number of
    rows before it, whatever the rows after it hold. *)
Theorem read_from_content_all_or_nothing env headers rows :
  match CSVReader.read_from_content env headers rows with
  | inr txns =>
      has_columns CSVReader.required_columns headers
      /\ Forall2 (fun row txn =>
                    CSVReader._parse_row env CSVReader.required_columns row = inr txn)
           rows txns
  | inl e =>
      (headers = None /\ e = TypeError (not_iterable env))
      \/ (exists hs,
             headers = Some hs
             /\ List.filter (fun r => negb (py_in r hs)) CSVReader.required_columns <> []
             /\ e = ValueError
                      ("Missing required columns: "
                       ++ repr_list env (List.filter (fun r => negb (py_in r hs))
                                           CSVReader.required_columns)))
      \/ (has_columns CSVReader.required_columns headers
          /\ exists pre row post msg,
               rows = (pre ++ row :: post)%list
               /\ Forall (fun r => exists txn,
                            CSVReader._parse_row env CSVReader.required_columns r
                            = inr txn) pre
               /\ CSVReader._parse_row env CSVReader.required_columns row
                  = inl (ValueError ("Invalid row data: " ++ msg))
               /\ e = ValueError ("Error parsing row "
                                  ++ str_int env (2 + Z.of_nat (length pre))
                                  ++ ": Invalid row data: " ++ msg))
  end.
Proof.
  unfold CSVReader.read_from_content. unfold mbind at 1. unfold result_bind.
  pose proof (validate_headers_spec env CSVReader.required_columns headers
                ltac:(discriminate)) as Hv.
  destruct (CSVReader._validate_headers env CSVReader.required_columns headers)
    as [e|[]].
  - destruct Hv as (H1 & H2 & H3). destruct headers as [hs|].
    + right. left. exists hs. split; [reflexivity|]. split; [|apply H3; reflexivity].
      intros Hnil. apply H1. exists hs. split; [reflexivity|].
      apply Forall_forall. intros r Hr. apply list_elem_of_In in Hr.
      destruct (py_in r hs) eqn:E; [reflexivity|].
      assert (H : In r (List.filter (fun r => negb (py_in r hs))
                          CSVReader.required_columns)).
      { apply List.filter_In. split; [exact Hr|]. rewrite E. reflexivity. }
      rewrite Hnil in H. destruct H.
    + left. split; [reflexivity|apply H2; reflexivity].
  - pose proof (parse_rows_spec env
                  (CSVReader._parse_row env CSVReader.required_columns) rows 2) as Hp.
    destruct (CSVReader.parse_rows env _ 2 rows) as [e|txns].
    + right. right. split; [exact Hv|].
      destruct Hp as (pre & row & post & e0 & -> & Hpre & Hrow & ->).
      pose proof Hrow as Hmsg. apply rewrap_raises in Hmsg. destruct Hmsg as [msg ->].
      exists pre, row, post, msg. split_and!; auto.
    + split; assumption.
Qed.

(* Rows of a bank statement *)

Lemma upper_ascii_idem c : upper_ascii (upper_ascii c) = upper_ascii c.
Proof.
  destruct c as [[] [] [] [] [] [] [] []]; vm_compute; reflexivity.
Qed.

Lemma upper_idem s : upper (upper s) = upper s.
Proof.
  induction s as [|c s IH]; cbn; [reflexivity|].
  rewrite upper_ascii_idem, IH. reflexivity.
Qed.

Lemma description_of_returns row d :
  description_of row = inr d -> d <> Some "" /\ cells row !! "description" <> Some None.
Proof.
  unfold description_of, strip_.
  destruct (cells row !! "description") as [[s|]|]; cbn; try discriminate.
  - destruct (strip s) as [|c s']; cbn; intros [= <-]; split; discriminate.
  - intros [= <-]. split; discriminate.
Qed.

Lemma abs_decimal_unsigned env d a : abs_decimal env d = inr a -> unsigned a.
Proof.
  destruct d as [q|neg|[]]; cbn; try discriminate; intros [= <-]; cbn;
    [apply Qabs_nonneg|reflexivity|reflexivity].
Qed.

Lemma bank_parse_row_returns env row txn :
  BankCSVReader._parse_row env row = inr txn ->
  (exists s d,
      cells row !! "amount" = Some (Some s)
      /\ Decimal env (amount_text s) = inr d
      /\ abs_decimal env d = inr (amount txn)
      /\ metadata txn !! "original_amount" = Some (PStr (amount_text s)))
  /\ unsigned (amount txn)
  /\ upper (currency txn) = currency txn
  /\ description txn <> Some ""
  /\ metadata txn !! "source_format" = Some (PStr "bank_csv").
Proof.
  unfold BankCSVReader._parse_row, rewrap, getitem, strip_, amount_text.
  unfold mbind, result_bind, ret, raise.
  destruct (cells row !! "date") as [[sd|]|]; try discriminate.
  destruct (parse env (strip sd)) as [e|ts]; [discriminate|].
  destruct (cells row !! "amount") as [[sa|]|]; try discriminate.
  destruct (Decimal env _) as [e|d] eqn:Hdec; [discriminate|].
  destruct (abs_decimal env d) as [e|a] eqn:Habs; [discriminate|].
  destruct (cells row !! "transaction_id") as [[si|]|]; try discriminate.
  destruct (cells row !! "currency") as [[sc|]|]; try discriminate.
  destruct (description_of row) as [e|desc] eqn:Hd; [discriminate|].
  intros [= <-]. cbn.
  split_and!.
  - exists sa, d. split_and!; auto.
  - eapply abs_decimal_unsigned, Habs.
  - apply upper_idem.
  - eapply description_of_returns, Hd.
  - reflexivity.
Qed.

(** X25. Whatever [BankCSVReader.read_from_content] returns has one
    transaction per row, in order, and the amount of each is [abs]
    of the [Decimal] read from the amount cell without "$" and ",":
    it has no sign, so that a debit and a credit of a statement
    cannot be told apart by their amounts. A finite amount is not
    negative and an infinite one is the positive infinity; a quiet
    NaN is returned as it is, since neither [Decimal] nor [abs] nor
    [ExternalTxn] refuses it. The text of the amount, sign
    included, is kept in the metadata under "original_amount" with
    "source_format" = "bank_csv". The currency is in upper case and
    a blank description is [None]. *)
Theorem bank_rows_are_normalised env headers rows txns :
  BankCSVReader.read_from_content env headers rows = inr txns ->
  has_columns BankCSVReader.required_columns headers
  /\ length txns = length rows
  /\ Forall2 (fun row txn =>
                (exists s d,
                    cells row !! "amount" = Some (Some s)
                    /\ Decimal env (amount_text s) = inr d
                    /\ abs_decimal env d = inr (amount txn)
                    /\ metadata txn !! "original_amount" = Some (PStr (amount_text s)))
                /\ unsigned (amount txn)
                /\ upper (currency txn) = currency txn
                /\ description txn <> Some ""
                /\ metadata txn !! "source_format" = Some (PStr "bank_csv"))
       rows txns.
Proof.
  unfold BankCSVReader.read_from_content. unfold mbind at 1. unfold result_bind.
  pose proof (validate_headers_spec env BankCSVReader.required_columns headers
                ltac:(discriminate)) as Hv.
  destruct (CSVReader._validate_headers env BankCSVReader.required_columns headers)
    as [e|[]]; [discriminate|].
  pose proof (parse_rows_spec env (BankCSVReader._parse_row env) rows 2) as Hp.
  intros Hrun. rewrite Hrun in Hp.
  split; [exact Hv|]. split.
  - symmetry. eapply Forall2_length, Hp.
  - eapply Forall2_impl; [exact Hp|]. cbn beta.
    intros row txn. apply bank_parse_row_returns.
Qed.

(** A debit of 25.00 is read as 25; an amount cell "NaN" is read as
    a NaN. *)
Lemma bank_rows_are_normalised_witness :
  exists txn nan,
    BankCSVReader.read_from_content toy_parsers (Some BankCSVReader.required_columns)
      [bank_line;
       {| cells := <["amount" := Some "NaN"]> (cells bank_line); overflow := false |}]
    = inr [txn; nan]
    /\ amount txn = Finite (Qabs (-25))
    /\ amount nan = NaN false
    /\ currency txn = "USD"
    /\ description txn = None
    /\ unsigned (amount txn)
    /\ unsigned (amount nan).
Proof.
  eexists _, _. split; [vm_compute; reflexivity|].
  split; [reflexivity|]. split; [reflexivity|]. split; [reflexivity|].
  split; [reflexivity|].
  pose proof (bank_rows_are_normalised toy_parsers (Some BankCSVReader.required_columns)
                [bank_line;
                 {| cells := <["amount" := Some "NaN"]> (cells bank_line);
                    overflow := false |}] _ eq_refl) as (_ & _ & H).
  apply Forall2_cons_1 in H. destruct H as [(_ & H1 & _) H].
  apply Forall2_cons_1 in H. destruct H as [(_ & H2 & _) _].
  split; [exact H1|exact H2].
Defined.

Lemma csv_parse_row_returns env row txn :
  CSVReader._parse_row env CSVReader.required_columns row = inr txn ->
  overflow row = false
  /\ cells row !! "description" <> Some None
  /\ (exists i a c ts,
         cells row !! "txn_id" = Some (Some i)
         /\ cells row !! "amount" = Some (Some a)
         /\ cells row !! "currency" = Some (Some c)
         /\ cells row !! "timestamp" = Some (Some ts)
         /\ txn_id txn = strip i
         /\ currency txn = upper (strip c)
         /\ Decimal env (amount_text a) = inr (amount txn)
         /\ parse env (strip ts) = inr (timestamp txn))
  /\ (forall k,
         metadata txn !! k
         = if py_in k CSVReader.required_columns then None
           else cells row !! k ≫= CSVReader.kept)
  /\ (forall d, description txn = Some d ->
                metadata txn !! "description" = Some (PStr d)).
Proof.
  unfold CSVReader._parse_row, CSVReader.extra_columns, rewrap, getitem, strip_,
    amount_text.
  unfold mbind at 1 2 3 4 5 6 7 8 9 10 11 12. unfold result_bind, ret, raise.
  destruct (cells row !! "timestamp") as [[sd|]|] eqn:Ets; try discriminate.
  destruct (parse env (strip sd)) as [e|ts] eqn:Hts; [discriminate|].
  destruct (cells row !! "amount") as [[sa|]|] eqn:Eam; try discriminate.
  destruct (Decimal env _) as [e|d] eqn:Hdec; [discriminate|].
  destruct (overflow row); [discriminate|]. cbv beta iota.
  destruct (cells row !! "txn_id") as [[si|]|] eqn:Eid; try discriminate.
  destruct (cells row !! "currency") as [[sc|]|] eqn:Ecur; try discriminate.
  destruct (description_of row) as [e|desc] eqn:Hd; [discriminate|].
  intros [= <-]. cbn [txn_id amount currency timestamp description metadata].
  assert (Hmeta : forall k,
             omap CSVReader.kept
               (filter (fun kv => py_in (fst kv) CSVReader.required_columns = false)
                       (cells row)) !! k
             = if py_in k CSVReader.required_columns then None
               else cells row !! k ≫= CSVReader.kept).
  { intros k. rewrite lookup_omap, map_lookup_filter.
    destruct (cells row !! k) as [v|]; cbn -[py_in CSVReader.required_columns].
    - destruct (py_in k CSVReader.required_columns) eqn:E.
      + rewrite option_guard_False by discriminate. reflexivity.
      + rewrite option_guard_True by reflexivity. reflexivity.
    - destruct (py_in k CSVReader.required_columns); reflexivity. }
  split; [reflexivity|]. split; [eapply description_of_returns, Hd|]. split.
  { exists si, sa, sc, sd. split_and!; auto. }
  split; [exact Hmeta|].
  intros d0 ->. rewrite Hmeta. change (py_in "description" CSVReader.required_columns)
    with false. cbv iota.
  revert Hd. unfold description_of, strip_.
  destruct (cells row !! "description") as [[s|]|]; cbn; try discriminate.
  destruct (strip s) as [|c0 s0] eqn:Es; cbn; [discriminate|].
  intros [= <-]. destruct s as [|c1 s1]; [discriminate|].
  exact (f_equal (fun x => Some (PStr x)) Es).
Qed.

(** X26. A row that [CSVReader._parse_row] accepts had no surplus
    cells and had its four required cells, and its description cell
    if the header has that column: a line that is cut short in one
    of these, or is too long, is refused, while a line that is short
    only in other columns is accepted. The transaction carries the
    id and the currency stripped, the currency in upper case, and
    the timestamp and the amount, which may be any [Decimal], that
    the parsers read from the stripped cells, the amount without "$"
    and ",". Its metadata holds exactly the other columns whose cell
    is a non-empty string, stripped; so a description is always
    repeated there and no required column ever appears. Every
    failure is a [ValueError] "Invalid row data: ...". *)
Theorem parsed_row_is_complete env row :
  match CSVReader._parse_row env CSVReader.required_columns row with
  | inr txn =>
      overflow row = false
      /\ cells row !! "description" <> Some None
      /\ (exists i a c ts,
             cells row !! "txn_id" = Some (Some i)
             /\ cells row !! "amount" = Some (Some a)
             /\ cells row !! "currency" = Some (Some c)
             /\ cells row !! "timestamp" = Some (Some ts)
             /\ txn_id txn = strip i
             /\ currency txn = upper (strip c)
             /\ Decimal env (amount_text a) = inr (amount txn)
             /\ parse env (strip ts) = inr (timestamp txn))
      /\ (forall k,
             metadata txn !! k
             = if py_in k CSVReader.required_columns then None
               else cells row !! k ≫= CSVReader.kept)
      /\ (forall d, description txn = Some d ->
                    metadata txn !! "description" = Some (PStr d))
  | inl e => exists msg, e = ValueError ("Invalid row data: " ++ msg)
  end.
Proof.
  destruct (CSVReader._parse_row env CSVReader.required_columns row) as [e|txn] eqn:H.
  - eapply rewrap_raises, H.
  - apply csv_parse_row_returns, H.
Qed.

End SourcesExtra.

(* ================================================================== *)
(** ** Transfers of the ledger under the exact matcher                 *)
(* ================================================================== *)

Module ReaderExtra.
Import Py Storage Recon LedgerReader ReconProofs.

Lemma filter_two {A} (p : A -> bool) (l : list A) a b :
  In a l -> In b l -> a <> b -> p a = true -> p b = true ->
  exists x y rest, List.filter p l = x :: y :: rest.
Proof.
  intros Ha Hb Hne Hpa Hpb.
  apply in_split in Ha. destruct Ha as (pre & post & ->).
  rewrite List.filter_app. cbn [List.filter]. rewrite Hpa.
  apply in_app_or in Hb. destruct Hb as [Hb|[Hb|Hb]]; [|contradiction|].
  - assert (H : In b (List.filter p pre)) by (apply List.filter_In; auto).
    destruct (List.filter p pre) as [|x [|y rest]]; [destruct H|cbn; eauto|cbn; eauto].
  - assert (H : In b (List.filter p post)) by (apply List.filter_In; auto).
    destruct (List.filter p pre) as [|x [|y rest]]; cbn.
    + destruct (List.filter p post) as [|y rest]; [destruct H|eauto].
    + eauto.
    + eauto.
Qed.

(** X27. A transfer that the ledger has recorded cannot be matched by
    amount. The ledger reader returns both events of the transfer,
    the DEBIT and the CREDIT, which have the same amount, currency
    and timestamp; so for an external transaction with that amount
    and currency within the timestamp tolerance, and no
    cross-reference, the exact matcher always finds at least two
    candidates and answers "Multiple exact amount matches found",
    in whatever order the rows of the day are read. *)
Theorem recorded_transfer_is_ambiguous fmt cfg rcfg date_of t w tid evs bals w' ext ls :
  Ledger.LedgerService.transfer_funds fmt cfg t w
  = (inr (Ledger.TransferOk tid evs bals), w') ->
  ls ≡ₚ get_transactions_for_date date_of (store w') (date_of (clock w)) ->
  (ext_amount ext == Ledger.tr_amount t)%Q ->
  ext_currency ext = Ledger.tr_currency t ->
  Z.abs (clock w - ext_timestamp ext) <= timestamp_tolerance_seconds rcfg * 1000000 ->
  (forall x, In x ls -> ~ cross_referenced fmt ext x) ->
  let r := ExactMatcher.match_ fmt rcfg ext ls in
  matched r = false
  /\ match_score r = 0%Q
  /\ ledger_txn_id r = None
  /\ mismatch_reason r = Some "Multiple exact amount matches found".
Proof.
  intros Hrun Hperm Hamt Hcur Htol Hnone r. subst r.
  apply LedgerProofs.transfer_funds_cases in Hrun.
  destruct Hrun as (_ & _ & md & _ & _ & _ & _ & _ & Hst & _).
  set (debit := as_ledger_txn (Ledger.debit_event w t md)).
  set (credit := as_ledger_txn (Ledger.credit_event w t md)).
  assert (Hday : forall e, In e [Ledger.debit_event w t md; Ledger.credit_event w t md] ->
                           In (as_ledger_txn e) ls).
  { intros e He. apply list_elem_of_In. rewrite Hperm. apply list_elem_of_In.
    unfold get_transactions_for_date. apply in_map. apply List.filter_In. split.
    - rewrite Hst. cbn. apply in_or_app. right. exact He.
    - destruct He as [<- | [<- | [] ] ]; cbn; apply Z.eqb_refl. }
  assert (Hd : In debit ls) by (apply Hday; left; reflexivity).
  assert (Hc : In credit ls) by (apply Hday; right; left; reflexivity).
  assert (Hne : debit <> credit).
  { intros E. apply (f_equal id) in E. cbn in E. lia. }
  assert (Hcand : forall x, x = debit \/ x = credit ->
                            ExactMatcher.amount_match rcfg ext x = true).
  { intros x Hx. apply amount_match_iff. unfold exact_candidate, within_tolerance.
    destruct Hx as [-> | ->]; cbn; (split_and!; [symmetry; exact Hamt|congruence|exact Htol]). }
  unfold ExactMatcher.match_.
  rewrite find_exact_id_match_none, find_exact_amount_matches_filter.
  2:{ intros x Hx. eapply not_true_false; [apply id_match_iff|apply Hnone, Hx]. }
  destruct (filter_two (ExactMatcher.amount_match rcfg ext) ls debit credit Hd Hc Hne
              (Hcand _ (or_introl eq_refl)) (Hcand _ (or_intror eq_refl)))
    as (x & y & rest & ->).
  cbn. split_and!; reflexivity.
Qed.

Lemma recorded_transfer_is_ambiguous_witness :
  exists tid evs bals w',
    Ledger.LedgerService.transfer_funds Scenarios.plain_fmt overdraft zero_to_one
      (two_accounts Scenarios.plain_fmt) = (inr (Ledger.TransferOk tid evs bals), w')
    /\ length (get_transactions_for_date (fun _ => 0) (store w') 0) = 2%nat
    /\ mismatch_reason
         (ExactMatcher.match_ Scenarios.plain_fmt recon_settings
            (Scenarios.external "X" 100 0)
            (get_transactions_for_date (fun _ => 0) (store w') 0))
       = Some "Multiple exact amount matches found".
Proof.
  destruct (Ledger.LedgerService.transfer_funds Scenarios.plain_fmt overdraft zero_to_one
              (two_accounts Scenarios.plain_fmt)) as [[e|[tid evs bals|errs]] w'] eqn:Hrun;
    [exfalso; vm_compute in Hrun; discriminate| |exfalso; vm_compute in Hrun; discriminate].
  exists tid, evs, bals, w'. split; [reflexivity|].
  assert (Hw : store w' = Ledger.after_transfer (two_accounts Scenarios.plain_fmt)
                            zero_to_one ∅).
  { pose proof (LedgerProofs.transfer_funds_cases _ _ _ _ _ _ Hrun)
      as (_ & _ & md & Hmd & _ & _ & _ & _ & Hst & _).
    cbn in Hmd. injection Hmd as <-. exact Hst. }
  split; [rewrite Hw; vm_compute; reflexivity|].
  apply (recorded_transfer_is_ambiguous Scenarios.plain_fmt overdraft recon_settings
           (fun _ => 0) zero_to_one (two_accounts Scenarios.plain_fmt) tid evs bals w'
           (Scenarios.external "X" 100 0)
           (get_transactions_for_date (fun _ => 0) (store w') 0) Hrun).
  - reflexivity.
  - reflexivity.
  - reflexivity.
  - vm_compute. discriminate.
  - rewrite Hw. intros x Hx. vm_compute in Hx.
    destruct Hx as [<- | [<- | [] ] ]; intros [H|H]; vm_compute in H; discriminate.
Defined.

End ReaderExtra.
